(** * Currency registry and player wallets (src/index.js)

    A shallow embedding of the second revision of the script found in
    [src/index.js] (the one that keeps its currencies in a private [Map] and
    knows three sync types) and, in the module [Legacy], of the first revision
    found in the same file, followed by the properties of the registry and of
    the wallet operations and by what the two revisions have in common.

    Modelling conventions.
    - JavaScript values are the inductive [value].  A Number whose value is an
      integer is [VInt z] with [z : Z]; the sum of two such Numbers is the
      integer sum rounded to the nearest double, ties to even
      ([round_to_double]), and an infinity, [VInfinity], when that overflows.
      Every other Number, [NaN] or one with a fractional part, is
      [VNumber_other].
    - The [Map] of currencies is an association list in insertion order
      ([JsMap]).
    - A plain object is the list of its own properties in the order in which
      [for ... in] visits them ([JsObject]): array indices in ascending order
      first, then the other names in creation order.  Its prototype is
      [Object.prototype]: a name it does not hold is read from there
      ([JsObject.inherited]), an assignment to [__proto__] of a value that is
      not an object stores nothing, and [hasOwnProperty] is a method looked up
      on the object itself, so that calling it fails once the object holds a
      property of that name.
    - The script runs against one player; a method is a function from the
      [World] (registry and wallet) to a completion, the new world and the
      calls it made on its collaborators, in the order it made them. *)

From Stdlib Require Import ZArith NArith List String Ascii Bool Lia Permutation.
Import ListNotations.
Open Scope bool_scope.
Open Scope string_scope.
Open Scope list_scope.
Open Scope Z_scope.

Set Implicit Arguments.

(** ** Values *)

#[warnings="-register-all"]
Inductive value : Type :=
| VUndefined
| VNull
| VBool (b : bool)
| VInt (z : Z)
| VInfinity (negative : bool)
| VNumber_other
| VString (s : string)
| VArray (items : list value)
| VObject (props : list (string * value))
| VOpaque.

(** [typeof v] *)
Definition typeof (v : value) : string :=
  match v with
  | VUndefined => "undefined"
  | VNull => "object"
  | VBool _ => "boolean"
  | VInt _ | VInfinity _ | VNumber_other => "number"
  | VString _ => "string"
  | VArray _ | VObject _ => "object"
  | VOpaque => "function"
  end.

(** [Number.isInteger(v)] *)
Definition Number_isInteger (v : value) : bool :=
  match v with
  | VInt _ => true
  | _ => false
  end.

(** [Object.prototype.toString.call(v)] *)
Definition Object_prototype_toString (v : value) : string :=
  match v with
  | VUndefined => "[object Undefined]"
  | VNull => "[object Null]"
  | VBool _ => "[object Boolean]"
  | VInt _ | VInfinity _ | VNumber_other => "[object Number]"
  | VString _ => "[object String]"
  | VArray _ => "[object Array]"
  | VObject _ => "[object Object]"
  | VOpaque => "[object Function]"
  end.

(** The characters of a string value; [v.length] for such a value. *)
Definition string_of (v : value) : string :=
  match v with
  | VString s => s
  | _ => ""
  end.

Definition js_length (v : value) : Z := Z.of_nat (String.length (string_of v)).

(** The integer of a Number for which [Number.isInteger] holds. *)
Definition int_of (v : value) : Z :=
  match v with
  | VInt z => z
  | _ => 0
  end.

(** The double nearest to the integer [z], ties to even; [None] when it is
    an infinity, that is, when the rounded magnitude reaches [2 ^ 1024]. *)
Definition round_to_double (z : Z) : option Z :=
  let a := Z.abs z in
  if a <? 2 ^ 53 then Some z
  else
    let e := Z.log2 a - 52 in
    let q := a / 2 ^ e in
    let r := a mod 2 ^ e in
    let half := 2 ^ (e - 1) in
    let q' :=
      if r <? half then q
      else if half <? r then q + 1
      else if Z.even q then q else q + 1 in
    let m := q' * 2 ^ e in
    if m <? 2 ^ 1024 then Some (Z.sgn z * m) else None.

(** [Number.MAX_VALUE], an integer. *)
Definition Number_MAX_VALUE : Z := (2 ^ 53 - 1) * 2 ^ 971.

(** The sum of the integer Numbers [x] and [y]. *)
Definition double_sum (x y : Z) : value :=
  match round_to_double (x + y) with
  | Some s => VInt s
  | None => VInfinity (x + y <? 0)
  end.

(** [a + b] where [b] is an integer Number, as in [wallet[key] += amount].
    An infinity stays what it is and [NaN] stays [NaN]; [null] and [false]
    count as 0, [true] as 1, and [undefined] gives [NaN].  The wallet holds
    integers and infinities only (see [wallet_ok]); for a Number with a
    fractional part the sum is given as another such Number, and for a string
    or an object, where [+] concatenates, as a value that is not looked
    into. *)
Definition js_add (a b : value) : value :=
  match a, b with
  | VInt x, VInt y => double_sum x y
  | VInfinity negative, VInt _ => VInfinity negative
  | VNumber_other, VInt _ => VNumber_other
  | VNull, VInt y => double_sum 0 y
  | VBool flag, VInt y => double_sum (if flag then 1 else 0) y
  | VUndefined, VInt _ => VNumber_other
  | _, _ => VOpaque
  end.

(** ** The [Map] of the registry: insertion order, one entry per key *)

Module JsMap.

Definition t (V : Type) : Type := list (string * V).

Definition empty {V : Type} : t V := [].

Fixpoint get {V : Type} (k : string) (m : t V) : option V :=
  match m with
  | [] => None
  | (k', v) :: m' => if String.eqb k k' then Some v else get k m'
  end.

Definition has {V : Type} (k : string) (m : t V) : bool :=
  match get k m with
  | Some _ => true
  | None => false
  end.

(** [m.set(k, v)]: an existing key keeps its place. *)
Fixpoint set {V : Type} (k : string) (v : V) (m : t V) : t V :=
  match m with
  | [] => [(k, v)]
  | (k', v') :: m' =>
      if String.eqb k k' then (k', v) :: m' else (k', v') :: set k v m'
  end.

Definition keys {V : Type} (m : t V) : list string := map fst m.

End JsMap.

(** ** Plain objects *)

Module JsObject.

Definition t : Type := list (string * value).

Definition empty : t := [].

Definition digit_of (c : ascii) : option N :=
  let n := N_of_ascii c in
  if ((48 <=? n) && (n <=? 57))%N then Some (n - 48)%N else None.

Fixpoint parse_digits (s : string) (acc : N) : option N :=
  match s with
  | EmptyString => Some acc
  | String c s' =>
      match digit_of c with
      | Some d => parse_digits s' (acc * 10 + d)%N
      | None => None
      end
  end.

(** The array index a property name denotes, if it is one: a canonical
    decimal numeral below 2^32 - 1. *)
Definition array_index (s : string) : option N :=
  match s with
  | EmptyString => None
  | String c rest =>
      if (Ascii.eqb c "0" && negb (String.eqb rest ""))%bool then None
      else
        match parse_digits s 0 with
        | Some n => if (n <? 4294967295)%N then Some n else None
        | None => None
        end
  end.

Fixpoint get (k : string) (o : t) : option value :=
  match o with
  | [] => None
  | (k', v) :: o' => if String.eqb k k' then Some v else get k o'
  end.

(** [Object.prototype.hasOwnProperty.call(o, k)] *)
Definition hasOwnProperty (k : string) (o : t) : bool :=
  match get k o with
  | Some _ => true
  | None => false
  end.

(** [o.hasOwnProperty(k)]: the method is looked up on [o] first.  What an
    object of the script holds under that name is a Number, and calling it is
    a TypeError, [None] here. *)
Definition call_hasOwnProperty (k : string) (o : t) : option bool :=
  match get "hasOwnProperty" o with
  | Some _ => None
  | None => Some (hasOwnProperty k o)
  end.

(** [Object.prototype] as a value: an object without enumerable properties. *)
Definition Object_prototype : value := VObject [].

(** The methods of [Object.prototype]. *)
Definition Object_prototype_methods : list string :=
  ["constructor"; "hasOwnProperty"; "isPrototypeOf"; "propertyIsEnumerable";
   "toLocaleString"; "toString"; "valueOf"; "__defineGetter__";
   "__defineSetter__"; "__lookupGetter__"; "__lookupSetter__"].

(** What an object reads under a name it does not hold. *)
Definition inherited (k : string) : value :=
  if String.eqb k "__proto__" then Object_prototype
  else if existsb (String.eqb k) Object_prototype_methods then VOpaque
  else VUndefined.

(** [o[k]] *)
Definition prop (k : string) (o : t) : value :=
  match get k o with
  | Some v => v
  | None => inherited k
  end.

Fixpoint update (k : string) (v : value) (o : t) : t :=
  match o with
  | [] => []
  | (k', v') :: o' =>
      if String.eqb k k' then (k', v) :: o' else (k', v') :: update k v o'
  end.

(** A new array index [i] goes before the first property that is not an
    array index or is a larger one. *)
Fixpoint insert_index (i : N) (k : string) (v : value) (o : t) : t :=
  match o with
  | [] => [(k, v)]
  | (k', v') :: o' =>
      match array_index k' with
      | Some j =>
          if (j <? i)%N then (k', v') :: insert_index i k v o'
          else (k, v) :: o
      | None => (k, v) :: o
      end
  end.

(** [o[k] = v] for a value [v] that is not an object, as are the Numbers the
    script assigns: a property the object holds is overwritten; [__proto__]
    is otherwise the setter of [Object.prototype], which ignores such a value;
    any other name becomes a new property. *)
Definition set (k : string) (v : value) (o : t) : t :=
  if hasOwnProperty k o then update k v o
  else if String.eqb k "__proto__" then o
  else
    match array_index k with
    | Some i => insert_index i k v o
    | None => o ++ [(k, v)]
    end.

(** The names [for (const key in o)] visits, in that order. *)
Definition keys (o : t) : list string := map fst o.

End JsObject.

(** ** The world the script runs in *)

Definition SYNC_TYPE_NONE : Z := 0.
Definition SYNC_TYPE_EVERYONE : Z := 1.
Definition SYNC_TYPE_PLAYER : Z := 2.

(** A currency object, as [addCurrency] builds it. *)
Record Currency : Type := mkCurrency {
  name : string;
  syncType : Z;
  syncKey : string
}.

(** [currencies] is the private [Map] of the script, [_wallet] the field the
    script keeps on the player. *)
Record World : Type := mkWorld {
  currencies : JsMap.t Currency;
  _wallet : JsObject.t
}.

(** What the script asks of its collaborators: the two replication methods of
    the player and the three events of the emitter. *)
Inductive call : Type :=
| setVariable (key : string) (v : value)
| setOwnVariable (key : string) (v : value)
| emit_currencyDefined (key name : string) (syncType : Z) (syncKey : string)
| emit_walletReplaced (oldWallet newWallet : JsObject.t)
| emit_currencyUpdated (key : string) (oldAmount newAmount : value)
    (reason : string).

Definition is_replication (c : call) : bool :=
  match c with
  | setVariable _ _ | setOwnVariable _ _ => true
  | _ => false
  end.

(** ** Methods: state, thrown errors and the calls made *)

Inductive completion (A : Type) : Type :=
| Return (a : A)
| Throw (message : string).

Arguments Throw {A} message.

Definition M (A : Type) : Type := World -> completion A * World * list call.

Definition ret {A : Type} (a : A) : M A := fun w => (Return a, w, []).

Definition throw {A : Type} (message : string) : M A :=
  fun w => (Throw message, w, []).

Definition bind {A B : Type} (m : M A) (f : A -> M B) : M B :=
  fun w =>
    match m w with
    | (Return a, w1, cs1) =>
        match f a w1 with
        | (r, w2, cs2) => (r, w2, cs1 ++ cs2)
        end
    | (Throw e, w1, cs1) => (Throw e, w1, cs1)
    end.

Declare Scope js_scope.
Delimit Scope js_scope with js.
Notation "x <- m ;; k" := (bind m (fun x => k))
  (at level 100, m at next level, right associativity) : js_scope.
Notation "m ;; k" := (bind m (fun _ => k))
  (at level 100, right associativity) : js_scope.
Open Scope js_scope.

Definition perform (c : call) : M unit := fun w => (Return tt, w, [c]).

Definition read {A : Type} (f : World -> A) : M A := fun w => (Return (f w), w, []).

Definition write_currencies (m : JsMap.t Currency) : M unit :=
  fun w => (Return tt, mkWorld m (_wallet w), []).

Definition write_wallet (o : JsObject.t) : M unit :=
  fun w => (Return tt, mkWorld (currencies w) o, []).

(** A loop that runs [body] on each element of [l] in turn. *)
Fixpoint for_each {A : Type} (l : list A) (body : A -> M unit) : M unit :=
  match l with
  | [] => ret tt
  | x :: l' => body x ;; for_each l' body
  end.

(** The three components of what a method did. *)
Definition result {A : Type} (r : completion A * World * list call) : completion A :=
  fst (fst r).
Definition world_after {A : Type} (r : completion A * World * list call) : World :=
  snd (fst r).
Definition calls {A : Type} (r : completion A * World * list call) : list call :=
  snd r.

(** ** class CurrencyScript *)

Module CurrencyScript.

Definition addCurrency (key name syncType : value) : M Currency :=
  if negb (String.eqb (typeof key) "string") || (js_length key <? 1) then
    throw "key is not a string/is an empty string"
  else if negb (String.eqb (typeof name) "string") || (js_length name <? 1) then
    throw "name is not a string/is an empty string"
  else if negb (Number_isInteger syncType) then
    throw "syncType is not an integer"
  else
    known <- read (fun w => JsMap.has (string_of key) (currencies w)) ;;
    if known : bool then
      throw "a currency with the specified key already exists"
    else if (int_of syncType <? SYNC_TYPE_NONE) || (int_of syncType >? SYNC_TYPE_PLAYER) then
      throw "invalid syncType value"
    else
      let currency :=
        mkCurrency (string_of name) (int_of syncType)
          ("currency_" ++ string_of key)%string in
      m <- read currencies ;;
      write_currencies (JsMap.set (string_of key) currency m) ;;
      perform (emit_currencyDefined (string_of key) (string_of name)
                 (int_of syncType) (syncKey currency)) ;;
      ret currency.

Definition hasCurrency (key : string) : M bool :=
  read (fun w => JsMap.has key (currencies w)).

(** [undefined] is [None]. *)
Definition getCurrency (key : string) : M (option Currency) :=
  read (fun w => JsMap.get key (currencies w)).

Definition getAllCurrencies : M (list string) :=
  read (fun w => JsMap.keys (currencies w)).

Definition getCurrencyName (key : string) : M string :=
  c <- getCurrency key ;;
  ret (match c with Some c => name c | None => "Invalid Currency" end).

Definition getCurrencySyncType (key : string) : M Z :=
  c <- getCurrency key ;;
  ret (match c with Some c => syncType c | None => SYNC_TYPE_NONE end).

(** [null] is [None]. *)
Definition getCurrencySyncKey (key : string) : M (option string) :=
  c <- getCurrency key ;;
  ret (match c with Some c => Some (syncKey c) | None => None end).

End CurrencyScript.

(** ** Player functions *)

Module Player.

(** The [switch (currency.syncType)] that each of the three mutating methods
    runs on the currency it looked up and the amount it stored.  Reading
    [syncType] off [undefined] is a TypeError. *)
Definition switch_syncType (currency : option Currency) (amount : value) : M unit :=
  match currency with
  | None => throw "TypeError: cannot read properties of undefined"
  | Some c =>
      if syncType c =? SYNC_TYPE_EVERYONE then
        perform (setVariable (syncKey c) amount)
      else if syncType c =? SYNC_TYPE_PLAYER then
        perform (setOwnVariable (syncKey c) amount)
      else ret tt
  end.

(** [currency == null] *)
Definition is_null {A : Type} (currency : option A) : bool :=
  match currency with
  | None => true
  | Some _ => false
  end.

Definition getWallet : M JsObject.t := read _wallet.

(** The properties [for (const key in newWallet)] runs over. *)
Definition props_of (v : value) : JsObject.t :=
  match v with
  | VObject props => props
  | _ => []
  end.

(** The first loop of [setWallet], over the keys still to visit. *)
Fixpoint skip_invalid (newWallet : JsObject.t) (todo : list string)
    (replacement : JsObject.t) : M JsObject.t :=
  match todo with
  | [] => ret replacement
  | key :: todo' =>
      known <- CurrencyScript.hasCurrency key ;;
      if negb known || negb (Number_isInteger (JsObject.prop key newWallet)) then
        skip_invalid newWallet todo' replacement
      else
        skip_invalid newWallet todo'
          (JsObject.set key (JsObject.prop key newWallet) replacement)
  end.

Definition setWallet (newWallet : value) : M bool :=
  if negb (String.eqb (Object_prototype_toString newWallet) "[object Object]") then
    ret false
  else
    oldWallet <- read _wallet ;;
    replacement <-
      skip_invalid (props_of newWallet) (JsObject.keys (props_of newWallet))
        JsObject.empty ;;
    write_wallet replacement ;;
    for_each (JsObject.keys replacement) (fun key =>
      currency <- CurrencyScript.getCurrency key ;;
      switch_syncType currency (JsObject.prop key replacement)) ;;
    perform (emit_walletReplaced oldWallet replacement) ;;
    ret true.

(** [this._wallet.hasOwnProperty(key)] *)
Definition wallet_hasOwnProperty (key : string) : M bool :=
  wallet <- read _wallet ;;
  match JsObject.call_hasOwnProperty key wallet with
  | Some b => ret b
  | None => throw "TypeError: this._wallet.hasOwnProperty is not a function"
  end.

Definition getCurrency (currencyKey : string) : M value :=
  owned <- wallet_hasOwnProperty currencyKey ;;
  if owned : bool then read (fun w => JsObject.prop currencyKey (_wallet w))
  else ret (VInt 0).

Definition setCurrency (currencyKey : string) (newAmount : value) : M bool :=
  currency <- CurrencyScript.getCurrency currencyKey ;;
  if is_null currency || negb (Number_isInteger newAmount) then ret false
  else
    oldAmount <- getCurrency currencyKey ;;
    wallet <- read _wallet ;;
    write_wallet (JsObject.set currencyKey newAmount wallet) ;;
    switch_syncType currency newAmount ;;
    perform (emit_currencyUpdated currencyKey oldAmount newAmount "setCurrency") ;;
    ret true.

Definition changeCurrency (currencyKey : string) (amount : value) : M bool :=
  currency <- CurrencyScript.getCurrency currencyKey ;;
  if is_null currency || negb (Number_isInteger amount) then ret false
  else
    oldAmount <- getCurrency currencyKey ;;
    owned <- wallet_hasOwnProperty currencyKey ;;
    wallet <- read _wallet ;;
    (if owned : bool then
       write_wallet
         (JsObject.set currencyKey (js_add (JsObject.prop currencyKey wallet) amount) wallet)
     else
       write_wallet (JsObject.set currencyKey amount wallet)) ;;
    stored <- read (fun w => JsObject.prop currencyKey (_wallet w)) ;;
    switch_syncType currency stored ;;
    stored' <- read (fun w => JsObject.prop currencyKey (_wallet w)) ;;
    perform (emit_currencyUpdated currencyKey oldAmount stored' "changeCurrency") ;;
    ret true.

(** The handler of the [playerJoin] event. *)
Definition playerJoin : M unit := write_wallet JsObject.empty.

End Player.

(** ** Running the script *)

(** The requests a host can make of the script for its player. *)
Inductive request : Type :=
| AddCurrency (key name syncType : value)
| PlayerJoin
| SetWallet (newWallet : value)
| SetCurrency (currencyKey : string) (newAmount : value)
| ChangeCurrency (currencyKey : string) (amount : value).

Definition serve (r : request) (w : World) : World :=
  match r with
  | AddCurrency key name syncType =>
      world_after (CurrencyScript.addCurrency key name syncType w)
  | PlayerJoin => world_after (Player.playerJoin w)
  | SetWallet newWallet => world_after (Player.setWallet newWallet w)
  | SetCurrency k a => world_after (Player.setCurrency k a w)
  | ChangeCurrency k a => world_after (Player.changeCurrency k a w)
  end.

Definition serve_all (rs : list request) (w : World) : World :=
  fold_left (fun w r => serve r w) rs w.

(** The world when a player has just joined a script with registry [reg]. *)
Definition joined (reg : JsMap.t Currency) : World := mkWorld reg JsObject.empty.

(** Small worlds used in the examples. *)
Definition gold : Currency := mkCurrency "Gold" SYNC_TYPE_EVERYONE "currency_gold".
Definition cash : Currency := mkCurrency "Cash" SYNC_TYPE_PLAYER "currency_cash".
Definition chips : Currency := mkCurrency "Chips" SYNC_TYPE_NONE "currency_chips".
Definition bank : JsMap.t Currency := [("gold", gold); ("cash", cash); ("chips", chips)].

(** ** Notions used to state the properties *)

(** The replication the [switch] performs for currency [c] and amount [v]. *)
Definition replication_of (c : Currency) (v : value) : list call :=
  if syncType c =? SYNC_TYPE_EVERYONE then [setVariable (syncKey c) v]
  else if syncType c =? SYNC_TYPE_PLAYER then [setOwnVariable (syncKey c) v]
  else [].

(** The replication of a whole wallet, name by name. *)
Definition replication_of_wallet (reg : JsMap.t Currency) (o : JsObject.t)
    (names : list string) : list call :=
  flat_map (fun key =>
    match JsMap.get key reg with
    | Some c => replication_of c (JsObject.prop key o)
    | None => []
    end) names.

(** What [getCurrency] reads off a wallet when it returns. *)
Definition balance (k : string) (o : JsObject.t) : value :=
  if JsObject.hasOwnProperty k o then JsObject.prop k o else VInt 0.

(** The wallet holds a property named [hasOwnProperty], so that the wallet
    methods that call it fail. *)
Definition shadowed (o : JsObject.t) : bool :=
  JsObject.hasOwnProperty "hasOwnProperty" o.

(** The error of calling [hasOwnProperty] on such a wallet. *)
Definition not_a_function : string :=
  "TypeError: this._wallet.hasOwnProperty is not a function".

(** The wallet holds a function under [hasOwnProperty]; the script never
    stores one. *)
Definition own_method (o : JsObject.t) : bool :=
  match JsObject.get "hasOwnProperty" o with
  | Some v => String.eqb (typeof v) "function"
  | None => false
  end.

(** An assignment to the name [k] of [o] stores its value. *)
Definition stores (k : string) (o : JsObject.t) : bool :=
  JsObject.hasOwnProperty k o || negb (String.eqb k "__proto__").

(** The object the first loop of [setWallet] builds, given the registry. *)
Fixpoint kept (reg : JsMap.t Currency) (newWallet : JsObject.t)
    (todo : list string) (replacement : JsObject.t) : JsObject.t :=
  match todo with
  | [] => replacement
  | key :: todo' =>
      if negb (JsMap.has key reg) || negb (Number_isInteger (JsObject.prop key newWallet))
      then kept reg newWallet todo' replacement
      else kept reg newWallet todo'
             (JsObject.set key (JsObject.prop key newWallet) replacement)
  end.

(** The entries of an object that hold an integer, in the object's order. *)
Definition integer_entries (o : JsObject.t) : JsObject.t :=
  filter (fun entry => Number_isInteger (snd entry)) o.

(** Every name in the wallet is a registered currency other than
    [__proto__] and holds a Number. *)
Definition wallet_ok (w : World) : Prop :=
  forall k v, JsObject.get k (_wallet w) = Some v ->
    JsMap.has k (currencies w) = true /\ k <> "__proto__"
    /\ ((exists z, v = VInt z) \/ (exists negative, v = VInfinity negative)).

(** A non-empty string. *)
Definition nonempty_string (v : value) : bool :=
  match v with
  | VString s => negb (String.eqb s "")
  | _ => false
  end.

(** One of the three sync types. *)
Definition recognized_syncType (v : value) : bool :=
  match v with
  | VInt z => (SYNC_TYPE_NONE <=? z) && (z <=? SYNC_TYPE_PLAYER)
  | _ => false
  end.

(** The errors of [addCurrency] by kind: the script throws plain [Error]s,
    told apart by their message. *)
Definition is_AlreadyExists (message : string) : bool :=
  String.eqb message "a currency with the specified key already exists".

Definition is_InvalidArgument (message : string) : bool :=
  String.eqb message "key is not a string/is an empty string"
  || String.eqb message "name is not a string/is an empty string"
  || String.eqb message "syncType is not an integer"
  || String.eqb message "invalid syncType value".

Definition is_currencyUpdated (c : call) : bool :=
  match c with
  | emit_currencyUpdated _ _ _ _ => true
  | _ => false
  end.

(** ** Notions used for the further properties *)

(** No name of [o] is an array index. *)
Definition index_free (o : JsObject.t) : bool :=
  forallb (fun kv =>
    match JsObject.array_index (fst kv) with
    | Some _ => false
    | None => true
    end) o.

(** Every array index among the names of [o] is larger than [i]. *)
Definition above (i : N) (o : JsObject.t) : bool :=
  forallb (fun kv =>
    match JsObject.array_index (fst kv) with
    | Some j => (i <? j)%N
    | None => true
    end) o.

(** The order in which an object lists its names: array indices first, in
    ascending order, then the other names. *)
Fixpoint ordered (o : JsObject.t) : bool :=
  match o with
  | [] => true
  | (k, _) :: o' =>
      match JsObject.array_index k with
      | Some i => above i o' && ordered o'
      | None => index_free o'
      end
  end.

(** What [addCurrency] guarantees of every record of the registry. *)
Definition registry_ok (reg : JsMap.t Currency) : Prop :=
  NoDup (JsMap.keys reg)
  /\ forall k c, JsMap.get k reg = Some c ->
       k <> "" /\ name c <> ""
       /\ syncKey c = ("currency_" ++ k)%string
       /\ (syncType c = SYNC_TYPE_NONE \/ syncType c = SYNC_TYPE_EVERYONE
           \/ syncType c = SYNC_TYPE_PLAYER).

(** The sync key a replication call goes out under. *)
Definition replication_key (c : call) : option string :=
  match c with
  | setVariable key _ | setOwnVariable key _ => Some key
  | _ => None
  end.

(** The sync keys a list of calls replicates under, in order. *)
Definition replication_keys (cs : list call) : list string :=
  flat_map (fun c =>
    match replication_key c with
    | Some key => [key]
    | None => []
    end) cs.


(** ** The first revision of the script

    The same file holds an earlier revision of the script (its first 212
    lines): a currency is either shared with every client or not shared at
    all, [addCurrency] reports a mistake on the console and returns [null]
    instead of throwing, and [setWallet] reports each entry it skips.  Its
    registry is a plain object, [this._currencies], with the behaviour of one:
    [hasOwnProperty] is looked up on the registry itself, an assignment to
    [__proto__] replaces the prototype of the registry instead of creating a
    property, and [Object.keys] lists array indices first. *)

Module Legacy.

(** A currency object, as [addCurrency] builds it. *)
Record Currency : Type := mkCurrency {
  name : string;
  isShared : bool;
  syncKey : string
}.

(** The currency object as a value. *)
Definition object_of (c : Currency) : value :=
  VObject [("name", VString (name c)); ("isShared", VBool (isShared c));
           ("syncKey", VString (syncKey c))].

(** [this._currencies]: its own properties, in the order in which the object
    lists them, and its prototype, which is [Object.prototype] ([None]) until
    a currency object is assigned to [__proto__]. *)
Record Registry : Type := mkRegistry {
  records : list (string * Currency);
  prototype : option Currency
}.

Definition no_currencies : Registry := mkRegistry [] None.

Fixpoint own (k : string) (l : list (string * Currency)) : option Currency :=
  match l with
  | [] => None
  | (k', c) :: l' => if String.eqb k k' then Some c else own k l'
  end.

Definition is_own (k : string) (l : list (string * Currency)) : bool :=
  match own k l with
  | Some _ => true
  | None => false
  end.

Fixpoint update (k : string) (c : Currency) (l : list (string * Currency))
    : list (string * Currency) :=
  match l with
  | [] => []
  | (k', c') :: l' =>
      if String.eqb k k' then (k', c) :: l' else (k', c') :: update k c l'
  end.

(** A new array index [i] goes before the first property that is not an
    array index or is a larger one. *)
Fixpoint insert_index (i : N) (k : string) (c : Currency)
    (l : list (string * Currency)) : list (string * Currency) :=
  match l with
  | [] => [(k, c)]
  | (k', c') :: l' =>
      match JsObject.array_index k' with
      | Some j =>
          if (j <? i)%N then (k', c') :: insert_index i k c l'
          else (k, c) :: l
      | None => (k, c) :: l
      end
  end.

(** [this._currencies[key] = c] for a currency object [c]: a property the
    registry holds is overwritten; [__proto__] is otherwise the setter of
    [Object.prototype], which makes [c] the prototype of the registry; any
    other name becomes a new property. *)
Definition assign (k : string) (c : Currency) (r : Registry) : Registry :=
  if is_own k (records r) then mkRegistry (update k c (records r)) (prototype r)
  else if String.eqb k "__proto__" then mkRegistry (records r) (Some c)
  else
    match JsObject.array_index k with
    | Some i => mkRegistry (insert_index i k c (records r)) (prototype r)
    | None => mkRegistry (records r ++ [(k, c)]) (prototype r)
    end.

(** [this._currencies[key]]: an own property, or else what the prototype
    chain gives: a field of the currency object that has become the
    prototype, that object itself under [__proto__], or what
    [Object.prototype] holds. *)
Definition lookup (k : string) (r : Registry) : value :=
  match own k (records r) with
  | Some c => object_of c
  | None =>
      match prototype r with
      | Some p =>
          if String.eqb k "name" then VString (name p)
          else if String.eqb k "isShared" then VBool (isShared p)
          else if String.eqb k "syncKey" then VString (syncKey p)
          else if String.eqb k "__proto__" then object_of p
          else JsObject.inherited k
      | None => JsObject.inherited k
      end
  end.

(** [this._currencies.hasOwnProperty(key)]: the method is looked up on the
    registry first; a currency object found there is not a function, and
    calling it is a TypeError, [None] here.  A currency object that has become
    the prototype holds no such property, so that the method of
    [Object.prototype] is found behind it. *)
Definition call_hasOwnProperty (k : string) (r : Registry) : option bool :=
  match own "hasOwnProperty" (records r) with
  | Some _ => None
  | None => Some (is_own k (records r))
  end.

(** [player_name] is [this.name] of the player. *)
Record World : Type := mkWorld {
  _currencies : Registry;
  _wallet : JsObject.t;
  player_name : string
}.

Inductive call : Type :=
| console_error (message : string)
| console_log (message : string)
| setVariable (key : string) (v : value)
| emit_currencyDefined (key name : string) (isShared : bool) (syncKey : string)
| emit_walletReplaced (oldWallet newWallet : JsObject.t)
| emit_currencyUpdated (key : string) (oldAmount newAmount : value)
    (reason : string).

Definition M (A : Type) : Type := World -> completion A * World * list call.

Definition ret {A : Type} (a : A) : M A := fun w => (Return a, w, []).

Definition throw {A : Type} (message : string) : M A :=
  fun w => (Throw message, w, []).

Definition bind {A B : Type} (m : M A) (f : A -> M B) : M B :=
  fun w =>
    match m w with
    | (Return a, w1, cs1) =>
        match f a w1 with
        | (r, w2, cs2) => (r, w2, cs1 ++ cs2)
        end
    | (Throw e, w1, cs1) => (Throw e, w1, cs1)
    end.

Declare Scope legacy_scope.
Notation "x <- m ;; k" := (bind m (fun x => k))
  (at level 100, m at next level, right associativity) : legacy_scope.
Notation "m ;; k" := (bind m (fun _ => k))
  (at level 100, right associativity) : legacy_scope.
#[local] Open Scope legacy_scope.

Definition perform (c : call) : M unit := fun w => (Return tt, w, [c]).

Definition read {A : Type} (f : World -> A) : M A := fun w => (Return (f w), w, []).

Definition write_currencies (r : Registry) : M unit :=
  fun w => (Return tt, mkWorld r (_wallet w) (player_name w), []).

Definition write_wallet (o : JsObject.t) : M unit :=
  fun w => (Return tt, mkWorld (_currencies w) o (player_name w), []).

Fixpoint for_each {A : Type} (l : list A) (body : A -> M unit) : M unit :=
  match l with
  | [] => ret tt
  | x :: l' => body x ;; for_each l' body
  end.

Definition result {A : Type} (r : completion A * World * list call) : completion A :=
  fst (fst r).
Definition world_after {A : Type} (r : completion A * World * list call) : World :=
  snd (fst r).
Definition calls {A : Type} (r : completion A * World * list call) : list call :=
  snd r.

(** The boolean of a value whose [typeof] is [boolean]. *)
Definition bool_of (v : value) : bool :=
  match v with
  | VBool b => b
  | _ => false
  end.

(** The double quote of the console messages. *)
Definition dquote : string := String (ascii_of_nat 34) EmptyString.

(** [if (syncKey)] on a string or [null]. *)
Definition truthy (syncKey : option string) : bool :=
  match syncKey with
  | Some s => negb (String.eqb s "")
  | None => false
  end.

(** The properties [for (const key in newWallet)] runs over. *)
Definition props_of (v : value) : JsObject.t := Player.props_of v.

Definition not_a_function : string :=
  "TypeError: this._currencies.hasOwnProperty is not a function".

Module CurrencyScript.

Definition hasCurrency (key : string) : M bool :=
  reg <- read _currencies ;;
  match call_hasOwnProperty key reg with
  | Some b => ret b
  | None => throw not_a_function
  end.

(** [null] is [VNull]. *)
Definition addCurrency (key name isShared : value) : M value :=
  if negb (String.eqb (typeof key) "string") || (js_length key <? 1) then
    perform (console_error
               "addCurrency: key was not a string/was an empty string.") ;;
    ret VNull
  else if negb (String.eqb (typeof name) "string") || (js_length name <? 1) then
    perform (console_error
               ("addCurrency: name was not a string/was an empty string. ("
                ++ string_of key ++ ")")%string) ;;
    ret VNull
  else if negb (String.eqb (typeof isShared) "boolean") then
    perform (console_error
               ("addCurrency: isShared was not a boolean. ("
                ++ string_of key ++ ")")%string) ;;
    ret VNull
  else
    known <- hasCurrency (string_of key) ;;
    if known : bool then
      perform (console_error
                 ("addCurrency: Currency (" ++ string_of key
                  ++ ") already exists.")%string) ;;
      ret VNull
    else
      let syncKey := ("currency_" ++ string_of key)%string in
      reg <- read _currencies ;;
      write_currencies
        (assign (string_of key)
           (mkCurrency (string_of name) (bool_of isShared) syncKey) reg) ;;
      perform (emit_currencyDefined (string_of key) (string_of name)
                 (bool_of isShared) syncKey) ;;
      read (fun w => lookup (string_of key) (_currencies w)).

Definition getCurrency (key : string) : M value :=
  read (fun w => lookup key (_currencies w)).

Definition getAllCurrencies : M (list string) :=
  read (fun w => map fst (records (_currencies w))).

(** [this._currencies[key]] once [hasCurrency(key)] has answered [true]: the
    currency object the registry holds. *)
Definition held (key : string) : M Currency :=
  reg <- read _currencies ;;
  match own key (records reg) with
  | Some c => ret c
  | None => throw "TypeError: cannot read properties of undefined"
  end.

Definition getCurrencyName (key : string) : M string :=
  known <- hasCurrency key ;;
  if known : bool then c <- held key ;; ret (name c)
  else ret "Invalid Currency".

Definition getCurrencyIsShared (key : string) : M bool :=
  known <- hasCurrency key ;;
  if known : bool then c <- held key ;; ret (isShared c)
  else ret false.

(** [null] is [None]. *)
Definition getCurrencySyncKey (key : string) : M (option string) :=
  known <- hasCurrency key ;;
  if known : bool then c <- held key ;; ret (Some (syncKey c))
  else ret None.

Definition _getSyncKeyInternal (key : string) : M (option string) :=
  known <- hasCurrency key ;;
  if known : bool then
    c <- held key ;;
    if isShared c then c' <- held key ;; ret (Some (syncKey c'))
    else ret None
  else ret None.

End CurrencyScript.

Module Player.

Definition getWallet : M JsObject.t := read _wallet.

(** The first loop of [setWallet], over the keys still to visit. *)
Fixpoint verify (newWallet : JsObject.t) (todo : list string)
    (replacement : JsObject.t) : M JsObject.t :=
  match todo with
  | [] => ret replacement
  | key :: todo' =>
      known <- CurrencyScript.hasCurrency key ;;
      if known : bool then
        if Number_isInteger (JsObject.prop key newWallet) then
          verify newWallet todo'
            (JsObject.set key (JsObject.prop key newWallet) replacement)
        else
          who <- read player_name ;;
          perform (console_log
                     ("Found invalid amount for " ++ dquote ++ key ++ dquote
                      ++ " while replacing " ++ who
                      ++ "'s wallet, skipping it.")%string) ;;
          verify newWallet todo' replacement
      else
        who <- read player_name ;;
        perform (console_log
                   ("Found invalid currency " ++ dquote ++ key ++ dquote
                    ++ " while replacing " ++ who
                    ++ "'s wallet, skipping it.")%string) ;;
        verify newWallet todo' replacement
  end.

(** [if (syncKey) this.setVariable(syncKey, amount)] *)
Definition replicate (syncKey : option string) (amount : value) : M unit :=
  if truthy syncKey then
    perform (setVariable (match syncKey with Some s => s | None => "" end) amount)
  else ret tt.

Definition setWallet (newWallet : value) : M bool :=
  if String.eqb (Object_prototype_toString newWallet) "[object Object]" then
    oldWallet <- read _wallet ;;
    replacement <-
      verify (props_of newWallet)
        (JsObject.keys (props_of newWallet)) JsObject.empty ;;
    write_wallet replacement ;;
    for_each (JsObject.keys replacement) (fun key =>
      syncKey <- CurrencyScript._getSyncKeyInternal key ;;
      replicate syncKey (JsObject.prop key replacement)) ;;
    perform (emit_walletReplaced oldWallet replacement) ;;
    ret true
  else ret false.

(** [this._wallet.hasOwnProperty(key)] *)
Definition wallet_hasOwnProperty (key : string) : M bool :=
  wallet <- read _wallet ;;
  match JsObject.call_hasOwnProperty key wallet with
  | Some b => ret b
  | None => throw "TypeError: this._wallet.hasOwnProperty is not a function"
  end.

Definition getCurrency (currencyKey : string) : M value :=
  owned <- wallet_hasOwnProperty currencyKey ;;
  if owned : bool then read (fun w => JsObject.prop currencyKey (_wallet w))
  else ret (VInt 0).

Definition setCurrency (currencyKey : string) (newAmount : value) : M bool :=
  known <- CurrencyScript.hasCurrency currencyKey ;;
  if known && Number_isInteger newAmount then
    syncKey <- CurrencyScript._getSyncKeyInternal currencyKey ;;
    oldAmount <- getCurrency currencyKey ;;
    wallet <- read _wallet ;;
    write_wallet (JsObject.set currencyKey newAmount wallet) ;;
    replicate syncKey newAmount ;;
    perform (emit_currencyUpdated currencyKey oldAmount newAmount "setCurrency") ;;
    ret true
  else ret false.

Definition changeCurrency (currencyKey : string) (amount : value) : M bool :=
  known <- CurrencyScript.hasCurrency currencyKey ;;
  if known && Number_isInteger amount then
    syncKey <- CurrencyScript._getSyncKeyInternal currencyKey ;;
    oldAmount <- getCurrency currencyKey ;;
    owned <- wallet_hasOwnProperty currencyKey ;;
    wallet <- read _wallet ;;
    (if owned : bool then
       write_wallet
         (JsObject.set currencyKey (js_add (JsObject.prop currencyKey wallet) amount) wallet)
     else
       write_wallet (JsObject.set currencyKey amount wallet)) ;;
    stored <- read (fun w => JsObject.prop currencyKey (_wallet w)) ;;
    replicate syncKey stored ;;
    stored' <- read (fun w => JsObject.prop currencyKey (_wallet w)) ;;
    perform (emit_currencyUpdated currencyKey oldAmount stored' "changeCurrency") ;;
    ret true
  else ret false.

(** The handler of the [playerJoin] event. *)
Definition playerJoin : M unit := write_wallet JsObject.empty.

End Player.

(** The requests a host can make of this revision for its player. *)
Inductive request : Type :=
| AddCurrency (key name isShared : value)
| PlayerJoin
| SetWallet (newWallet : value)
| SetCurrency (currencyKey : string) (newAmount : value)
| ChangeCurrency (currencyKey : string) (amount : value).

Definition serve (r : request) (w : World) : World :=
  match r with
  | AddCurrency key name isShared =>
      world_after (CurrencyScript.addCurrency key name isShared w)
  | PlayerJoin => world_after (Player.playerJoin w)
  | SetWallet newWallet => world_after (Player.setWallet newWallet w)
  | SetCurrency k a => world_after (Player.setCurrency k a w)
  | ChangeCurrency k a => world_after (Player.changeCurrency k a w)
  end.

Definition serve_all (rs : list request) (w : World) : World :=
  fold_left (fun w r => serve r w) rs w.

(** The world when the player [who] has just joined an empty script. *)
Definition start (who : string) : World :=
  mkWorld no_currencies JsObject.empty who.

(** ** Notions used to state the properties of this revision *)

(** The registry holds a currency under [hasOwnProperty]. *)
Definition shadowed (r : Registry) : bool := is_own "hasOwnProperty" (records r).

(** The replication of this revision for currency [c] and amount [v]. *)
Definition replication_of (c : Currency) (v : value) : list call :=
  if isShared c && negb (String.eqb (syncKey c) "") then [setVariable (syncKey c) v]
  else [].

(** Whether the first loop of [setWallet] skips the name [key]. *)
Definition skipped (reg : Registry) (newWallet : JsObject.t) (key : string) : bool :=
  negb (is_own key (records reg) && Number_isInteger (JsObject.prop key newWallet)).

(** The line the first loop of [setWallet] writes for a name it skips. *)
Definition skip_message (reg : Registry) (who : string) (key : string) : string :=
  if is_own key (records reg) then
    ("Found invalid amount for " ++ dquote ++ key ++ dquote
     ++ " while replacing " ++ who ++ "'s wallet, skipping it.")%string
  else
    ("Found invalid currency " ++ dquote ++ key ++ dquote
     ++ " while replacing " ++ who ++ "'s wallet, skipping it.")%string.

(** The object the first loop of [setWallet] builds, given the registry. *)
Fixpoint kept (reg : Registry) (newWallet : JsObject.t)
    (todo : list string) (replacement : JsObject.t) : JsObject.t :=
  match todo with
  | [] => replacement
  | key :: todo' =>
      if skipped reg newWallet key then kept reg newWallet todo' replacement
      else kept reg newWallet todo'
             (JsObject.set key (JsObject.prop key newWallet) replacement)
  end.

(** The lines the first loop of [setWallet] writes, in order. *)
Definition skip_lines (reg : Registry) (who : string) (newWallet : JsObject.t)
    (names : list string) : list call :=
  map (fun key => console_log (skip_message reg who key))
    (filter (skipped reg newWallet) names).

(** The replication of a whole wallet, name by name. *)
Definition replication_of_wallet (reg : Registry) (o : JsObject.t)
    (names : list string) : list call :=
  flat_map (fun key =>
    match own key (records reg) with
    | Some c => replication_of c (JsObject.prop key o)
    | None => []
    end) names.

Definition is_console_log (c : call) : bool :=
  match c with
  | console_log _ => true
  | _ => false
  end.

(** The requests that register neither [__proto__] nor [hasOwnProperty]. *)
Definition plain_key (r : request) : bool :=
  match r with
  | AddCurrency key _ _ =>
      negb (String.eqb (string_of key) "__proto__")
      && negb (String.eqb (string_of key) "hasOwnProperty")
  | _ => true
  end.

End Legacy.

(** ** From the first revision to the second

    A shared currency of the first revision is one of sync type
    [SYNC_TYPE_EVERYONE] of the second, an unshared one is of sync type
    [SYNC_TYPE_NONE]; the console is the only collaborator the second revision
    has dropped. *)

Definition upgrade_flag (isShared : value) : value :=
  match isShared with
  | VBool true => VInt SYNC_TYPE_EVERYONE
  | VBool false => VInt SYNC_TYPE_NONE
  | _ => VUndefined
  end.

Definition upgrade_currency (c : Legacy.Currency) : Currency :=
  mkCurrency (Legacy.name c)
    (if Legacy.isShared c then SYNC_TYPE_EVERYONE else SYNC_TYPE_NONE)
    (Legacy.syncKey c).

Definition upgrade_request (r : Legacy.request) : request :=
  match r with
  | Legacy.AddCurrency key name isShared =>
      AddCurrency key name (upgrade_flag isShared)
  | Legacy.PlayerJoin => PlayerJoin
  | Legacy.SetWallet newWallet => SetWallet newWallet
  | Legacy.SetCurrency k a => SetCurrency k a
  | Legacy.ChangeCurrency k a => ChangeCurrency k a
  end.

(** The calls of the first revision as the second makes them; console
    messages have no counterpart. *)
Definition upgrade_calls (cs : list Legacy.call) : list call :=
  flat_map (fun c =>
    match c with
    | Legacy.console_error _ | Legacy.console_log _ => []
    | Legacy.setVariable key v => [setVariable key v]
    | Legacy.emit_currencyDefined key name isShared syncKey =>
        [emit_currencyDefined key name
           (if isShared then SYNC_TYPE_EVERYONE else SYNC_TYPE_NONE) syncKey]
    | Legacy.emit_walletReplaced oldWallet newWallet =>
        [emit_walletReplaced oldWallet newWallet]
    | Legacy.emit_currencyUpdated key oldAmount newAmount reason =>
        [emit_currencyUpdated key oldAmount newAmount reason]
    end) cs.

(** A world of the second revision that holds what a world of the first
    holds: the same wallet, and under each key the same currency, none with an
    empty sync key; the first revision's registry is a plain one, with
    [Object.prototype] behind it and no currency under [hasOwnProperty]. *)
Definition corresponds (lw : Legacy.World) (w : World) : Prop :=
  Legacy._wallet lw = _wallet w
  /\ Legacy.prototype (Legacy._currencies lw) = None
  /\ Legacy.shadowed (Legacy._currencies lw) = false
  /\ (forall k,
        JsMap.get k (currencies w)
        = option_map upgrade_currency
            (Legacy.own k (Legacy.records (Legacy._currencies lw))))
  /\ forall k c,
       Legacy.own k (Legacy.records (Legacy._currencies lw)) = Some c ->
       Legacy.syncKey c <> "".
(** * Examples *)

Example setCurrency_gold_100 :
  Player.setCurrency "gold" (VInt 100) (joined bank)
  = (Return true, mkWorld bank [("gold", VInt 100)],
     [setVariable "currency_gold" (VInt 100);
      emit_currencyUpdated "gold" (VInt 0) (VInt 100) "setCurrency"]).
Proof. reflexivity. Qed.

Example changeCurrency_gold_minus_30 :
  Player.changeCurrency "gold" (VInt (-30)) (mkWorld bank [("gold", VInt 100)])
  = (Return true, mkWorld bank [("gold", VInt 70)],
     [setVariable "currency_gold" (VInt 70);
      emit_currencyUpdated "gold" (VInt 100) (VInt 70) "changeCurrency"]).
Proof. reflexivity. Qed.

Example wallet_orders_indices_first :
  JsObject.keys
    (_wallet (serve_all [AddCurrency (VString "b") (VString "B") (VInt 0);
                         AddCurrency (VString "10") (VString "Ten") (VInt 0);
                         AddCurrency (VString "9") (VString "Nine") (VInt 0);
                         SetCurrency "b" (VInt 1);
                         SetCurrency "10" (VInt 2);
                         SetCurrency "9" (VInt 3)]
                (joined JsMap.empty)))
  = ["9"; "10"; "b"].
Proof. reflexivity. Qed.

(** * Facts about the containers *)

Section MapFacts.

Variable V : Type.
Implicit Types (m : JsMap.t V) (k : string) (v : V).

Lemma map_get_set_eq m k v : JsMap.get k (JsMap.set k v m) = Some v.
Proof.
  induction m as [|[k' v'] m IH]; simpl.
  - now rewrite String.eqb_refl.
  - destruct (String.eqb k k') eqn:E; simpl; rewrite E; auto.
Qed.

Lemma map_get_set_ne m k k' v :
  k <> k' -> JsMap.get k' (JsMap.set k v m) = JsMap.get k' m.
Proof.
  intros Hne. induction m as [|[k0 v0] m IH]; simpl.
  - destruct (String.eqb_spec k' k); congruence.
  - destruct (String.eqb_spec k k0) as [->|]; simpl.
    + destruct (String.eqb_spec k' k0); congruence.
    + now rewrite IH.
Qed.

Lemma map_get_in_keys m k : JsMap.get k m <> None <-> In k (JsMap.keys m).
Proof.
  induction m as [|[k' v'] m IH]; simpl.
  - tauto.
  - destruct (String.eqb_spec k k') as [->|Hne].
    + split; [auto | congruence].
    + rewrite IH. split; [auto | intros [?|?]; congruence].
Qed.

Lemma map_keys_set_absent m k v :
  JsMap.get k m = None -> JsMap.keys (JsMap.set k v m) = JsMap.keys m ++ [k].
Proof.
  induction m as [|[k' v'] m IH]; simpl; auto.
  destruct (String.eqb_spec k k'); [discriminate|].
  intros H. simpl. now rewrite (IH H).
Qed.

Lemma map_has_get m k : JsMap.has k m = true <-> exists v, JsMap.get k m = Some v.
Proof.
  unfold JsMap.has. destruct (JsMap.get k m); split; eauto; try discriminate.
  intros [? ?]; discriminate.
Qed.

End MapFacts.

Section ObjectFacts.

Implicit Types (o : JsObject.t) (k : string) (v : value).

Lemma obj_get_update o k k' v :
  JsObject.get k' (JsObject.update k v o)
  = if String.eqb k' k
    then match JsObject.get k o with Some _ => Some v | None => None end
    else JsObject.get k' o.
Proof.
  induction o as [|[k0 v0] o IH]; simpl.
  - now destruct (String.eqb k' k).
  - destruct (String.eqb_spec k k0) as [->|Hne]; simpl.
    + destruct (String.eqb_spec k' k0); auto.
    + rewrite IH. destruct (String.eqb_spec k' k0) as [->|];
        destruct (String.eqb_spec k0 k); auto; congruence.
Qed.

Lemma obj_get_insert_index o i k k' v :
  JsObject.get k o = None ->
  JsObject.get k' (JsObject.insert_index i k v o)
  = if String.eqb k' k then Some v else JsObject.get k' o.
Proof.
  induction o as [|[k0 v0] o IH]; simpl; auto.
  destruct (String.eqb_spec k k0) as [->|Hne]; [discriminate|]. intros Hk.
  destruct (JsObject.array_index k0) as [j|]; [destruct (j <? i)%N|]; simpl; auto.
  rewrite (IH Hk).
  destruct (String.eqb_spec k' k0) as [->|]; auto.
  destruct (String.eqb_spec k0 k); congruence.
Qed.

Lemma obj_get_app o k k' v :
  JsObject.get k o = None ->
  JsObject.get k' (o ++ [(k, v)])
  = if String.eqb k' k then Some v else JsObject.get k' o.
Proof.
  induction o as [|[k0 v0] o IH]; simpl; auto.
  destruct (String.eqb_spec k k0) as [->|Hne]; [discriminate|]. intros Hk.
  rewrite (IH Hk).
  destruct (String.eqb_spec k' k0) as [->|]; auto.
  destruct (String.eqb_spec k0 k); congruence.
Qed.

(** Reading back after [o[k] = v]. *)
Lemma obj_get_set o k k' v :
  JsObject.get k' (JsObject.set k v o)
  = if String.eqb k' k && stores k o then Some v else JsObject.get k' o.
Proof.
  unfold JsObject.set, stores, JsObject.hasOwnProperty.
  destruct (JsObject.get k o) eqn:E; cbn [orb negb andb].
  - rewrite obj_get_update, E, andb_true_r. reflexivity.
  - destruct (String.eqb_spec k "__proto__") as [->|Hk]; cbn [negb].
    + now rewrite andb_false_r.
    + rewrite andb_true_r. destruct (JsObject.array_index k).
      * now apply obj_get_insert_index.
      * now apply obj_get_app.
Qed.

Lemma obj_get_set_eq o k v :
  stores k o = true -> JsObject.get k (JsObject.set k v o) = Some v.
Proof. intros H. now rewrite obj_get_set, String.eqb_refl, H. Qed.

Lemma obj_get_set_ne o k k' v :
  k' <> k -> JsObject.get k' (JsObject.set k v o) = JsObject.get k' o.
Proof.
  intros H. rewrite obj_get_set. now destruct (String.eqb_spec k' k).
Qed.

(** An assignment that stores nothing leaves the object as it is. *)
Lemma obj_set_ignored o k v : stores k o = false -> JsObject.set k v o = o.
Proof.
  unfold stores, JsObject.set. intros H. apply orb_false_iff in H.
  destruct H as [-> H]. apply negb_false_iff in H. now rewrite H.
Qed.

Lemma obj_get_in_keys o k : JsObject.get k o <> None <-> In k (JsObject.keys o).
Proof.
  induction o as [|[k' v'] o IH]; simpl.
  - tauto.
  - destruct (String.eqb_spec k k') as [->|Hne].
    + split; [auto | congruence].
    + rewrite IH. split; [auto | intros [?|?]; congruence].
Qed.

Lemma obj_keys_update o k v : JsObject.keys (JsObject.update k v o) = JsObject.keys o.
Proof.
  induction o as [|[k0 v0] o IH]; simpl; auto.
  destruct (String.eqb k k0); simpl; congruence.
Qed.

Lemma obj_keys_insert_index o i k v :
  Permutation (JsObject.keys (JsObject.insert_index i k v o)) (k :: JsObject.keys o).
Proof.
  induction o as [|[k0 v0] o IH]; simpl; auto.
  destruct (JsObject.array_index k0) as [j|]; [destruct (j <? i)%N|]; simpl; auto.
  rewrite IH. apply perm_swap.
Qed.

Lemma obj_keys_set_absent o k v :
  JsObject.get k o = None -> k <> "__proto__" ->
  Permutation (JsObject.keys (JsObject.set k v o)) (k :: JsObject.keys o).
Proof.
  intros E Hk. unfold JsObject.set, JsObject.hasOwnProperty. rewrite E.
  destruct (String.eqb_spec k "__proto__"); [contradiction|].
  destruct (JsObject.array_index k).
  - apply obj_keys_insert_index.
  - unfold JsObject.keys. rewrite map_app. simpl.
    symmetry. apply Permutation_cons_append.
Qed.

(** An object never holds a name twice. *)
Lemma obj_keys_set_NoDup o k v :
  NoDup (JsObject.keys o) -> NoDup (JsObject.keys (JsObject.set k v o)).
Proof.
  intros Hnd. destruct (stores k o) eqn:Hs;
    [|now rewrite obj_set_ignored].
  destruct (JsObject.get k o) eqn:E.
  - unfold JsObject.set, JsObject.hasOwnProperty. rewrite E.
    now rewrite obj_keys_update.
  - assert (Hk : k <> "__proto__").
    { unfold stores, JsObject.hasOwnProperty in Hs. rewrite E in Hs.
      cbn in Hs. apply negb_true_iff in Hs. now apply String.eqb_neq. }
    eapply Permutation_NoDup.
    + symmetry. now apply obj_keys_set_absent.
    + constructor; auto. rewrite <- obj_get_in_keys. congruence.
Qed.

End ObjectFacts.

Section ObjectSetTwice.

Implicit Types (o : JsObject.t) (k : string) (v : value).

Lemma obj_update_update o k a b :
  JsObject.update k b (JsObject.update k a o) = JsObject.update k b o.
Proof.
  induction o as [|[k0 v0] o IH]; cbn; [reflexivity|].
  destruct (String.eqb k k0) eqn:E; cbn; rewrite E; [reflexivity|].
  now rewrite IH.
Qed.

Lemma obj_update_absent o k v : JsObject.get k o = None -> JsObject.update k v o = o.
Proof.
  induction o as [|[k0 v0] o IH]; cbn; [reflexivity|].
  destruct (String.eqb k k0); [discriminate|]. intros H. now rewrite IH.
Qed.

Lemma obj_update_insert_index o i k a b :
  JsObject.get k o = None ->
  JsObject.update k b (JsObject.insert_index i k a o) = JsObject.insert_index i k b o.
Proof.
  induction o as [|[k0 v0] o IH]; cbn.
  - now rewrite String.eqb_refl.
  - destruct (String.eqb k k0) eqn:E; [discriminate|]. intros Hk.
    destruct (JsObject.array_index k0) as [j|]; [destruct (j <? i)%N|]; cbn;
      rewrite ?E, ?String.eqb_refl; try reflexivity.
    now rewrite IH.
Qed.

Lemma obj_update_app o k a b :
  JsObject.get k o = None ->
  JsObject.update k b (o ++ [(k, a)]) = o ++ [(k, b)].
Proof.
  induction o as [|[k0 v0] o IH]; cbn.
  - now rewrite String.eqb_refl.
  - destruct (String.eqb k k0); [discriminate|]. intros Hk. now rewrite IH.
Qed.

(** Assigning twice to a property is assigning the last value. *)
Lemma obj_set_set o k a b :
  JsObject.set k b (JsObject.set k a o) = JsObject.set k b o.
Proof.
  destruct (stores k o) eqn:Hs; [|now rewrite (@obj_set_ignored o k a Hs)].
  unfold JsObject.set at 1. unfold JsObject.hasOwnProperty.
  rewrite obj_get_set_eq by exact Hs.
  unfold stores, JsObject.hasOwnProperty in Hs.
  unfold JsObject.set, JsObject.hasOwnProperty.
  destruct (JsObject.get k o) eqn:E.
  - apply obj_update_update.
  - cbn in Hs. destruct (String.eqb k "__proto__"); [discriminate|].
    destruct (JsObject.array_index k).
    + now apply obj_update_insert_index.
    + now apply obj_update_app.
Qed.

Lemma obj_has_set o k v :
  stores k o = true -> JsObject.hasOwnProperty k (JsObject.set k v o) = true.
Proof. intros Hs. unfold JsObject.hasOwnProperty. now rewrite obj_get_set_eq. Qed.

End ObjectSetTwice.

(** * How each method runs *)

#[local] Arguments Player.switch_syncType : simpl never.
#[local] Arguments JsObject.set : simpl never.
#[local] Arguments JsObject.hasOwnProperty : simpl never.
#[local] Arguments JsObject.prop : simpl never.
#[local] Arguments replication_of : simpl never.
#[local] Arguments js_add : simpl never.

Section Runs.

Implicit Types (w : World) (k : string) (c : Currency) (v : value).

Lemma switch_syncType_run c v w :
  Player.switch_syncType (Some c) v w = (Return tt, w, replication_of c v).
Proof.
  unfold Player.switch_syncType, replication_of.
  destruct (syncType c =? SYNC_TYPE_EVERYONE); [reflexivity|].
  destruct (syncType c =? SYNC_TYPE_PLAYER); reflexivity.
Qed.

Lemma wallet_hasOwnProperty_run k w :
  Player.wallet_hasOwnProperty k w
  = if shadowed (_wallet w) then (Throw not_a_function, w, [])
    else (Return (JsObject.hasOwnProperty k (_wallet w)), w, []).
Proof.
  unfold Player.wallet_hasOwnProperty, bind, read, shadowed,
    JsObject.call_hasOwnProperty, JsObject.hasOwnProperty.
  destruct (JsObject.get "hasOwnProperty" (_wallet w)); reflexivity.
Qed.

(** [getCurrency] fails on a shadowed wallet and reads the balance off any
    other. *)
Lemma getCurrency_run k w :
  Player.getCurrency k w
  = if shadowed (_wallet w) then (Throw not_a_function, w, [])
    else (Return (balance k (_wallet w)), w, []).
Proof.
  unfold Player.getCurrency, bind. rewrite wallet_hasOwnProperty_run.
  destruct (shadowed (_wallet w)); [reflexivity|]. unfold balance.
  destruct (JsObject.hasOwnProperty k (_wallet w)); reflexivity.
Qed.

Lemma setCurrency_run k v w :
  Player.setCurrency k v w
  = match JsMap.get k (currencies w), v with
    | Some c, VInt z =>
        if shadowed (_wallet w) then (Throw not_a_function, w, [])
        else
          (Return true,
           mkWorld (currencies w) (JsObject.set k (VInt z) (_wallet w)),
           replication_of c (VInt z)
           ++ [emit_currencyUpdated k (balance k (_wallet w)) (VInt z) "setCurrency"])
    | _, _ => (Return false, w, [])
    end.
Proof.
  unfold Player.setCurrency, bind at 1, CurrencyScript.getCurrency, read at 1.
  destruct (JsMap.get k (currencies w)) as [c|]; [|reflexivity].
  destruct v; try reflexivity.
  cbn [Player.is_null Number_isInteger negb orb].
  unfold bind at 1. rewrite getCurrency_run.
  destruct (shadowed (_wallet w)); [reflexivity|].
  cbn. unfold bind. rewrite switch_syncType_run. reflexivity.
Qed.

Lemma changeCurrency_run k v w :
  Player.changeCurrency k v w
  = match JsMap.get k (currencies w), v with
    | Some c, VInt z =>
        if shadowed (_wallet w) then (Throw not_a_function, w, [])
        else
          let wallet' :=
            if JsObject.hasOwnProperty k (_wallet w)
            then JsObject.set k (js_add (JsObject.prop k (_wallet w)) (VInt z))
                   (_wallet w)
            else JsObject.set k (VInt z) (_wallet w) in
          (Return true,
           mkWorld (currencies w) wallet',
           replication_of c (JsObject.prop k wallet')
           ++ [emit_currencyUpdated k (balance k (_wallet w)) (JsObject.prop k wallet')
                 "changeCurrency"])
    | _, _ => (Return false, w, [])
    end.
Proof.
  unfold Player.changeCurrency, bind at 1, CurrencyScript.getCurrency, read at 1.
  destruct (JsMap.get k (currencies w)) as [c|]; [|reflexivity].
  destruct v; try reflexivity.
  cbn [Player.is_null Number_isInteger negb orb].
  unfold bind at 1. rewrite getCurrency_run.
  destruct (shadowed (_wallet w)) eqn:Hs; [reflexivity|].
  unfold bind at 1. rewrite wallet_hasOwnProperty_run, Hs.
  destruct (JsObject.hasOwnProperty k (_wallet w)); cbn; unfold bind;
    rewrite switch_syncType_run; reflexivity.
Qed.

Lemma skip_invalid_run newWallet todo : forall replacement w,
  Player.skip_invalid newWallet todo replacement w
  = (Return (kept (currencies w) newWallet todo replacement), w, []).
Proof.
  induction todo as [|key todo IH]; intros replacement w; [reflexivity|].
  cbn [Player.skip_invalid kept].
  unfold bind, CurrencyScript.hasCurrency, read.
  destruct (negb (JsMap.has key (currencies w))
            || negb (Number_isInteger (JsObject.prop key newWallet)))%bool;
    now rewrite IH.
Qed.

Lemma sync_body_run (o : JsObject.t) key c w :
  JsMap.get key (currencies w) = Some c ->
  (currency <- CurrencyScript.getCurrency key ;;
   Player.switch_syncType currency (JsObject.prop key o)) w
  = (Return tt, w, replication_of c (JsObject.prop key o)).
Proof.
  intros Hc. unfold bind, CurrencyScript.getCurrency, read. rewrite Hc.
  rewrite switch_syncType_run. now rewrite app_nil_l.
Qed.

Lemma sync_loop_run (o : JsObject.t) (names : list string) w :
  (forall key, In key names -> JsMap.has key (currencies w) = true) ->
  for_each names (fun key =>
    currency <- CurrencyScript.getCurrency key ;;
    Player.switch_syncType currency (JsObject.prop key o)) w
  = (Return tt, w, replication_of_wallet (currencies w) o names).
Proof.
  induction names as [|key names IH]; intros Hreg; [reflexivity|].
  assert (Hk : JsMap.has key (currencies w) = true) by (apply Hreg; now left).
  apply map_has_get in Hk. destruct Hk as [c Hc].
  cbn [for_each]. unfold bind at 1. rewrite sync_body_run with (c := c) by exact Hc.
  rewrite IH by (intros; apply Hreg; now right).
  cbn [replication_of_wallet flat_map]. now rewrite Hc.
Qed.

Lemma stores_set (o : JsObject.t) k k' v :
  stores k' (JsObject.set k v o) = stores k' o.
Proof.
  unfold stores, JsObject.hasOwnProperty. rewrite obj_get_set.
  destruct (String.eqb_spec k' k) as [->|Hne]; cbn [andb]; [|reflexivity].
  destruct (stores k o) eqn:Hs; [|reflexivity].
  unfold stores, JsObject.hasOwnProperty in Hs.
  destruct (JsObject.get k o); [reflexivity|]. cbn in *. now rewrite Hs.
Qed.

(** What the first loop of [setWallet] leaves under each name. *)
Lemma kept_get reg newWallet todo : forall replacement k,
  JsObject.get k (kept reg newWallet todo replacement)
  = if existsb (String.eqb k) todo && JsMap.has k reg
       && Number_isInteger (JsObject.prop k newWallet) && stores k replacement
    then Some (JsObject.prop k newWallet)
    else JsObject.get k replacement.
Proof.
  induction todo as [|key todo IH]; intros replacement k; [reflexivity|].
  cbn [kept existsb].
  destruct (JsMap.has key reg) eqn:Hh;
    destruct (Number_isInteger (JsObject.prop key newWallet)) eqn:Hi;
    cbn [negb orb andb]; rewrite IH, ?stores_set, ?obj_get_set;
    destruct (String.eqb_spec k key) as [->|Hne];
    rewrite ?Hh, ?Hi; cbn [negb orb andb];
    rewrite ?andb_false_r, ?andb_true_r; try reflexivity.
  destruct (stores key replacement); [|now rewrite andb_false_r].
  now destruct (existsb (String.eqb key) todo).
Qed.

Lemma kept_NoDup reg newWallet todo : forall replacement,
  NoDup (JsObject.keys replacement) ->
  NoDup (JsObject.keys (kept reg newWallet todo replacement)).
Proof.
  induction todo as [|key todo IH]; intros replacement Hnd; [assumption|].
  cbn [kept].
  destruct (negb (JsMap.has key reg)
            || negb (Number_isInteger (JsObject.prop key newWallet)))%bool;
    apply IH; auto using obj_keys_set_NoDup.
Qed.

Lemma kept_registered reg newWallet k :
  In k (JsObject.keys (kept reg newWallet (JsObject.keys newWallet) JsObject.empty)) ->
  JsMap.has k reg = true.
Proof.
  rewrite <- obj_get_in_keys, kept_get.
  destruct (JsMap.has k reg); [reflexivity|].
  rewrite andb_false_r. simpl. congruence.
Qed.

Lemma setWallet_run props w :
  Player.setWallet (VObject props) w
  = let replacement := kept (currencies w) props (JsObject.keys props) JsObject.empty in
    (Return true,
     mkWorld (currencies w) replacement,
     replication_of_wallet (currencies w) replacement (JsObject.keys replacement)
     ++ [emit_walletReplaced (_wallet w) replacement]).
Proof.
  unfold Player.setWallet.
  cbn [Object_prototype_toString Player.props_of]. rewrite String.eqb_refl.
  cbn [negb]. unfold bind at 1. cbn [read].
  unfold bind at 1. rewrite skip_invalid_run.
  unfold bind at 1. cbn [write_wallet].
  unfold bind at 1. rewrite sync_loop_run.
  - reflexivity.
  - intros key. cbn [currencies]. apply kept_registered.
Qed.

Lemma setWallet_not_object v w :
  Object_prototype_toString v <> "[object Object]" ->
  Player.setWallet v w = (Return false, w, []).
Proof. destruct v; try reflexivity. intros H. now elim H. Qed.

Lemma nonempty_string_check v :
  negb (String.eqb (typeof v) "string") || (js_length v <? 1)
  = negb (nonempty_string v).
Proof.
  destruct v; try reflexivity.
  destruct s as [|a s]; [reflexivity|].
  unfold js_length. cbn [typeof string_of nonempty_string String.length].
  destruct (Z.ltb_spec (Z.of_nat (S (String.length s))) 1); [lia|reflexivity].
Qed.

Lemma recognized_syncType_check z :
  (int_of (VInt z) <? SYNC_TYPE_NONE) || (int_of (VInt z) >? SYNC_TYPE_PLAYER)
  = negb (recognized_syncType (VInt z)).
Proof.
  unfold recognized_syncType, SYNC_TYPE_NONE, SYNC_TYPE_PLAYER, int_of.
  destruct (Z.ltb_spec z 0), (Z.leb_spec 0 z), (Z.leb_spec z 2); try lia;
    rewrite Z.gtb_ltb; destruct (Z.ltb_spec 2 z); try lia; reflexivity.
Qed.

Lemma addCurrency_run key name st w :
  CurrencyScript.addCurrency key name st w
  = if negb (nonempty_string key) then
      (Throw "key is not a string/is an empty string", w, [])
    else if negb (nonempty_string name) then
      (Throw "name is not a string/is an empty string", w, [])
    else if negb (Number_isInteger st) then
      (Throw "syncType is not an integer", w, [])
    else if JsMap.has (string_of key) (currencies w) then
      (Throw "a currency with the specified key already exists", w, [])
    else if negb (recognized_syncType st) then
      (Throw "invalid syncType value", w, [])
    else
      let c := mkCurrency (string_of name) (int_of st)
                 ("currency_" ++ string_of key)%string in
      (Return c,
       mkWorld (JsMap.set (string_of key) c (currencies w)) (_wallet w),
       [emit_currencyDefined (string_of key) (string_of name) (int_of st)
          ("currency_" ++ string_of key)%string]).
Proof.
  unfold CurrencyScript.addCurrency. rewrite !nonempty_string_check.
  destruct (negb (nonempty_string key)); [reflexivity|].
  destruct (negb (nonempty_string name)); [reflexivity|].
  destruct st; try reflexivity. cbn [Number_isInteger negb].
  unfold bind at 1. cbn [read].
  destruct (JsMap.has (string_of key) (currencies w)); [reflexivity|].
  rewrite recognized_syncType_check.
  destruct (negb (recognized_syncType (VInt z))); reflexivity.
Qed.

End Runs.

(** * The wallet invariant *)

Section Invariant.

Implicit Types (w : World) (k : string) (r : request).

Lemma obj_prop_get (o : JsObject.t) k v :
  JsObject.get k o = Some v -> JsObject.prop k o = v.
Proof. unfold JsObject.prop. now intros ->. Qed.

Lemma obj_has_get (o : JsObject.t) k :
  JsObject.hasOwnProperty k o = true <-> exists v, JsObject.get k o = Some v.
Proof.
  unfold JsObject.hasOwnProperty. destruct (JsObject.get k o); split; eauto;
    try discriminate. intros [? ?]; discriminate.
Qed.

(** The registry only grows: the script has no way to remove a currency. *)
Lemma serve_keeps_currency r w k c :
  JsMap.get k (currencies w) = Some c ->
  JsMap.get k (currencies (serve r w)) = Some c.
Proof.
  intros Hk. destruct r as [key nm st| |v|k0 a|k0 a]; cbn [serve].
  - rewrite addCurrency_run.
    destruct (negb (nonempty_string key)); [exact Hk|].
    destruct (negb (nonempty_string nm)); [exact Hk|].
    destruct (negb (Number_isInteger st)); [exact Hk|].
    destruct (JsMap.has (string_of key) (currencies w)) eqn:Hh; [exact Hk|].
    destruct (negb (recognized_syncType st)); [exact Hk|].
    cbn. rewrite map_get_set_ne; [exact Hk|].
    intros E. unfold JsMap.has in Hh. now rewrite E, Hk in Hh.
  - exact Hk.
  - destruct v; try exact Hk. rewrite setWallet_run. exact Hk.
  - rewrite setCurrency_run.
    destruct (JsMap.get k0 (currencies w)); [destruct a|]; try exact Hk.
    destruct (shadowed (_wallet w)); exact Hk.
  - rewrite changeCurrency_run.
    destruct (JsMap.get k0 (currencies w)); [destruct a|]; try exact Hk.
    destruct (shadowed (_wallet w)); exact Hk.
Qed.

Lemma serve_keeps_registered r w k :
  JsMap.has k (currencies w) = true -> JsMap.has k (currencies (serve r w)) = true.
Proof.
  rewrite !map_has_get. intros [c Hc]. exists c. now apply serve_keeps_currency.
Qed.

Lemma wallet_ok_joined reg : wallet_ok (joined reg).
Proof. intros k v. discriminate. Qed.

Lemma stores_not_proto (o : JsObject.t) k :
  JsObject.get "__proto__" o = None -> stores k o = true -> k <> "__proto__".
Proof.
  intros Hp Hs ->. unfold stores, JsObject.hasOwnProperty in Hs.
  rewrite Hp in Hs. discriminate.
Qed.

Lemma wallet_ok_no_proto w : wallet_ok w -> JsObject.get "__proto__" (_wallet w) = None.
Proof.
  intros Hok. destruct (JsObject.get "__proto__" (_wallet w)) as [v|] eqn:E;
    [|reflexivity].
  destruct (Hok _ _ E) as (_ & Hne & _). now elim Hne.
Qed.

(** The sum the wallet takes is a Number. *)
Lemma js_add_number v z :
  (exists b, v = VInt b) \/ (exists negative, v = VInfinity negative) ->
  (exists s, js_add v (VInt z) = VInt s)
  \/ (exists negative, js_add v (VInt z) = VInfinity negative).
Proof.
  intros [[b ->]|[negative ->]]; [|right; now exists negative].
  unfold js_add, double_sum. destruct (round_to_double (b + z)); eauto.
Qed.

Lemma wallet_ok_serve r w : wallet_ok w -> wallet_ok (serve r w).
Proof.
  intros Hok. pose proof (wallet_ok_no_proto Hok) as Hproto.
  destruct r as [key nm st| |v|k0 a|k0 a].
  - intros k v Hk.
    assert (Hw : _wallet (serve (AddCurrency key nm st) w) = _wallet w).
    { cbn [serve]. rewrite addCurrency_run.
      repeat match goal with |- context [if ?b then _ else _] => destruct b end;
        reflexivity. }
    rewrite Hw in Hk. destruct (Hok k v Hk) as (Hreg & Hne & Hnum).
    repeat split; [now apply serve_keeps_registered | exact Hne | exact Hnum].
  - intros k v. discriminate.
  - destruct v; try exact Hok.
    intros k v. cbn [serve]. rewrite setWallet_run. cbn.
    rewrite kept_get.
    destruct (JsMap.has k (currencies w)); [|now rewrite !andb_false_r].
    destruct (stores k JsObject.empty) eqn:Hs; [|now rewrite !andb_false_r].
    destruct (JsObject.prop k props);
      rewrite ?andb_false_r; try discriminate.
    destruct (existsb (String.eqb k) (JsObject.keys props)); [|discriminate].
    intros [= <-]. repeat split; eauto.
    now apply (@stores_not_proto JsObject.empty).
  - cbn [serve]. rewrite setCurrency_run.
    destruct (JsMap.get k0 (currencies w)) as [c|] eqn:Hc; [|exact Hok].
    destruct a; try exact Hok.
    destruct (shadowed (_wallet w)); [exact Hok|].
    intros k v. cbn. rewrite obj_get_set.
    destruct (String.eqb_spec k k0) as [->|Hne]; [|apply Hok].
    destruct (stores k0 (_wallet w)) eqn:Hs; [|apply Hok].
    intros [= <-]. repeat split; eauto.
    + apply map_has_get. eauto.
    + now apply (@stores_not_proto (_wallet w)).
  - cbn [serve]. rewrite changeCurrency_run.
    destruct (JsMap.get k0 (currencies w)) as [c|] eqn:Hc; [|exact Hok].
    destruct a; try exact Hok.
    destruct (shadowed (_wallet w)); [exact Hok|].
    intros k v. cbn [world_after fst snd _wallet currencies].
    destruct (JsObject.hasOwnProperty k0 (_wallet w)) eqn:Hown;
      rewrite obj_get_set;
      (destruct (String.eqb_spec k k0) as [->|Hne]; [|apply Hok]);
      (destruct (stores k0 (_wallet w)) eqn:Hs; [|apply Hok]);
      intros [= <-];
      (split; [apply map_has_get; eauto|]);
      (split; [now apply (@stores_not_proto (_wallet w))|]).
    + apply obj_has_get in Hown. destruct Hown as [b Hb].
      destruct (Hok k0 b Hb) as (_ & _ & Hnum).
      rewrite (obj_prop_get _ _ Hb). now apply js_add_number.
    + eauto.
Qed.

Lemma wallet_ok_serve_all rs : forall w, wallet_ok w -> wallet_ok (serve_all rs w).
Proof.
  induction rs as [|r rs IH]; intros w Hok; [exact Hok|].
  cbn. apply IH. now apply wallet_ok_serve.
Qed.

End Invariant.
(** * The registry *)

Lemma addCurrency_known_key_throws w k nm st :
  JsMap.has k (currencies w) = true ->
  exists message,
    CurrencyScript.addCurrency (VString k) nm st w = (Throw message, w, []).
Proof.
  intros Hk. rewrite addCurrency_run. cbn [string_of]. rewrite Hk.
  repeat match goal with |- context [if ?b then _ else _] => destruct b end;
    eauto.
Qed.

(** C7.  [addCurrency] with a key that is already registered throws and leaves
    the world as it was, without emitting anything; after two calls with the
    key [gold] the registry lists [gold] once, under its first definition. *)
Theorem addCurrency_rejects_known_key w k nm st :
  JsMap.has k (currencies w) = true ->
  (exists message,
     CurrencyScript.addCurrency (VString k) nm st w = (Throw message, w, []))
  /\ (let first :=
        CurrencyScript.addCurrency (VString "gold") (VString "Gold")
          (VInt SYNC_TYPE_EVERYONE) (joined JsMap.empty) in
      let second :=
        CurrencyScript.addCurrency (VString "gold") nm st (world_after first) in
      result first = Return gold
      /\ (exists message, result second = Throw message)
      /\ calls second = []
      /\ CurrencyScript.getAllCurrencies (world_after second)
         = (Return ["gold"], world_after first, [])
      /\ CurrencyScript.getCurrency "gold" (world_after second)
         = (Return (Some gold), world_after first, [])).
Proof.
  intros Hk. split; [now apply addCurrency_known_key_throws|].
  cbv zeta.
  destruct (@addCurrency_known_key_throws
              (world_after (CurrencyScript.addCurrency (VString "gold")
                 (VString "Gold") (VInt SYNC_TYPE_EVERYONE) (joined JsMap.empty)))
              "gold" nm st eq_refl) as [message E].
  rewrite E. repeat split. now exists message.
Qed.

Lemma addCurrency_rejects_known_key_witness :
  exists message,
    CurrencyScript.addCurrency (VString "cash") (VString "Money") (VInt 0) (joined bank)
    = (Throw message, joined bank, []).
Proof.
  exact (proj1 (@addCurrency_rejects_known_key (joined bank) "cash"
                  (VString "Money") (VInt 0) eq_refl)).
Defined.

(** C3, as stated, fails: for a key that is already registered and a sync type
    outside the three known ones the script reports the duplicate key, not an
    invalid argument. *)
Lemma addCurrency_known_key_unknown_syncType :
  result (CurrencyScript.addCurrency (VString "gold") (VString "Gold") (VInt 5)
            (joined bank))
  = Throw "a currency with the specified key already exists"
  /\ ~ (recognized_syncType (VInt 5) = false ->
        exists message,
          result (CurrencyScript.addCurrency (VString "gold") (VString "Gold")
                    (VInt 5) (joined bank)) = Throw message
          /\ is_InvalidArgument message = true).
Proof.
  split; [reflexivity|].
  intros H. destruct (H eq_refl) as [message [E I]].
  cbv in E. injection E as <-. discriminate.
Qed.

(** C3, amended.  [addCurrency] throws an invalid-argument error exactly when
    the key or the name is not a non-empty string, the sync type is not an
    integer, or the key is new and the sync type is outside 0..2; it throws the
    already-exists error exactly when key and name are non-empty strings, the
    sync type is an integer and the key is registered.  A throw changes
    nothing and emits nothing.  Otherwise it returns the record it stored
    under the key, whose sync key is [currency_] followed by the key, and
    emits one [currencyDefined] with key, name, sync type and sync key. *)
Theorem addCurrency_outcome w key nm st :
  let r := CurrencyScript.addCurrency key nm st w in
  let k := string_of key in
  ((exists message, result r = Throw message /\ is_InvalidArgument message = true)
   <-> nonempty_string key = false \/ nonempty_string nm = false
       \/ Number_isInteger st = false
       \/ (JsMap.has k (currencies w) = false /\ recognized_syncType st = false))
  /\ ((exists message, result r = Throw message /\ is_AlreadyExists message = true)
      <-> nonempty_string key = true /\ nonempty_string nm = true
          /\ Number_isInteger st = true /\ JsMap.has k (currencies w) = true)
  /\ (forall message, result r = Throw message -> world_after r = w /\ calls r = [])
  /\ ((exists c, result r = Return c)
      <-> nonempty_string key = true /\ nonempty_string nm = true
          /\ recognized_syncType st = true /\ JsMap.has k (currencies w) = false)
  /\ (forall c, result r = Return c ->
        c = mkCurrency (string_of nm) (int_of st) ("currency_" ++ k)%string
        /\ JsMap.get k (currencies (world_after r)) = Some c
        /\ _wallet (world_after r) = _wallet w
        /\ calls r = [emit_currencyDefined k (string_of nm) (syncType c) (syncKey c)]).
Proof.
  cbv zeta. rewrite addCurrency_run.
  assert (Hrec : recognized_syncType st = true -> Number_isInteger st = true)
    by (destruct st; auto; discriminate).
  destruct (nonempty_string key) eqn:Hkey;
    [destruct (nonempty_string nm) eqn:Hnm;
     [destruct (Number_isInteger st) eqn:Hint;
      [destruct (JsMap.has (string_of key) (currencies w)) eqn:Hhas;
       [|destruct (recognized_syncType st) eqn:Hst]|]|]|];
    cbn [negb result world_after calls fst snd];
    repeat match goal with
      | |- _ /\ _ => split
      | |- _ <-> _ => split
      | |- forall _, _ => intro
      | H : exists _, _ |- _ => destruct H
      | H : _ /\ _ |- _ => destruct H
      | H : _ \/ _ |- _ => destruct H
      | H : Throw _ = Throw _ |- _ => injection H as <-
      | H : Return _ = Return _ |- _ => injection H as <-
      | H : Throw _ = Return _ |- _ => discriminate H
      | H : Return _ = Throw _ |- _ => discriminate H
      | H : is_InvalidArgument _ = true |- _ => cbv in H
      | H : is_AlreadyExists _ = true |- _ => cbv in H
      | H : ?P -> _, H' : ?P |- _ => specialize (H H')
      end;
    try congruence; auto;
    try (eexists; split; reflexivity); try (eexists; reflexivity).
  cbn. apply map_get_set_eq.
Qed.

(** * The wallet *)

Lemma obj_get_existsb (o : JsObject.t) k v :
  JsObject.get k o = Some v -> existsb (String.eqb k) (JsObject.keys o) = true.
Proof.
  induction o as [|[k0 v0] o IH]; cbn; [discriminate|].
  destruct (String.eqb k k0); auto.
Qed.

Lemma replication_of_is_replication c v :
  Forall (fun x => is_replication x = true) (replication_of c v).
Proof.
  unfold replication_of.
  destruct (syncType c =? SYNC_TYPE_EVERYONE); [repeat constructor|].
  destruct (syncType c =? SYNC_TYPE_PLAYER); repeat constructor.
Qed.

Lemma filter_all (A : Type) (f : A -> bool) (l : list A) :
  Forall (fun x => f x = true) l -> filter f l = l.
Proof.
  induction 1 as [|x l Hx _ IH]; cbn; [reflexivity|]. now rewrite Hx, IH.
Qed.

Lemma filter_none (A : Type) (f : A -> bool) (l : list A) :
  Forall (fun x => f x = false) l -> filter f l = [].
Proof.
  induction 1 as [|x l Hx _ IH]; cbn; [reflexivity|]. now rewrite Hx.
Qed.

Lemma replication_of_not_currencyUpdated c v :
  Forall (fun x => is_currencyUpdated x = false) (replication_of c v).
Proof.
  unfold replication_of.
  destruct (syncType c =? SYNC_TYPE_EVERYONE); [repeat constructor|].
  destruct (syncType c =? SYNC_TYPE_PLAYER); repeat constructor.
Qed.

Lemma replication_of_emits_no_update c v key old new reason :
  ~ In (emit_currencyUpdated key old new reason) (replication_of c v).
Proof.
  intros Hin. pose proof (replication_of_not_currencyUpdated c v) as Hf.
  rewrite Forall_forall in Hf. apply Hf in Hin. discriminate Hin.
Qed.

Lemma balance_set (o : JsObject.t) k v :
  stores k o = true -> balance k (JsObject.set k v o) = v.
Proof.
  intros Hs. unfold balance, JsObject.hasOwnProperty, JsObject.prop.
  now rewrite obj_get_set_eq.
Qed.

Lemma prop_set (o : JsObject.t) k v :
  stores k o = true -> JsObject.prop k (JsObject.set k v o) = v.
Proof. intros Hs. unfold JsObject.prop. now rewrite obj_get_set_eq. Qed.

Lemma stores_other (o : JsObject.t) k : k <> "__proto__" -> stores k o = true.
Proof.
  intros Hk. unfold stores. destruct (String.eqb_spec k "__proto__");
    [contradiction|]. apply orb_true_r.
Qed.

Lemma shadowed_set (o : JsObject.t) k v :
  k <> "hasOwnProperty" -> shadowed (JsObject.set k v o) = shadowed o.
Proof.
  intros Hk. unfold shadowed, JsObject.hasOwnProperty.
  rewrite obj_get_set_ne by congruence. reflexivity.
Qed.

(** C9.  [setWallet] on anything but a plain object returns [false], leaves
    the world as it was and makes no call; on a plain object it returns [true],
    also when it drops entries. *)
Theorem setWallet_checks_only_the_shape w v :
  (Object_prototype_toString v <> "[object Object]" ->
   Player.setWallet v w = (Return false, w, []))
  /\ (Object_prototype_toString v = "[object Object]" ->
      result (Player.setWallet v w) = Return true)
  /\ (let r := Player.setWallet
                 (VObject [("gold", VInt 5); ("unknown_currency", VInt 9);
                           ("gold2", VString "not_a_number")])
                 (joined [("gold", gold)]) in
      result r = Return true /\ _wallet (world_after r) = [("gold", VInt 5)]).
Proof.
  split; [apply setWallet_not_object|]. split; [|split; reflexivity].
  destruct v; try discriminate. intros _. now rewrite setWallet_run.
Qed.

Lemma setWallet_checks_only_the_shape_witness :
  Player.setWallet (VArray [VInt 1]) (mkWorld bank [("gold", VInt 1)])
  = (Return false, mkWorld bank [("gold", VInt 1)], []).
Proof.
  apply (proj1 (@setWallet_checks_only_the_shape (mkWorld bank [("gold", VInt 1)])
                  (VArray [VInt 1]))).
  discriminate.
Defined.

(** C5, as stated, fails: [setCurrency] succeeds on a registered currency
    without emitting any [currencyUpdated] whose reason is [set]. *)
Lemma setCurrency_reason_is_not_set :
  result (Player.setCurrency "gold" (VInt 100) (joined bank)) = Return true
  /\ ~ (exists k old new,
          In (emit_currencyUpdated k old new "set")
             (calls (Player.setCurrency "gold" (VInt 100) (joined bank)))).
Proof.
  split; [reflexivity|].
  intros (k & old & new & [H|[H|[]]]); discriminate H.
Qed.

(** C5, amended.  A [setCurrency] that returns [true] emits exactly one
    [currencyUpdated], with the key, the amount it found, the amount passed
    and the reason [setCurrency]; a [changeCurrency] that returns [true] emits
    exactly one, with the key, the amount it found, the amount it reads back
    from the wallet and the reason [changeCurrency]; whatever either emits,
    the reason is one of these two strings. *)
Theorem currencyUpdated_reason w k a :
  let set_run := Player.setCurrency k a w in
  let change_run := Player.changeCurrency k a w in
  (result set_run = Return true ->
   filter is_currencyUpdated (calls set_run)
   = [emit_currencyUpdated k (balance k (_wallet w)) a "setCurrency"])
  /\ (result change_run = Return true ->
      filter is_currencyUpdated (calls change_run)
      = [emit_currencyUpdated k (balance k (_wallet w))
           (JsObject.prop k (_wallet (world_after change_run))) "changeCurrency"])
  /\ (forall key old new reason,
        In (emit_currencyUpdated key old new reason)
           (calls set_run ++ calls change_run) ->
        reason = "setCurrency" \/ reason = "changeCurrency").
Proof.
  cbv zeta. rewrite setCurrency_run, changeCurrency_run.
  destruct (JsMap.get k (currencies w)) as [c|]; [destruct a|];
    try (destruct (shadowed (_wallet w)));
    cbn [result world_after calls fst snd _wallet];
    repeat split; try discriminate; try (intros ? ? ? ? []).
  - intros _. rewrite filter_app, filter_none by apply replication_of_not_currencyUpdated.
    reflexivity.
  - intros _. rewrite filter_app, filter_none by apply replication_of_not_currencyUpdated.
    reflexivity.
  - intros key old new reason Hin.
    rewrite !in_app_iff in Hin.
    destruct Hin as [[Hin|Hin]|[Hin|Hin]];
      try (now apply replication_of_emits_no_update in Hin);
      cbn in Hin; destruct Hin as [Hin|[]]; inversion Hin; auto.
Qed.

Lemma currencyUpdated_reason_witness :
  filter is_currencyUpdated (calls (Player.setCurrency "gold" (VInt 100) (joined bank)))
  = [emit_currencyUpdated "gold" (balance "gold" (_wallet (joined bank))) (VInt 100)
       "setCurrency"].
Proof.
  exact (proj1 (@currencyUpdated_reason (joined bank) "gold" (VInt 100)) eq_refl).
Defined.



(** * Where the script departs from its specification *)

(** C1, at a failing input.  With [__proto__] registered as a currency shared
    with everyone, [changeCurrency] of it by 5 returns [true], replicates
    [Object.prototype] under the sync key and announces it as the new amount,
    while the wallet holds nothing and the balance is 0 as before. *)
Theorem changeCurrency_replicates_the_prototype :
  let w := serve_all [AddCurrency (VString "__proto__") (VString "Proto")
                        (VInt SYNC_TYPE_EVERYONE)] (joined JsMap.empty) in
  Player.changeCurrency "__proto__" (VInt 5) w
  = (Return true, w,
     [setVariable "currency___proto__" JsObject.Object_prototype;
      emit_currencyUpdated "__proto__" (VInt 0) JsObject.Object_prototype
        "changeCurrency"])
  /\ Player.getCurrency "__proto__" w = (Return (VInt 0), w, [])
  /\ Number_isInteger JsObject.Object_prototype = false.
Proof. cbv zeta. repeat split. Qed.

(** C2, at a failing input.  [Number.MAX_VALUE] is an integer, the script
    accepts it as an amount, and two [changeCurrency] by it leave in the
    wallet an infinity, which is not an integer. *)
Theorem changeCurrency_stores_an_infinity :
  let rs := [ChangeCurrency "gold" (VInt Number_MAX_VALUE);
             ChangeCurrency "gold" (VInt Number_MAX_VALUE)] in
  round_to_double Number_MAX_VALUE = Some Number_MAX_VALUE
  /\ result (Player.changeCurrency "gold" (VInt Number_MAX_VALUE) (joined bank))
     = Return true
  /\ _wallet (serve_all rs (joined bank)) = [("gold", VInfinity false)]
  /\ Number_isInteger (VInfinity false) = false.
Proof. cbv zeta. repeat split; vm_compute; reflexivity. Qed.

(** C4, at a failing input.  With [__proto__] registered, [setWallet] of an
    object that holds the integer 5 under [__proto__] returns [true] and
    leaves an empty wallet: the entry is lost. *)
Theorem setWallet_loses_proto :
  let w := serve_all [AddCurrency (VString "__proto__") (VString "Proto")
                        (VInt SYNC_TYPE_NONE)] (joined JsMap.empty) in
  let newWallet := [("__proto__", VInt 5)] in
  JsMap.has "__proto__" (currencies w) = true
  /\ JsObject.get "__proto__" newWallet = Some (VInt 5)
  /\ Player.setWallet (VObject newWallet) w
     = (Return true, w, [emit_walletReplaced [] []])
  /\ JsObject.get "__proto__" (_wallet w) = None.
Proof. cbv zeta. repeat split. Qed.

(** C8, at a failing input.  Once [hasOwnProperty] is a currency and the
    wallet holds it, [getCurrency] throws for every key, registered or
    not. *)
Theorem getCurrency_throws_on_shadowed_wallet :
  let w := serve_all [AddCurrency (VString "hasOwnProperty") (VString "H")
                        (VInt SYNC_TYPE_NONE);
                      SetCurrency "hasOwnProperty" (VInt 5)]
             (joined JsMap.empty) in
  JsMap.has "silver" (currencies w) = false
  /\ _wallet w = [("hasOwnProperty", VInt 5)]
  /\ forall k, Player.getCurrency k w = (Throw not_a_function, w, []).
Proof. cbv zeta. repeat split. Qed.

(** C6, at a failing input.  Two changes by [Number.MAX_VALUE] of a
    registered currency the wallet does not hold leave an infinity as its
    balance, while [setCurrency] with their sum, an infinity, is refused and
    leaves the balance 0. *)
Theorem two_changes_overflow :
  let w := joined bank in
  let d := Number_MAX_VALUE in
  let w2 :=
    world_after (Player.changeCurrency "gold" (VInt d)
                   (world_after (Player.changeCurrency "gold" (VInt d) w))) in
  let w' := world_after (Player.setCurrency "gold" (js_add (VInt d) (VInt d)) w) in
  JsMap.has "gold" (currencies w) = true
  /\ JsObject.hasOwnProperty "gold" (_wallet w) = false
  /\ round_to_double d = Some d
  /\ result (Player.getCurrency "gold" w2) = Return (VInfinity false)
  /\ result (Player.getCurrency "gold" w') = Return (VInt 0)
  /\ result (Player.getCurrency "gold" w2) <> result (Player.getCurrency "gold" w').
Proof.
  cbv zeta.
  assert (H2 : result (Player.getCurrency "gold"
                 (world_after (Player.changeCurrency "gold" (VInt Number_MAX_VALUE)
                    (world_after (Player.changeCurrency "gold"
                       (VInt Number_MAX_VALUE) (joined bank))))))
               = Return (VInfinity false)) by (vm_compute; reflexivity).
  assert (H' : result (Player.getCurrency "gold"
                 (world_after (Player.setCurrency "gold"
                    (js_add (VInt Number_MAX_VALUE) (VInt Number_MAX_VALUE))
                    (joined bank))))
               = Return (VInt 0)) by (vm_compute; reflexivity).
  repeat split; try assumption; try (vm_compute; reflexivity).
  rewrite H2, H'. discriminate.
Qed.

(** * Replication *)

Lemma replication_of_wallet_is_replication reg (o : JsObject.t) names :
  Forall (fun x => is_replication x = true) (replication_of_wallet reg o names).
Proof.
  induction names as [|key names IH]; cbn; [constructor|].
  apply Forall_app. split; [|exact IH].
  destruct (JsMap.get key reg); [apply replication_of_is_replication|constructor].
Qed.

Lemma replication_of_cases c v :
  (syncType c = SYNC_TYPE_EVERYONE -> replication_of c v = [setVariable (syncKey c) v])
  /\ (syncType c = SYNC_TYPE_PLAYER -> replication_of c v = [setOwnVariable (syncKey c) v])
  /\ (syncType c = SYNC_TYPE_NONE -> replication_of c v = []).
Proof.
  unfold replication_of. repeat split; intros ->; reflexivity.
Qed.

(** * Further properties of the registry *)

Lemma addCurrency_success w key nm st c :
  result (CurrencyScript.addCurrency key nm st w) = Return c ->
  key = VString (string_of key)
  /\ nonempty_string key = true /\ nonempty_string nm = true
  /\ recognized_syncType st = true
  /\ JsMap.get (string_of key) (currencies w) = None
  /\ c = mkCurrency (string_of nm) (int_of st) ("currency_" ++ string_of key)%string
  /\ CurrencyScript.addCurrency key nm st w
     = (Return c,
        mkWorld (JsMap.set (string_of key) c (currencies w)) (_wallet w),
        [emit_currencyDefined (string_of key) (string_of nm) (int_of st)
           ("currency_" ++ string_of key)%string]).
Proof.
  rewrite addCurrency_run.
  destruct (nonempty_string key) eqn:Hkey; [|discriminate].
  destruct (nonempty_string nm) eqn:Hnm; [|discriminate].
  destruct (Number_isInteger st) eqn:Hint; [|discriminate].
  unfold JsMap.has.
  destruct (JsMap.get (string_of key) (currencies w)) eqn:Hget; [discriminate|].
  destruct (recognized_syncType st) eqn:Hst; [|discriminate].
  cbn. intros [= <-]. repeat split.
  destruct key; try discriminate. reflexivity.
Qed.

Lemma addCurrency_failure w key nm st message :
  result (CurrencyScript.addCurrency key nm st w) = Throw message ->
  CurrencyScript.addCurrency key nm st w = (Throw message, w, []).
Proof.
  rewrite addCurrency_run.
  repeat match goal with |- context [if ?b then _ else _] => destruct b end;
    cbn; intros [= <-]; reflexivity.
Qed.

(** X1.  After [addCurrency] has returned a record the getters give it back:
    the key is registered, [getCurrency] returns the record, and its name, sync
    type and sync key are the name and sync type passed and [currency_]
    followed by the key; what the getters return for any other key has not
    changed. *)
Theorem addCurrency_then_getters w key nm st c :
  result (CurrencyScript.addCurrency key nm st w) = Return c ->
  let w' := world_after (CurrencyScript.addCurrency key nm st w) in
  let k := string_of key in
  key = VString k
  /\ CurrencyScript.hasCurrency k w' = (Return true, w', [])
  /\ CurrencyScript.getCurrency k w' = (Return (Some c), w', [])
  /\ CurrencyScript.getCurrencyName k w' = (Return (string_of nm), w', [])
  /\ CurrencyScript.getCurrencySyncType k w' = (Return (int_of st), w', [])
  /\ CurrencyScript.getCurrencySyncKey k w'
     = (Return (Some ("currency_" ++ k)%string), w', [])
  /\ (forall k', k' <> k ->
        result (CurrencyScript.getCurrency k' w')
        = result (CurrencyScript.getCurrency k' w)
        /\ result (CurrencyScript.hasCurrency k' w')
           = result (CurrencyScript.hasCurrency k' w)).
Proof.
  intros Hres. cbv zeta.
  destruct (addCurrency_success _ _ _ _ Hres) as (Hkey & _ & _ & _ & _ & Hc & Hrun).
  rewrite Hrun. cbn [world_after fst snd].
  unfold CurrencyScript.getCurrencyName, CurrencyScript.getCurrencySyncType,
    CurrencyScript.getCurrencySyncKey, CurrencyScript.getCurrency,
    CurrencyScript.hasCurrency, bind, read, JsMap.has.
  cbn [currencies result fst].
  rewrite map_get_set_eq. subst c. cbn.
  repeat split; try assumption;
    rewrite map_get_set_ne by congruence; reflexivity.
Qed.

Lemma addCurrency_then_getters_witness :
  CurrencyScript.getCurrencySyncType "gems"
    (world_after (CurrencyScript.addCurrency (VString "gems") (VString "Gems")
                    (VInt 2) (joined bank)))
  = (Return (int_of (VInt 2)),
     world_after (CurrencyScript.addCurrency (VString "gems") (VString "Gems")
                    (VInt 2) (joined bank)),
     []).
Proof.
  exact (proj1 (proj2 (proj2 (proj2 (proj2
    (@addCurrency_then_getters (joined bank) (VString "gems") (VString "Gems")
       (VInt 2) (mkCurrency "Gems" 2 "currency_gems") eq_refl)))))).
Defined.

(** X2.  [getAllCurrencies] lists the keys in the order of registration: a
    successful [addCurrency] appends its key, which was not listed before, and
    a failed one leaves the list as it was. *)
Theorem getAllCurrencies_in_registration_order w key nm st :
  let r := CurrencyScript.addCurrency key nm st w in
  let before := JsMap.keys (currencies w) in
  CurrencyScript.getAllCurrencies w = (Return before, w, [])
  /\ (forall c, result r = Return c ->
        ~ In (string_of key) before
        /\ result (CurrencyScript.getAllCurrencies (world_after r))
           = Return (before ++ [string_of key]))
  /\ (forall message, result r = Throw message ->
        result (CurrencyScript.getAllCurrencies (world_after r)) = Return before).
Proof.
  cbv zeta. split; [reflexivity|]. split.
  - intros c Hres.
    destruct (addCurrency_success _ _ _ _ Hres) as (_ & _ & _ & _ & Hnew & _ & Hrun).
    rewrite Hrun. cbn [world_after fst snd].
    unfold CurrencyScript.getAllCurrencies, read. cbn [result fst currencies].
    rewrite map_keys_set_absent by exact Hnew. split; [|reflexivity].
    rewrite <- map_get_in_keys. congruence.
  - intros message Hres. now rewrite (addCurrency_failure _ _ _ _ Hres).
Qed.

Lemma getAllCurrencies_in_registration_order_witness :
  ~ In "gems" (JsMap.keys bank)
  /\ result (CurrencyScript.getAllCurrencies
               (world_after (CurrencyScript.addCurrency (VString "gems")
                               (VString "Gems") (VInt 2) (joined bank))))
     = Return (JsMap.keys bank ++ ["gems"]).
Proof.
  exact (proj1 (proj2
    (@getAllCurrencies_in_registration_order (joined bank) (VString "gems")
       (VString "Gems") (VInt 2))) (mkCurrency "Gems" 2 "currency_gems") eq_refl).
Defined.

Lemma registry_ok_empty : registry_ok JsMap.empty.
Proof. split; [constructor|]. intros k c. discriminate. Qed.

Lemma recognized_syncType_cases st :
  recognized_syncType st = true ->
  int_of st = SYNC_TYPE_NONE \/ int_of st = SYNC_TYPE_EVERYONE
  \/ int_of st = SYNC_TYPE_PLAYER.
Proof.
  destruct st; try discriminate. unfold recognized_syncType, int_of,
    SYNC_TYPE_NONE, SYNC_TYPE_EVERYONE, SYNC_TYPE_PLAYER.
  rewrite andb_true_iff, !Z.leb_le. lia.
Qed.

Lemma nonempty_string_of v : nonempty_string v = true -> string_of v <> "".
Proof.
  destruct v; try discriminate. cbn.
  destruct (String.eqb_spec s ""); [discriminate|auto].
Qed.

Lemma serve_currencies r w :
  currencies (serve r w) = currencies w
  \/ exists key nm st c,
       r = AddCurrency key nm st
       /\ result (CurrencyScript.addCurrency key nm st w) = Return c
       /\ currencies (serve r w) = JsMap.set (string_of key) c (currencies w).
Proof.
  destruct r as [key nm st| |v|k a|k a]; cbn [serve].
  - destruct (result (CurrencyScript.addCurrency key nm st w)) as [c|message] eqn:Hres.
    + right. exists key, nm, st, c. repeat split; auto.
      destruct (addCurrency_success _ _ _ _ Hres) as (_ & _ & _ & _ & _ & _ & Hrun).
      now rewrite Hrun.
    + left. now rewrite (addCurrency_failure _ _ _ _ Hres).
  - left. reflexivity.
  - left. destruct v; try reflexivity. now rewrite setWallet_run.
  - left. rewrite setCurrency_run.
    destruct (JsMap.get k (currencies w)); [destruct a|]; try reflexivity.
    destruct (shadowed (_wallet w)); reflexivity.
  - left. rewrite changeCurrency_run.
    destruct (JsMap.get k (currencies w)); [destruct a|]; try reflexivity.
    destruct (shadowed (_wallet w)); reflexivity.
Qed.

Lemma registry_ok_serve r w :
  registry_ok (currencies w) -> registry_ok (currencies (serve r w)).
Proof.
  intros [Hnd Hrec].
  destruct (serve_currencies r w) as [->|(key & nm & st & c & _ & Hres & ->)];
    [now split|].
  destruct (addCurrency_success _ _ _ _ Hres)
    as (_ & Hkey & Hnm & Hst & Hnew & Hc & _).
  split.
  - rewrite map_keys_set_absent by exact Hnew.
    apply NoDup_app; [exact Hnd|repeat constructor; intros []|].
    intros k Hin [<-|[]]. apply map_get_in_keys in Hin. congruence.
  - intros k c'. destruct (String.eqb_spec (string_of key) k) as [<-|Hne].
    + rewrite map_get_set_eq. intros [= <-]. subst c. cbn.
      repeat split; auto using nonempty_string_of, recognized_syncType_cases.
    + rewrite map_get_set_ne by exact Hne. apply Hrec.
Qed.

Lemma registry_ok_serve_all rs : forall w,
  registry_ok (currencies w) -> registry_ok (currencies (serve_all rs w)).
Proof.
  induction rs as [|r rs IH]; intros w Hok; [exact Hok|].
  cbn. apply IH. now apply registry_ok_serve.
Qed.

(** X3.  Whatever requests are served from an empty registry, no key is
    listed twice and every record found under a key [k] has a non-empty key
    and name, the sync key [currency_] followed by [k], and one of the three
    sync types. *)
Theorem registry_records_well_formed rs :
  let w := serve_all rs (joined JsMap.empty) in
  NoDup (JsMap.keys (currencies w))
  /\ forall k c, JsMap.get k (currencies w) = Some c ->
       k <> "" /\ name c <> ""
       /\ syncKey c = ("currency_" ++ k)%string
       /\ (syncType c = SYNC_TYPE_NONE \/ syncType c = SYNC_TYPE_EVERYONE
           \/ syncType c = SYNC_TYPE_PLAYER).
Proof.
  cbv zeta. change (registry_ok (currencies (serve_all rs (joined JsMap.empty)))).
  induction rs as [|r rs IH] using rev_ind.
  - apply registry_ok_empty.
  - unfold serve_all. rewrite fold_left_app. cbn [fold_left].
    apply registry_ok_serve. exact IH.
Qed.

Lemma registry_records_well_formed_witness :
  "cash" <> "" /\ name cash <> ""
  /\ syncKey cash = ("currency_" ++ "cash")%string
  /\ (syncType cash = SYNC_TYPE_NONE \/ syncType cash = SYNC_TYPE_EVERYONE
      \/ syncType cash = SYNC_TYPE_PLAYER).
Proof.
  exact (proj2 (registry_records_well_formed
                  [AddCurrency (VString "gold") (VString "Gold") (VInt 1);
                   AddCurrency (VString "cash") (VString "Cash") (VInt 2);
                   AddCurrency (VString "cash") (VString "Again") (VInt 0);
                   SetCurrency "cash" (VInt 3)])
               "cash" cash eq_refl).
Defined.

Lemma append_injective (p a b : string) : (p ++ a = p ++ b)%string -> a = b.
Proof. induction p as [|ch p IH]; cbn; [auto|]. intros [= H]. auto. Qed.

Lemma registry_ok_sync_keys reg k1 k2 c1 c2 :
  registry_ok reg ->
  JsMap.get k1 reg = Some c1 -> JsMap.get k2 reg = Some c2 ->
  syncKey c1 = syncKey c2 ->
  k1 = k2.
Proof.
  intros [_ Hrec] H1 H2 Heq.
  destruct (Hrec _ _ H1) as (_ & _ & E1 & _).
  destruct (Hrec _ _ H2) as (_ & _ & E2 & _).
  rewrite E1, E2 in Heq. now apply append_injective in Heq.
Qed.

(** X4.  In a registry built from the empty one, two different currencies
    never share a sync key: a replication call names one currency only. *)
Theorem sync_keys_are_distinct rs k1 k2 c1 c2 :
  let w := serve_all rs (joined JsMap.empty) in
  JsMap.get k1 (currencies w) = Some c1 ->
  JsMap.get k2 (currencies w) = Some c2 ->
  syncKey c1 = syncKey c2 ->
  k1 = k2.
Proof.
  cbv zeta. apply registry_ok_sync_keys.
  apply registry_ok_serve_all, registry_ok_empty.
Qed.

Lemma sync_keys_are_distinct_witness : "gold" = "gold".
Proof.
  exact (@sync_keys_are_distinct
           [AddCurrency (VString "gold") (VString "Gold") (VInt 1);
            AddCurrency (VString "cash") (VString "Cash") (VInt 2)]
           "gold" "gold" gold gold eq_refl eq_refl eq_refl).
Defined.

Lemma serve_all_keeps_currency rs : forall w k c,
  JsMap.get k (currencies w) = Some c ->
  JsMap.get k (currencies (serve_all rs w)) = Some c.
Proof.
  induction rs as [|r rs IH]; intros w k c Hget; [exact Hget|].
  cbn. apply IH. now apply serve_keeps_currency.
Qed.

Lemma serve_all_keeps_registered rs w k :
  JsMap.has k (currencies w) = true ->
  JsMap.has k (currencies (serve_all rs w)) = true.
Proof.
  rewrite !map_has_get. intros [c Hc]. exists c.
  now apply serve_all_keeps_currency.
Qed.

Lemma serve_all_extends_keys rs : forall w,
  exists added,
    JsMap.keys (currencies (serve_all rs w)) = JsMap.keys (currencies w) ++ added.
Proof.
  induction rs as [|r rs IH]; intros w.
  - exists []. cbn. now rewrite app_nil_r.
  - cbn [serve_all fold_left]. destruct (IH (serve r w)) as [added Hadd].
    unfold serve_all in Hadd. rewrite Hadd.
    destruct (serve_currencies r w) as [->|(key & nm & st & c & _ & Hres & ->)].
    + now exists added.
    + destruct (addCurrency_success _ _ _ _ Hres) as (_ & _ & _ & _ & Hnew & _ & _).
      rewrite map_keys_set_absent by exact Hnew.
      exists ([string_of key] ++ added). now rewrite app_assoc.
Qed.

(** X5.  A currency is registered for good: whatever requests are served
    afterwards, its key returns the same record, and [getAllCurrencies] lists
    the keys it listed, in the same order, before any new ones. *)
Theorem registered_currency_is_kept rs w k c :
  JsMap.get k (currencies w) = Some c ->
  let w' := serve_all rs w in
  result (CurrencyScript.getCurrency k w') = Return (Some c)
  /\ result (CurrencyScript.hasCurrency k w') = Return true
  /\ exists added,
       result (CurrencyScript.getAllCurrencies w')
       = Return (JsMap.keys (currencies w) ++ added).
Proof.
  intros Hget. cbv zeta.
  pose proof (serve_all_keeps_currency rs _ _ Hget) as Hkept.
  unfold CurrencyScript.getCurrency, CurrencyScript.hasCurrency,
    CurrencyScript.getAllCurrencies, read, JsMap.has. cbn [result fst].
  rewrite Hkept. repeat split.
  destruct (serve_all_extends_keys rs w) as [added Hadd].
  exists added. now rewrite Hadd.
Qed.

Lemma registered_currency_is_kept_witness :
  result (CurrencyScript.getCurrency "gold"
            (serve_all [AddCurrency (VString "gold") (VString "Other") (VInt 0);
                        AddCurrency (VString "gems") (VString "Gems") (VInt 2);
                        SetWallet (VObject [])]
               (joined bank)))
  = Return (Some gold).
Proof.
  exact (proj1 (@registered_currency_is_kept
                  [AddCurrency (VString "gold") (VString "Other") (VInt 0);
                   AddCurrency (VString "gems") (VString "Gems") (VInt 2);
                   SetWallet (VObject [])]
                  (joined bank) "gold" gold eq_refl)).
Defined.
(** * Further properties of the wallet *)

(** X6.  In a wallet that holds no function under [hasOwnProperty],
    [setCurrency] and [changeCurrency] return [true] exactly when the key is
    a registered currency, the amount an integer and the wallet holds no
    property [hasOwnProperty].  When the key is not registered or the amount
    not an integer they return [false], change nothing and make no call; when
    both checks pass and the wallet holds [hasOwnProperty] they throw, having
    changed nothing and made no call. *)
Theorem wallet_write_succeeds_iff w k a :
  own_method (_wallet w) = false ->
  (result (Player.setCurrency k a w) = Return true
   <-> JsMap.has k (currencies w) = true /\ Number_isInteger a = true
       /\ shadowed (_wallet w) = false)
  /\ (result (Player.changeCurrency k a w) = Return true
      <-> JsMap.has k (currencies w) = true /\ Number_isInteger a = true
          /\ shadowed (_wallet w) = false)
  /\ (JsMap.has k (currencies w) = false \/ Number_isInteger a = false ->
      Player.setCurrency k a w = (Return false, w, [])
      /\ Player.changeCurrency k a w = (Return false, w, []))
  /\ (JsMap.has k (currencies w) = true -> Number_isInteger a = true ->
      shadowed (_wallet w) = true ->
      Player.setCurrency k a w = (Throw not_a_function, w, [])
      /\ Player.changeCurrency k a w = (Throw not_a_function, w, [])).
Proof.
  intros _. rewrite setCurrency_run, changeCurrency_run. unfold JsMap.has.
  destruct (JsMap.get k (currencies w)) as [c|]; [destruct a|];
    try (destruct (shadowed (_wallet w)));
    cbn; repeat split; try tauto; try discriminate;
    try (intros (? & ? & ?); discriminate);
    try (intros [?|?]; discriminate);
    match goal with H : _ \/ _ |- _ => destruct H; discriminate end.
Qed.

Lemma wallet_write_succeeds_iff_witness :
  Player.setCurrency "gold" (VString "100") (joined bank)
  = (Return false, joined bank, [])
  /\ Player.changeCurrency "gold" (VString "100") (joined bank)
     = (Return false, joined bank, []).
Proof.
  apply (proj1 (proj2 (proj2 (@wallet_write_succeeds_iff (joined bank) "gold"
                                (VString "100") eq_refl)))).
  right. reflexivity.
Defined.

(** X7.  On a registered currency other than [__proto__] and
    [hasOwnProperty], in a wallet that holds no [hasOwnProperty], the last
    [setCurrency] wins: setting the balance to [a] and then to [b] leaves the
    world that setting it to [b] leaves, and [getCurrency] then returns
    [b]. *)
Theorem setCurrency_last_write_wins w k a b :
  JsMap.has k (currencies w) = true ->
  k <> "__proto__" -> k <> "hasOwnProperty" ->
  shadowed (_wallet w) = false ->
  let w1 := world_after (Player.setCurrency k (VInt a) w) in
  world_after (Player.setCurrency k (VInt b) w1)
  = world_after (Player.setCurrency k (VInt b) w)
  /\ result (Player.getCurrency k (world_after (Player.setCurrency k (VInt b) w)))
     = Return (VInt b).
Proof.
  intros Hreg Hproto Hhas Hshadow.
  apply map_has_get in Hreg. destruct Hreg as [c Hc]. cbv zeta.
  rewrite (setCurrency_run k (VInt a) w), (setCurrency_run k (VInt b) w), Hc, Hshadow.
  cbn [world_after fst snd]. rewrite setCurrency_run. cbn [currencies _wallet].
  rewrite Hc, shadowed_set, Hshadow by exact Hhas.
  cbn [world_after fst snd]. rewrite obj_set_set.
  split; [reflexivity|].
  rewrite getCurrency_run. cbn [_wallet].
  rewrite shadowed_set, Hshadow by exact Hhas. cbn [result fst].
  now rewrite balance_set by now apply stores_other.
Qed.

Lemma setCurrency_last_write_wins_witness :
  world_after (Player.setCurrency "gold" (VInt 8)
                 (world_after (Player.setCurrency "gold" (VInt 5)
                                 (mkWorld bank [("cash", VInt 1)]))))
  = world_after (Player.setCurrency "gold" (VInt 8) (mkWorld bank [("cash", VInt 1)])).
Proof.
  exact (proj1 (@setCurrency_last_write_wins (mkWorld bank [("cash", VInt 1)])
                  "gold" 5 8 eq_refl ltac:(discriminate) ltac:(discriminate)
                  eq_refl)).
Defined.

Lemma round_to_double_small z : Z.abs z < 2 ^ 53 -> round_to_double z = Some z.
Proof.
  intros Hz. unfold round_to_double.
  destruct (Z.ltb_spec (Z.abs z) (2 ^ 53)); [reflexivity|lia].
Qed.

Lemma double_sum_small x y : Z.abs (x + y) < 2 ^ 53 -> double_sum x y = VInt (x + y).
Proof. intros H. unfold double_sum. now rewrite round_to_double_small. Qed.

(** X8.  Changes add up as long as the sums are below [2 ^ 53] in
    magnitude: on a registered currency other than [__proto__] and
    [hasOwnProperty] whose balance is the integer [b] (0 when the wallet does
    not hold it), changing by [d1] and then by [d2] leaves the world that
    changing by [d1 + d2] leaves, with balance [b + d1 + d2]; in particular
    changing by [d] and then by [- d] gives the balance [b] back. *)
Theorem changeCurrency_adds_up w k b d1 d2 :
  JsMap.has k (currencies w) = true ->
  k <> "__proto__" -> k <> "hasOwnProperty" ->
  result (Player.getCurrency k w) = Return (VInt b) ->
  Z.abs (b + d1) < 2 ^ 53 ->
  Z.abs (d1 + d2) < 2 ^ 53 ->
  Z.abs (b + d1 + d2) < 2 ^ 53 ->
  let w1 := world_after (Player.changeCurrency k (VInt d1) w) in
  let w2 := world_after (Player.changeCurrency k (VInt d2) w1) in
  w2 = world_after (Player.changeCurrency k (VInt (d1 + d2)) w)
  /\ result (Player.getCurrency k w2) = Return (VInt (b + d1 + d2))
  /\ (d2 = - d1 -> result (Player.getCurrency k w2) = Return (VInt b)).
Proof.
  intros Hreg Hproto Hhas Hbal H1 H12 H2.
  apply map_has_get in Hreg. destruct Hreg as [c Hc].
  pose proof (stores_other (_wallet w) Hproto) as Hs.
  rewrite getCurrency_run in Hbal.
  destruct (shadowed (_wallet w)) eqn:Hshadow; [discriminate|].
  cbn [result fst] in Hbal. injection Hbal as Hbal.
  cbv zeta.
  assert (Hw2 :
    world_after (Player.changeCurrency k (VInt d2)
                   (world_after (Player.changeCurrency k (VInt d1) w)))
    = mkWorld (currencies w) (JsObject.set k (VInt (b + d1 + d2)) (_wallet w))
    /\ world_after (Player.changeCurrency k (VInt (d1 + d2)) w)
       = mkWorld (currencies w) (JsObject.set k (VInt (b + d1 + d2)) (_wallet w))).
  { rewrite (changeCurrency_run k (VInt d1) w),
      (changeCurrency_run k (VInt (d1 + d2)) w), Hc, Hshadow.
    unfold balance in Hbal.
    destruct (JsObject.hasOwnProperty k (_wallet w)) eqn:Hown.
    - rewrite Hbal. unfold js_add. rewrite !double_sum_small by lia.
      cbn [world_after fst snd].
      rewrite changeCurrency_run. cbn [currencies _wallet]. rewrite Hc.
      rewrite shadowed_set, Hshadow by exact Hhas.
      rewrite obj_has_set, prop_set by exact Hs. unfold js_add.
      rewrite double_sum_small by lia.
      cbn [world_after fst snd]. rewrite obj_set_set.
      split; do 2 f_equal; f_equal; lia.
    - injection Hbal as <-. cbn [world_after fst snd].
      rewrite changeCurrency_run. cbn [currencies _wallet]. rewrite Hc.
      rewrite shadowed_set, Hshadow by exact Hhas.
      rewrite obj_has_set, prop_set by exact Hs. unfold js_add.
      rewrite double_sum_small by lia.
      cbn [world_after fst snd]. rewrite obj_set_set.
      split; do 2 f_equal; f_equal; lia. }
  destruct Hw2 as [Hw2 Hw]. rewrite Hw2, Hw. split; [reflexivity|].
  rewrite getCurrency_run. cbn [_wallet].
  rewrite shadowed_set, Hshadow by exact Hhas. cbn [result fst].
  rewrite balance_set by exact Hs. split; [reflexivity|].
  intros ->. do 2 f_equal. lia.
Qed.

Lemma changeCurrency_adds_up_witness :
  world_after (Player.changeCurrency "gold" (VInt (-30))
                 (world_after (Player.changeCurrency "gold" (VInt 10)
                                 (mkWorld bank [("gold", VInt 100)]))))
  = world_after (Player.changeCurrency "gold" (VInt (10 + -30))
                   (mkWorld bank [("gold", VInt 100)])).
Proof.
  exact (proj1 (@changeCurrency_adds_up (mkWorld bank [("gold", VInt 100)])
                  "gold" 100 10 (-30) eq_refl ltac:(discriminate)
                  ltac:(discriminate) eq_refl eq_refl eq_refl eq_refl)).
Defined.

(** X9.  [setWallet] on a plain object leaves the registry alone and ends
    with exactly one [walletReplaced], which carries the wallet it found and
    the wallet it left; every call before it is a replication call. *)
Theorem setWallet_announces_the_replacement w props :
  let r := Player.setWallet (VObject props) w in
  currencies (world_after r) = currencies w
  /\ exists replication,
       calls r = replication
                 ++ [emit_walletReplaced (_wallet w) (_wallet (world_after r))]
       /\ Forall (fun c => is_replication c = true) replication.
Proof.
  cbv zeta. rewrite setWallet_run. cbn [world_after calls fst snd currencies _wallet].
  split; [reflexivity|]. eexists. split; [reflexivity|].
  apply replication_of_wallet_is_replication.
Qed.

Section ObjectOrder.

Implicit Types (o : JsObject.t) (k : string) (v : value).

Lemma index_free_above i o : index_free o = true -> above i o = true.
Proof.
  unfold index_free, above. rewrite !forallb_forall. intros H kv Hin.
  specialize (H kv Hin). now destruct (JsObject.array_index (fst kv)).
Qed.

Lemma index_free_ordered o : index_free o = true -> ordered o = true.
Proof.
  induction o as [|[k v] o IH]; cbn; [reflexivity|].
  destruct (JsObject.array_index k); [discriminate|]. auto.
Qed.

Lemma ordered_tail k v o : ordered ((k, v) :: o) = true -> ordered o = true.
Proof.
  cbn. destruct (JsObject.array_index k).
  - now rewrite andb_true_iff.
  - apply index_free_ordered.
Qed.

(** In the listing, what precedes an array index is a smaller array index. *)
Lemma ordered_before_index o1 k v o2 i :
  ordered (o1 ++ (k, v) :: o2) = true ->
  JsObject.array_index k = Some i ->
  forall k' v', In (k', v') o1 ->
    exists j, JsObject.array_index k' = Some j /\ (j < i)%N.
Proof.
  induction o1 as [|[k0 v0] o1 IH]; cbn; intros Hord Hi k' v' Hin; [destruct Hin|].
  destruct (JsObject.array_index k0) as [j|] eqn:Hj.
  - apply andb_true_iff in Hord. destruct Hord as [Habove Hord].
    destruct Hin as [[= <- <-]|Hin]; [|now apply (IH Hord Hi k' v')].
    exists j. split; [exact Hj|].
    unfold above in Habove. rewrite forallb_forall in Habove.
    specialize (Habove (k, v)). cbn in Habove. rewrite Hi in Habove.
    apply N.ltb_lt, Habove. apply in_elt.
  - unfold index_free in Hord. rewrite forallb_forall in Hord.
    specialize (Hord (k, v) (in_elt (k, v) o1 o2)). cbn in Hord.
    now rewrite Hi in Hord.
Qed.

Lemma insert_index_at_end o i k v :
  (forall k' v', In (k', v') o ->
     exists j, JsObject.array_index k' = Some j /\ (j < i)%N) ->
  JsObject.insert_index i k v o = o ++ [(k, v)].
Proof.
  induction o as [|[k0 v0] o IH]; intros Hsmall; cbn; [reflexivity|].
  destruct (Hsmall k0 v0 (or_introl eq_refl)) as (j & -> & Hlt).
  apply N.ltb_lt in Hlt. rewrite Hlt.
  rewrite IH; [reflexivity|]. intros k' v' Hin. apply (Hsmall k' v'). now right.
Qed.

Lemma obj_get_app_absent o1 o2 k :
  JsObject.get k o1 = None -> JsObject.get k (o1 ++ o2) = JsObject.get k o2.
Proof.
  induction o1 as [|[k0 v0] o1 IH]; cbn; [reflexivity|].
  destruct (String.eqb k k0); [discriminate|]. exact IH.
Qed.

(** Assigning the next property of an ordered listing puts it next. *)
Lemma obj_set_next o1 k v o2 :
  k <> "__proto__" ->
  ordered (o1 ++ (k, v) :: o2) = true ->
  NoDup (JsObject.keys (o1 ++ (k, v) :: o2)) ->
  JsObject.get k o1 = None
  /\ JsObject.set k v o1 = o1 ++ [(k, v)].
Proof.
  intros Hproto Hord Hnd.
  assert (Hk : JsObject.get k o1 = None).
  { destruct (JsObject.get k o1) eqn:E; [exfalso|reflexivity].
    assert (Hin : In k (JsObject.keys o1))
      by (apply obj_get_in_keys; congruence).
    unfold JsObject.keys in Hnd. rewrite map_app in Hnd. cbn in Hnd.
    apply NoDup_remove_2 in Hnd. apply Hnd, in_or_app. now left. }
  split; [exact Hk|].
  unfold JsObject.set, JsObject.hasOwnProperty. rewrite Hk.
  destruct (String.eqb_spec k "__proto__"); [contradiction|].
  destruct (JsObject.array_index k) as [i|] eqn:Hi; [|reflexivity].
  apply insert_index_at_end. now apply (ordered_before_index _ _ _ _ Hord Hi).
Qed.

Lemma above_keys i o : forall o',
  JsObject.keys o = JsObject.keys o' -> above i o = above i o'.
Proof.
  unfold above, index_free.
  induction o as [|[k v] o IH]; intros [|[k' v'] o']; cbn; try discriminate;
    [reflexivity|].
  intros [= <- H]. now rewrite (IH _ H).
Qed.

Lemma index_free_keys o : forall o',
  JsObject.keys o = JsObject.keys o' -> index_free o = index_free o'.
Proof.
  unfold above, index_free.
  induction o as [|[k v] o IH]; intros [|[k' v'] o']; cbn; try discriminate;
    [reflexivity|].
  intros [= <- H]. now rewrite (IH _ H).
Qed.

(** Whether a listing is in order depends on its names only. *)
Lemma ordered_keys o : forall o',
  JsObject.keys o = JsObject.keys o' -> ordered o = ordered o'.
Proof.
  induction o as [|[k v] o IH]; intros [|[k' v'] o'];
    cbn [ordered JsObject.keys map fst]; try discriminate; [reflexivity|].
  intros [= <- H]. destruct (JsObject.array_index k) as [i|].
  - now rewrite (IH _ H), (above_keys i _ _ H).
  - apply index_free_keys, H.
Qed.

Lemma above_insert_index j i k v o :
  JsObject.array_index k = Some i -> (j < i)%N ->
  above j o = true -> above j (JsObject.insert_index i k v o) = true.
Proof.
  intros Hi Hlt. induction o as [|[k0 v0] o IH]; cbn.
  - rewrite Hi. intros _. apply N.ltb_lt in Hlt. now rewrite Hlt.
  - destruct (JsObject.array_index k0) as [j0|] eqn:Hj0.
    + rewrite andb_true_iff. intros [H0 Hrest].
      destruct (j0 <? i)%N; cbn; rewrite ?Hi, ?Hj0, ?H0; cbn; auto.
      apply N.ltb_lt in Hlt. now rewrite Hlt.
    + intros Hrest. cbn. rewrite Hi, Hj0. cbn.
      apply N.ltb_lt in Hlt. now rewrite Hlt.
Qed.

Lemma above_weaken i j o : (i <= j)%N -> above j o = true -> above i o = true.
Proof.
  intros Hle. unfold above. rewrite !forallb_forall. intros H kv Hin.
  specialize (H kv Hin). destruct (JsObject.array_index (fst kv)); [|reflexivity].
  apply N.ltb_lt. apply N.ltb_lt in H. lia.
Qed.

Lemma digit_of_bound c d : JsObject.digit_of c = Some d -> (d <= 9)%N.
Proof.
  unfold JsObject.digit_of.
  destruct ((48 <=? N_of_ascii c) && (N_of_ascii c <=? 57))%N eqn:E; [|discriminate].
  apply andb_true_iff in E. destruct E as [E1 E2].
  apply N.leb_le in E1, E2. intros [= <-]. lia.
Qed.

Lemma digit_of_injective c c' d :
  JsObject.digit_of c = Some d -> JsObject.digit_of c' = Some d -> c = c'.
Proof.
  unfold JsObject.digit_of.
  destruct ((48 <=? N_of_ascii c) && (N_of_ascii c <=? 57))%N eqn:E; [|discriminate].
  destruct ((48 <=? N_of_ascii c') && (N_of_ascii c' <=? 57))%N eqn:E'; [|discriminate].
  apply andb_true_iff in E, E'. destruct E as [E1 _], E' as [E1' _].
  apply N.leb_le in E1, E1'. intros [= <-] [= H].
  assert (Heq : N_of_ascii c = N_of_ascii c') by lia.
  rewrite <- (ascii_N_embedding c), <- (ascii_N_embedding c'). now rewrite Heq.
Qed.

(** A numeral of [n] digits read after [acc] lies in the [acc]-th block of
    length [10 ^ n]. *)
Lemma parse_digits_bounds s : forall acc n,
  JsObject.parse_digits s acc = Some n ->
  (acc * 10 ^ N.of_nat (String.length s) <= n
   < (acc + 1) * 10 ^ N.of_nat (String.length s))%N.
Proof.
  induction s as [|c s IH]; intros acc n; cbn [JsObject.parse_digits String.length].
  - intros [= <-]. cbn. lia.
  - destruct (JsObject.digit_of c) as [d|] eqn:Hd; [|discriminate].
    intros Hp. apply IH in Hp. apply digit_of_bound in Hd.
    rewrite Nat2N.inj_succ, N.pow_succ_r'. nia.
Qed.

Lemma parse_digits_injective s : forall t a b n,
  String.length s = String.length t ->
  JsObject.parse_digits s a = Some n -> JsObject.parse_digits t b = Some n ->
  a = b /\ s = t.
Proof.
  induction s as [|c s IH]; intros [|c' t] a b n; cbn [String.length];
    try discriminate.
  - cbn. intros _ [= <-] [= <-]. auto.
  - intros [= Hlen]. cbn [JsObject.parse_digits].
    destruct (JsObject.digit_of c) as [d|] eqn:Hd; [|discriminate].
    destruct (JsObject.digit_of c') as [d'|] eqn:Hd'; [|discriminate].
    intros Hs Ht. destruct (IH _ _ _ _ Hlen Hs Ht) as [Hacc ->].
    pose proof (digit_of_bound _ Hd). pose proof (digit_of_bound _ Hd').
    assert (a = b /\ d = d') as [-> ->] by lia.
    split; [reflexivity|]. f_equal. eapply digit_of_injective; eassumption.
Qed.

(** The numeral of an array index: a first digit and the digits after it, the
    first digit being 0 only when it stands alone. *)
Lemma array_index_numeral k i :
  JsObject.array_index k = Some i ->
  exists c rest d,
    k = String c rest /\ JsObject.digit_of c = Some d
    /\ JsObject.parse_digits rest d = Some i
    /\ (rest = "" \/ (1 <= d)%N).
Proof.
  destruct k as [|c rest]; [discriminate|]. unfold JsObject.array_index.
  destruct (Ascii.eqb c "0" && negb (String.eqb rest ""))%bool eqn:Hzero;
    [discriminate|].
  cbn [JsObject.parse_digits].
  destruct (JsObject.digit_of c) as [d|] eqn:Hd; [|discriminate].
  cbn [N.mul N.add].
  destruct (JsObject.parse_digits rest d) as [n|] eqn:Hp; [|discriminate].
  destruct (n <? 4294967295)%N; [|discriminate]. intros [= <-].
  exists c, rest, d. repeat split; auto.
  apply andb_false_iff in Hzero. destruct Hzero as [Hc|Hrest].
  - right. destruct (N.eq_dec d 0) as [->|]; [|lia]. exfalso.
    assert (c = "0"%char)
      by (eapply digit_of_injective; [eassumption|reflexivity]).
    subst c. discriminate.
  - left. apply negb_false_iff in Hrest. now apply String.eqb_eq.
Qed.

(** Two names that denote the same array index are the same name. *)
Lemma array_index_injective k k' i :
  JsObject.array_index k = Some i -> JsObject.array_index k' = Some i -> k = k'.
Proof.
  intros Hk Hk'.
  destruct (array_index_numeral _ Hk) as (c & s & d & -> & Hd & Hp & Hcan).
  destruct (array_index_numeral _ Hk') as (c' & s' & d' & -> & Hd' & Hp' & Hcan').
  pose proof (parse_digits_bounds _ _ Hp) as Hb.
  pose proof (parse_digits_bounds _ _ Hp') as Hb'.
  pose proof (digit_of_bound _ Hd). pose proof (digit_of_bound _ Hd').
  assert (Hlen : String.length s = String.length s').
  { destruct (Nat.lt_trichotomy (String.length s) (String.length s'))
      as [Hlt|[Heq|Hgt]]; [exfalso| exact Heq |exfalso].
    - assert (Hpow : (10 * 10 ^ N.of_nat (String.length s)
                      <= 10 ^ N.of_nat (String.length s'))%N).
      { rewrite <- N.pow_succ_r', <- Nat2N.inj_succ.
        apply N.pow_le_mono_r; lia. }
      destruct Hcan' as [->|Hd1]; [cbn in Hlt; lia|]. nia.
    - assert (Hpow : (10 * 10 ^ N.of_nat (String.length s')
                      <= 10 ^ N.of_nat (String.length s))%N).
      { rewrite <- N.pow_succ_r', <- Nat2N.inj_succ.
        apply N.pow_le_mono_r; lia. }
      destruct Hcan as [->|Hd1]; [cbn in Hgt; lia|]. nia. }
  destruct (parse_digits_injective _ _ _ _ Hlen Hp Hp') as [<- <-].
  f_equal. eapply digit_of_injective; eassumption.
Qed.

Lemma ordered_app_name o k v :
  JsObject.array_index k = None -> ordered o = true -> ordered (o ++ [(k, v)]) = true.
Proof.
  intros Hk.
  assert (Hfree : forall o, index_free o = true -> index_free (o ++ [(k, v)]) = true).
  { intros o0 H. unfold index_free. rewrite forallb_app. fold (index_free o0).
    rewrite H. cbn. now rewrite Hk. }
  assert (Habove : forall i o, above i o = true -> above i (o ++ [(k, v)]) = true).
  { intros i o0 H. unfold above. rewrite forallb_app. fold (above i o0).
    rewrite H. cbn. now rewrite Hk. }
  induction o as [|[k0 v0] o IH]; cbn.
  - now rewrite Hk.
  - destruct (JsObject.array_index k0); [|apply Hfree].
    rewrite !andb_true_iff. intros [H1 H2]. auto.
Qed.

Lemma above_cons i k v o :
  above i ((k, v) :: o)
  = match JsObject.array_index k with
    | Some j => (i <? j)%N
    | None => true
    end && above i o.
Proof. reflexivity. Qed.

Lemma index_free_cons k v o :
  index_free ((k, v) :: o)
  = match JsObject.array_index k with
    | Some _ => false
    | None => true
    end && index_free o.
Proof. reflexivity. Qed.

Lemma ordered_insert_index o i k v :
  JsObject.array_index k = Some i -> JsObject.get k o = None ->
  ordered o = true -> ordered (JsObject.insert_index i k v o) = true.
Proof.
  intros Hi. induction o as [|[k0 v0] o IH];
    cbn [JsObject.insert_index JsObject.get].
  - intros _ _. cbn [ordered]. now rewrite Hi.
  - destruct (String.eqb_spec k k0) as [->|Hne]; [discriminate|].
    intros Hk Hord. cbn [ordered] in Hord.
    destruct (JsObject.array_index k0) as [j|] eqn:Hj.
    + apply andb_true_iff in Hord. destruct Hord as [Habove Hord].
      destruct (N.ltb_spec j i) as [Hlt|Hge].
      * cbn [ordered]. rewrite Hj, above_insert_index, IH; auto.
      * assert (i <> j) by (intros ->; apply Hne;
                            eapply array_index_injective; eassumption).
        assert (Hlt : (i < j)%N) by lia.
        cbn [ordered]. rewrite Hi, Hj, Habove, Hord, above_cons, Hj.
        apply N.ltb_lt in Hlt as Hb. rewrite Hb.
        rewrite (@above_weaken i j o) by (auto; lia). reflexivity.
    + cbn [ordered]. rewrite Hi, Hj, Hord, above_cons, Hj.
      now rewrite (index_free_above i _ Hord).
Qed.

Lemma ordered_set o k v : ordered o = true -> ordered (JsObject.set k v o) = true.
Proof.
  intros Hord. unfold JsObject.set, JsObject.hasOwnProperty.
  destruct (JsObject.get k o) eqn:E.
  - now rewrite (ordered_keys _ _ (obj_keys_update o k v)).
  - destruct (String.eqb k "__proto__"); [exact Hord|].
    destruct (JsObject.array_index k) eqn:Hi.
    + now apply ordered_insert_index.
    + now apply ordered_app_name.
Qed.

Lemma ordered_app_l o o' : ordered (o ++ o') = true -> ordered o = true.
Proof.
  induction o as [|[k v] o IH]; [reflexivity|]. cbn [app ordered].
  destruct (JsObject.array_index k).
  - unfold above. rewrite forallb_app, !andb_true_iff. intros [[H _] Hord].
    split; [exact H|now apply IH].
  - unfold index_free. rewrite forallb_app, andb_true_iff. now intros [H _].
Qed.

Lemma forallb_filter (A : Type) (p f : A -> bool) (l : list A) :
  forallb p l = true -> forallb p (filter f l) = true.
Proof.
  induction l as [|x l IH]; [reflexivity|]. cbn. rewrite andb_true_iff.
  intros [Hx Hl]. destruct (f x); cbn; [rewrite Hx|]; auto.
Qed.

Lemma ordered_filter (f : string * value -> bool) o :
  ordered o = true -> ordered (filter f o) = true.
Proof.
  induction o as [|[k v] o IH]; [reflexivity|]. intros Hord.
  pose proof (@ordered_tail _ _ _ Hord) as Htail. cbn [filter].
  destruct (f (k, v)); [|now apply IH]. cbn [ordered] in *.
  destruct (JsObject.array_index k).
  - apply andb_true_iff in Hord. destruct Hord as [Habove _].
    rewrite IH by exact Htail. rewrite andb_true_r.
    now apply forallb_filter.
  - now apply forallb_filter.
Qed.

Lemma keys_filter_NoDup (f : string * value -> bool) o :
  NoDup (JsObject.keys o) -> NoDup (JsObject.keys (filter f o)).
Proof.
  induction o as [|[k v] o IH]; [auto|]. cbn. intros Hnd.
  inversion Hnd as [|? ? Hnotin Hnd']; subst.
  destruct (f (k, v)); [|now apply IH]. cbn. constructor; [|now apply IH].
  intros Hin. apply Hnotin. unfold JsObject.keys in *.
  apply in_map_iff in Hin. destruct Hin as ([k' v'] & Hk & Hin).
  apply filter_In in Hin. apply in_map_iff. exists (k', v'). tauto.
Qed.

End ObjectOrder.
Section WalletShape.

Implicit Types (o : JsObject.t) (w : World).

Lemma kept_ordered reg newWallet todo : forall replacement,
  ordered replacement = true ->
  ordered (kept reg newWallet todo replacement) = true.
Proof.
  induction todo as [|key todo IH]; intros replacement Hord; [assumption|].
  cbn [kept].
  destruct (negb (JsMap.has key reg)
            || negb (Number_isInteger (JsObject.prop key newWallet)));
    apply IH; auto using ordered_set.
Qed.

(** A wallet lists every name once, array indices first. *)
Lemma wallet_shape_serve r w :
  ordered (_wallet w) = true /\ NoDup (JsObject.keys (_wallet w)) ->
  ordered (_wallet (serve r w)) = true
  /\ NoDup (JsObject.keys (_wallet (serve r w))).
Proof.
  intros [Hord Hnd]. destruct r as [key nm st| |v|k a|k a]; cbn [serve].
  - rewrite addCurrency_run.
    repeat match goal with |- context [if ?b then _ else _] => destruct b end;
      now split.
  - split; [reflexivity|constructor].
  - destruct v; try now split. rewrite setWallet_run.
    cbn [world_after fst snd _wallet].
    split; [now apply kept_ordered|apply kept_NoDup; constructor].
  - rewrite setCurrency_run.
    destruct (JsMap.get k (currencies w)); [destruct a|]; try now split.
    destruct (shadowed (_wallet w)); [now split|].
    cbn [world_after fst snd _wallet].
    split; [now apply ordered_set|now apply obj_keys_set_NoDup].
  - rewrite changeCurrency_run.
    destruct (JsMap.get k (currencies w)); [destruct a|]; try now split.
    destruct (shadowed (_wallet w)); [now split|].
    cbn [world_after fst snd _wallet].
    destruct (JsObject.hasOwnProperty k (_wallet w));
      (split; [now apply ordered_set|now apply obj_keys_set_NoDup]).
Qed.

Lemma wallet_shape_serve_all rs : forall w,
  ordered (_wallet w) = true /\ NoDup (JsObject.keys (_wallet w)) ->
  ordered (_wallet (serve_all rs w)) = true
  /\ NoDup (JsObject.keys (_wallet (serve_all rs w))).
Proof.
  induction rs as [|r rs IH]; intros w Hw; [exact Hw|].
  cbn. apply IH. now apply wallet_shape_serve.
Qed.

Lemma integer_entries_app o o' :
  integer_entries (o ++ o') = integer_entries o ++ integer_entries o'.
Proof. apply filter_app. Qed.

Lemma integer_entries_all o :
  (forall k v, JsObject.get k o = Some v -> Number_isInteger v = true) ->
  NoDup (JsObject.keys o) ->
  integer_entries o = o.
Proof.
  induction o as [|[k v] o IH]; [reflexivity|]. intros Hint Hnd.
  inversion Hnd as [|? ? Hnotin Hnd']; subst.
  cbn [integer_entries filter snd].
  rewrite (Hint k v) by (cbn; now rewrite String.eqb_refl).
  f_equal. apply IH; [|exact Hnd'].
  intros k' v' Hget. apply (Hint k'). cbn.
  destruct (String.eqb_spec k' k) as [->|]; [|exact Hget].
  exfalso. apply Hnotin. apply obj_get_in_keys. congruence.
Qed.

(** Running the first loop of [setWallet] over a well-kept wallet rebuilds
    its integer entries one by one. *)
Lemma kept_rebuilds reg : forall todo done,
  ordered (done ++ todo) = true ->
  NoDup (JsObject.keys (done ++ todo)) ->
  (forall k v, JsObject.get k (done ++ todo) = Some v ->
     JsMap.has k reg = true /\ k <> "__proto__") ->
  kept reg (done ++ todo) (JsObject.keys todo) (integer_entries done)
  = integer_entries (done ++ todo).
Proof.
  induction todo as [|[k v] todo IH]; intros done Hord Hnd Hok.
  - cbn. now rewrite app_nil_r.
  - assert (Habsent : JsObject.get k done = None).
    { destruct (JsObject.get k done) eqn:E; [exfalso|reflexivity].
      assert (Hin : In k (JsObject.keys done))
        by (apply obj_get_in_keys; congruence).
      unfold JsObject.keys in Hnd. rewrite map_app in Hnd. cbn in Hnd.
      apply NoDup_remove_2 in Hnd. apply Hnd, in_or_app. now left. }
    assert (Hget : JsObject.get k (done ++ (k, v) :: todo) = Some v).
    { rewrite obj_get_app_absent by exact Habsent. cbn.
      now rewrite String.eqb_refl. }
    destruct (Hok _ _ Hget) as [Hreg Hproto].
    cbn [JsObject.keys map fst kept]. fold (JsObject.keys todo).
    rewrite Hreg, (obj_prop_get _ _ Hget). cbn [negb orb].
    assert (Hstep :
      (if negb (Number_isInteger v) then integer_entries done
       else JsObject.set k v (integer_entries done))
      = integer_entries (done ++ [(k, v)])).
    { rewrite integer_entries_app. cbn [integer_entries filter snd].
      destruct (Number_isInteger v) eqn:Hint; cbn [negb];
        [|now rewrite app_nil_r].
      apply (@obj_set_next (integer_entries done) k v []); [exact Hproto| |].
      - replace (integer_entries done ++ [(k, v)])
          with (integer_entries (done ++ [(k, v)])).
        + apply ordered_filter.
          apply (@ordered_app_l (done ++ [(k, v)]) todo).
          now rewrite <- app_assoc.
        + rewrite integer_entries_app. cbn [integer_entries filter snd].
          now rewrite Hint.
      - replace (integer_entries done ++ [(k, v)])
          with (integer_entries (done ++ [(k, v)])).
        + apply keys_filter_NoDup.
          unfold JsObject.keys in *. rewrite map_app in *. cbn [map fst] in *.
          apply NoDup_remove_1 in Hnd as Hnd1.
          apply NoDup_remove_2 in Hnd as Hnd2.
          apply NoDup_app; [now apply NoDup_app_remove_r in Hnd1
                           |repeat constructor; intros []|].
          intros x Hx [<-|[]]. apply Hnd2, in_or_app. now left.
        + rewrite integer_entries_app. cbn [integer_entries filter snd].
          now rewrite Hint. }
    replace (done ++ (k, v) :: todo) with ((done ++ [(k, v)]) ++ todo)
      in * by (now rewrite <- app_assoc).
    destruct (negb (Number_isInteger v)) eqn:Hneg.
    + rewrite Hstep. now apply IH.
    + rewrite Hstep. now apply IH.
Qed.

End WalletShape.

(** X10.  A copy of the wallet can be put back, up to the balances that are
    no longer integers: if [saved] is the wallet of a player at some point,
    then at any later point [setWallet] with [saved] returns [true] and
    leaves as the wallet the entries of [saved] that hold an integer, in the
    same order, without touching the registry; when every balance in [saved]
    is an integer, that is [saved] itself. *)
Theorem setWallet_restores_a_copy reg rs rs' :
  let w := serve_all rs (joined reg) in
  let saved := _wallet w in
  let w' := serve_all rs' w in
  Player.getWallet w = (Return saved, w, [])
  /\ result (Player.setWallet (VObject saved) w') = Return true
  /\ world_after (Player.setWallet (VObject saved) w')
     = mkWorld (currencies w') (integer_entries saved)
  /\ ((forall k v, JsObject.get k saved = Some v -> Number_isInteger v = true) ->
      world_after (Player.setWallet (VObject saved) w')
      = mkWorld (currencies w') saved).
Proof.
  cbv zeta. split; [reflexivity|]. rewrite setWallet_run.
  cbn [result world_after fst snd]. split; [reflexivity|].
  set (w := serve_all rs (joined reg)).
  destruct (@wallet_shape_serve_all rs (joined reg)) as [Hord Hnd];
    [split; [reflexivity|constructor]|].
  pose proof (@wallet_ok_serve_all rs _ (@wallet_ok_joined reg)) as Hok.
  fold w in Hord, Hnd, Hok.
  assert (Hkept : kept (currencies (serve_all rs' w)) (_wallet w)
                    (JsObject.keys (_wallet w)) JsObject.empty
                  = integer_entries (_wallet w)).
  { apply (kept_rebuilds (currencies (serve_all rs' w)) (_wallet w) []);
      [exact Hord|exact Hnd|].
    intros k v Hget. destruct (Hok k v Hget) as (Hreg & Hproto & _).
    split; [|exact Hproto]. now apply serve_all_keeps_registered. }
  rewrite Hkept. split; [reflexivity|].
  intros Hint. now rewrite integer_entries_all.
Qed.

Lemma setWallet_restores_a_copy_witness :
  world_after (Player.setWallet (VObject [("gold", VInt 7); ("cash", VInt 2)])
                 (serve_all [ChangeCurrency "cash" (VInt 1)]
                    (serve_all [SetCurrency "gold" (VInt 7);
                                SetCurrency "cash" (VInt 2)] (joined bank))))
  = mkWorld bank [("gold", VInt 7); ("cash", VInt 2)].
Proof.
  apply (proj2 (proj2 (proj2
    (@setWallet_restores_a_copy bank
       [SetCurrency "gold" (VInt 7); SetCurrency "cash" (VInt 2)]
       [ChangeCurrency "cash" (VInt 1)])))).
  change (forall k v,
            JsObject.get k [("gold", VInt 7); ("cash", VInt 2)] = Some v ->
            Number_isInteger v = true).
  intros k v. cbn [JsObject.get].
  destruct (String.eqb k "gold"); [now intros [= <-]|].
  destruct (String.eqb k "cash"); [now intros [= <-]|discriminate].
Defined.

(** * Further properties of the replication *)

Lemma replication_keys_app cs cs' :
  replication_keys (cs ++ cs') = replication_keys cs ++ replication_keys cs'.
Proof. unfold replication_keys. apply flat_map_app. Qed.

Lemma replication_keys_of c v :
  replication_keys (replication_of c v) = [syncKey c]
  \/ replication_keys (replication_of c v) = [].
Proof.
  unfold replication_of.
  destruct (syncType c =? SYNC_TYPE_EVERYONE); [now left|].
  destruct (syncType c =? SYNC_TYPE_PLAYER); [now left|now right].
Qed.

Lemma replication_keys_of_wallet reg (o : JsObject.t) names :
  NoDup names ->
  (forall k1 k2 c1 c2, JsMap.get k1 reg = Some c1 -> JsMap.get k2 reg = Some c2 ->
     syncKey c1 = syncKey c2 -> k1 = k2) ->
  NoDup (replication_keys (replication_of_wallet reg o names))
  /\ forall key, In key (replication_keys (replication_of_wallet reg o names)) ->
       exists k c, In k names /\ JsMap.get k reg = Some c /\ syncKey c = key.
Proof.
  intros Hnd Hinj. induction Hnd as [|k names Hnotin Hnd IH].
  - split; [constructor|]. intros key [].
  - destruct IH as [IHnd IHin].
    cbn [replication_of_wallet flat_map]. fold (replication_of_wallet reg o names).
    rewrite replication_keys_app.
    destruct (JsMap.get k reg) as [c|] eqn:Hc.
    + destruct (replication_keys_of c (JsObject.prop k o)) as [-> | ->].
      * split.
        -- cbn. constructor; [|exact IHnd].
           intros Hin. destruct (IHin _ Hin) as (k' & c' & Hk' & Hc' & Heq).
           assert (k' = k) by (eapply Hinj; eassumption). now subst k'.
        -- intros key [<-|Hin].
           ++ exists k, c. split; [now left|]. split; [exact Hc|reflexivity].
           ++ destruct (IHin _ Hin) as (k' & c' & Hk' & Hc' & Heq).
              exists k', c'. split; [now right|]. split; assumption.
      * split; [exact IHnd|]. cbn. intros key Hin.
        destruct (IHin _ Hin) as (k' & c' & Hk' & Hc' & Heq).
        exists k', c'. split; [now right|]. split; assumption.
    + split; [exact IHnd|]. cbn. intros key Hin.
      destruct (IHin _ Hin) as (k' & c' & Hk' & Hc' & Heq).
      exists k', c'. split; [now right|]. split; assumption.
Qed.

(** X12.  With a registry built from the empty one, [setWallet] replicates
    under each sync key at most once: no client variable is written twice by
    one call. *)
Theorem setWallet_replicates_each_key_once rs props :
  let w := serve_all rs (joined JsMap.empty) in
  NoDup (replication_keys (calls (Player.setWallet (VObject props) w))).
Proof.
  cbv zeta. rewrite setWallet_run. cbn [calls snd].
  rewrite replication_keys_app. cbn [replication_keys flat_map replication_key].
  rewrite app_nil_r.
  apply replication_keys_of_wallet.
  - apply kept_NoDup. constructor.
  - intros k1 k2 c1 c2. apply registry_ok_sync_keys.
    apply registry_ok_serve_all, registry_ok_empty.
Qed.

(** X11.  A [setCurrency] or [changeCurrency] that returns [true] makes at
    most one replication call and then emits [currencyUpdated], and makes no
    other call.  The event carries the balance found and, for [setCurrency],
    the amount passed, for [changeCurrency] the value read back from the
    wallet, which is the new balance unless the key is [__proto__]. *)
Theorem wallet_write_calls_in_order w k a :
  let set_run := Player.setCurrency k a w in
  let change_run := Player.changeCurrency k a w in
  (result set_run = Return true ->
   exists replication,
     calls set_run
     = replication
       ++ [emit_currencyUpdated k (balance k (_wallet w)) a "setCurrency"]
     /\ Forall (fun c => is_replication c = true) replication
     /\ (List.length replication <= 1)%nat)
  /\ (result change_run = Return true ->
      exists replication,
        calls change_run
        = replication
          ++ [emit_currencyUpdated k (balance k (_wallet w))
                (JsObject.prop k (_wallet (world_after change_run)))
                "changeCurrency"]
        /\ Forall (fun c => is_replication c = true) replication
        /\ (List.length replication <= 1)%nat
        /\ (k <> "__proto__" ->
            JsObject.prop k (_wallet (world_after change_run))
            = balance k (_wallet (world_after change_run)))).
Proof.
  assert (Hlen : forall c v, (List.length (replication_of c v) <= 1)%nat).
  { intros c v. unfold replication_of.
    destruct (syncType c =? SYNC_TYPE_EVERYONE); [cbn; lia|].
    destruct (syncType c =? SYNC_TYPE_PLAYER); cbn; lia. }
  cbv zeta. rewrite setCurrency_run, changeCurrency_run.
  destruct (JsMap.get k (currencies w)) as [c|]; [destruct a|];
    try (destruct (shadowed (_wallet w)));
    cbn [result world_after calls fst snd _wallet];
    split; try discriminate; intros _.
  - exists (replication_of c (VInt z)).
    auto using replication_of_is_replication.
  - eexists. split; [reflexivity|].
    split; [apply replication_of_is_replication|]. split; [apply Hlen|].
    intros Hproto.
    destruct (JsObject.hasOwnProperty k (_wallet w));
      now rewrite balance_set, prop_set by now apply stores_other.
Qed.

Lemma wallet_write_calls_in_order_witness :
  exists replication,
    calls (Player.changeCurrency "cash" (VInt 4) (joined bank))
    = replication
      ++ [emit_currencyUpdated "cash" (balance "cash" (_wallet (joined bank)))
            (JsObject.prop "cash"
               (_wallet (world_after
                           (Player.changeCurrency "cash" (VInt 4) (joined bank)))))
            "changeCurrency"]
    /\ Forall (fun c => is_replication c = true) replication
    /\ (List.length replication <= 1)%nat
    /\ ("cash" <> "__proto__" ->
        JsObject.prop "cash"
          (_wallet (world_after (Player.changeCurrency "cash" (VInt 4) (joined bank))))
        = balance "cash"
            (_wallet (world_after (Player.changeCurrency "cash" (VInt 4) (joined bank))))).
Proof.
  exact (proj2 (@wallet_write_calls_in_order (joined bank) "cash" (VInt 4)) eq_refl).
Defined.

(** X18.  On a registered currency [c], a [setCurrency] that returns [true]
    replicates the amount passed and a [changeCurrency] that returns [true]
    the value it reads back from the wallet, each with the calls of [c]; the
    replication calls of [setWallet] are, for each name of the new wallet in
    turn, those of its currency for the value kept.  The calls of a currency
    for a value are one [setVariable] under its sync key when its sync type
    is [SYNC_TYPE_EVERYONE], one [setOwnVariable] under its sync key when it
    is [SYNC_TYPE_PLAYER], and none when it is [SYNC_TYPE_NONE]. *)
Theorem wallet_write_replication w k c a props :
  JsMap.get k (currencies w) = Some c ->
  let set_run := Player.setCurrency k a w in
  let change_run := Player.changeCurrency k a w in
  let wallet_run := Player.setWallet (VObject props) w in
  let replaced := _wallet (world_after wallet_run) in
  (result set_run = Return true ->
   filter is_replication (calls set_run) = replication_of c a)
  /\ (result change_run = Return true ->
      filter is_replication (calls change_run)
      = replication_of c (JsObject.prop k (_wallet (world_after change_run))))
  /\ filter is_replication (calls wallet_run)
     = replication_of_wallet (currencies w) replaced (JsObject.keys replaced)
  /\ NoDup (JsObject.keys replaced)
  /\ (forall key, In key (JsObject.keys replaced) ->
        JsMap.has key (currencies w) = true)
  /\ (forall c' v,
        (syncType c' = SYNC_TYPE_EVERYONE ->
         replication_of c' v = [setVariable (syncKey c') v])
        /\ (syncType c' = SYNC_TYPE_PLAYER ->
            replication_of c' v = [setOwnVariable (syncKey c') v])
        /\ (syncType c' = SYNC_TYPE_NONE -> replication_of c' v = [])).
Proof.
  intros Hc. cbv zeta.
  rewrite setCurrency_run, changeCurrency_run, setWallet_run, Hc.
  split.
  { destruct a; try discriminate.
    destruct (shadowed (_wallet w)); [discriminate|]. intros _.
    cbn [calls snd]. rewrite filter_app. cbn [filter is_replication].
    rewrite app_nil_r. apply filter_all, replication_of_is_replication. }
  split.
  { destruct a; try discriminate.
    destruct (shadowed (_wallet w)); [discriminate|]. intros _.
    cbn [calls world_after fst snd _wallet]. rewrite filter_app.
    cbn [filter is_replication].
    rewrite app_nil_r. apply filter_all, replication_of_is_replication. }
  cbn [calls world_after fst snd _wallet].
  rewrite !filter_app. cbn [filter is_replication]. rewrite !app_nil_r.
  split; [apply filter_all, replication_of_wallet_is_replication|].
  split; [apply kept_NoDup; constructor|].
  split; [intros key; apply kept_registered|].
  apply replication_of_cases.
Qed.

Lemma wallet_write_replication_witness :
  filter is_replication (calls (Player.setCurrency "cash" (VInt 40) (joined bank)))
  = replication_of cash (VInt 40).
Proof.
  exact (proj1 (@wallet_write_replication (joined bank) "cash" cash (VInt 40)
                  [("gold", VInt 5)] eq_refl) eq_refl).
Defined.
(** * The wallet in the worlds the script can reach *)

(** X19.  From the empty wallet of a player who has just joined, whatever
    requests are served, every name in the wallet is a registered currency
    other than [__proto__] and holds an integer or an infinity. *)
Theorem wallet_holds_registered_numbers reg rs k v :
  JsObject.get k (_wallet (serve_all rs (joined reg))) = Some v ->
  JsMap.has k (currencies (serve_all rs (joined reg))) = true
  /\ k <> "__proto__"
  /\ ((exists z, v = VInt z) \/ (exists negative, v = VInfinity negative)).
Proof.
  apply (@wallet_ok_serve_all rs (joined reg) (@wallet_ok_joined reg)).
Qed.

Lemma wallet_holds_registered_numbers_witness :
  JsMap.has "gold"
    (currencies (serve_all [SetWallet (VObject [("gold", VInt 5); ("silver", VInt 9)]);
                            SetCurrency "gold" (VInt 100);
                            ChangeCurrency "gold" (VInt (-30))] (joined bank))) = true
  /\ "gold" <> "__proto__"
  /\ ((exists z, VInt 70 = VInt z) \/ (exists negative, VInt 70 = VInfinity negative)).
Proof.
  apply (@wallet_holds_registered_numbers bank
           [SetWallet (VObject [("gold", VInt 5); ("silver", VInt 9)]);
            SetCurrency "gold" (VInt 100);
            ChangeCurrency "gold" (VInt (-30))] "gold" (VInt 70)).
  reflexivity.
Defined.

(** X20.  [setWallet] on an object returns [true], and the new wallet holds
    under each name other than [__proto__] exactly what the argument holds
    under it when the name is a registered currency and the value an integer,
    and nothing otherwise; it holds nothing under [__proto__].  With only
    [gold] registered,
    [{gold: 5, unknown_currency: 9, gold2: "not_a_number"}] leaves exactly
    [{gold: 5}]. *)
Theorem setWallet_keeps_storable_entries w props k :
  result (Player.setWallet (VObject props) w) = Return true
  /\ JsObject.get k (_wallet (world_after (Player.setWallet (VObject props) w)))
     = match JsObject.get k props with
       | Some (VInt z) =>
           if JsMap.has k (currencies w) && negb (String.eqb k "__proto__")
           then Some (VInt z) else None
       | _ => None
       end
  /\ _wallet (world_after
       (Player.setWallet
          (VObject [("gold", VInt 5); ("unknown_currency", VInt 9);
                    ("gold2", VString "not_a_number")])
          (joined [("gold", gold)])))
     = [("gold", VInt 5)].
Proof.
  rewrite setWallet_run. cbn [result world_after fst snd _wallet].
  split; [reflexivity|]. split; [|reflexivity].
  rewrite kept_get. unfold JsObject.prop, stores, JsObject.hasOwnProperty.
  cbn [JsObject.get JsObject.empty orb].
  destruct (JsObject.get k props) as [v|] eqn:Hget.
  - rewrite (obj_get_existsb _ _ Hget).
    destruct (JsMap.has k (currencies w)); destruct v;
      destruct (String.eqb k "__proto__"); reflexivity.
  - assert (Hnot : Number_isInteger (JsObject.inherited k) = false).
    { unfold JsObject.inherited.
      repeat match goal with |- context [if ?b then _ else _] => destruct b end;
        reflexivity. }
    now rewrite Hnot, andb_false_r.
Qed.

(** X21.  In every world the script can reach from a player who has just
    joined, a key that is not registered has the name [Invalid Currency] and
    the sync type [SYNC_TYPE_NONE], and the wallet holds nothing under it:
    [getCurrency] returns 0 for it, unless the wallet holds [hasOwnProperty],
    in which case it throws. *)
Theorem unknown_key_reads reg rs k :
  let w := serve_all rs (joined reg) in
  JsMap.has k (currencies w) = false ->
  CurrencyScript.getCurrencyName k w = (Return "Invalid Currency", w, [])
  /\ CurrencyScript.getCurrencySyncType k w = (Return SYNC_TYPE_NONE, w, [])
  /\ JsObject.get k (_wallet w) = None
  /\ (shadowed (_wallet w) = false ->
      Player.getCurrency k w = (Return (VInt 0), w, []))
  /\ (shadowed (_wallet w) = true ->
      Player.getCurrency k w = (Throw not_a_function, w, [])).
Proof.
  cbv zeta. intros Hk.
  pose proof (@wallet_ok_serve_all rs _ (@wallet_ok_joined reg)) as Hok.
  set (w := serve_all rs (joined reg)) in *.
  assert (Hget : JsObject.get k (_wallet w) = None).
  { destruct (JsObject.get k (_wallet w)) as [v|] eqn:Hget; [|reflexivity].
    destruct (Hok k v Hget) as [Hreg _]. congruence. }
  split; [|split; [|split; [exact Hget|]]].
  - unfold CurrencyScript.getCurrencyName, CurrencyScript.getCurrency, bind, read.
    unfold JsMap.has in Hk. now destruct (JsMap.get k (currencies w)).
  - unfold CurrencyScript.getCurrencySyncType, CurrencyScript.getCurrency, bind, read.
    unfold JsMap.has in Hk. now destruct (JsMap.get k (currencies w)).
  - rewrite getCurrency_run. unfold balance, JsObject.hasOwnProperty.
    rewrite Hget. split; intros ->; reflexivity.
Qed.

Lemma unknown_key_reads_witness :
  JsObject.get "silver"
    (_wallet (serve_all [SetCurrency "gold" (VInt 100); SetCurrency "silver" (VInt 7)]
                (joined bank)))
  = None.
Proof.
  exact (proj1 (proj2 (proj2 (@unknown_key_reads bank
                  [SetCurrency "gold" (VInt 100); SetCurrency "silver" (VInt 7)]
                  "silver" eq_refl)))).
Defined.

(** X22.  Writing the currency [hasOwnProperty] makes the wallet unreadable:
    when it is registered and the wallet does not hold it yet, [setCurrency]
    and [changeCurrency] of it by an integer return [true], and afterwards
    [getCurrency] throws for every key, and so do [setCurrency] and
    [changeCurrency] for every registered key and integer amount. *)
Theorem hasOwnProperty_write_shadows_the_wallet w z :
  JsMap.has "hasOwnProperty" (currencies w) = true ->
  shadowed (_wallet w) = false ->
  let set_run := Player.setCurrency "hasOwnProperty" (VInt z) w in
  let change_run := Player.changeCurrency "hasOwnProperty" (VInt z) w in
  result set_run = Return true
  /\ result change_run = Return true
  /\ world_after change_run = world_after set_run
  /\ forall k,
       Player.getCurrency k (world_after set_run)
       = (Throw not_a_function, world_after set_run, [])
       /\ forall z',
            JsMap.has k (currencies w) = true ->
            Player.setCurrency k (VInt z') (world_after set_run)
            = (Throw not_a_function, world_after set_run, [])
            /\ Player.changeCurrency k (VInt z') (world_after set_run)
               = (Throw not_a_function, world_after set_run, []).
Proof.
  intros Hreg Hshadow. apply map_has_get in Hreg. destruct Hreg as [c Hc].
  cbv zeta. rewrite setCurrency_run, changeCurrency_run, Hc, Hshadow.
  unfold shadowed in Hshadow. rewrite Hshadow.
  cbn [result world_after fst snd].
  split; [reflexivity|]. split; [reflexivity|]. split; [reflexivity|].
  assert (Hnow : shadowed (JsObject.set "hasOwnProperty" (VInt z) (_wallet w)) = true).
  { unfold shadowed. apply obj_has_set. now apply stores_other. }
  intros k. split.
  - rewrite getCurrency_run. cbn [_wallet]. now rewrite Hnow.
  - intros z' Hk. apply map_has_get in Hk. destruct Hk as [ck Hck].
    rewrite setCurrency_run, changeCurrency_run. cbn [currencies _wallet].
    now rewrite Hck, Hnow.
Qed.

Lemma hasOwnProperty_write_shadows_the_wallet_witness :
  result (Player.setCurrency "hasOwnProperty" (VInt 5)
            (joined [("hasOwnProperty", mkCurrency "H" SYNC_TYPE_NONE
                                          "currency_hasOwnProperty")]))
  = Return true.
Proof.
  exact (proj1 (@hasOwnProperty_write_shadows_the_wallet
                  (joined [("hasOwnProperty", mkCurrency "H" SYNC_TYPE_NONE
                                                "currency_hasOwnProperty")])
                  5 eq_refl eq_refl)).
Defined.

(** X23.  The balance is a double: once the balance has been set to
    [2 ^ 53], two changes by 1 leave [2 ^ 53], each sum being rounded back,
    while one change by 2 leaves [2 ^ 53 + 2]. *)
Theorem changeCurrency_rounds_each_sum :
  let w := serve_all [SetCurrency "gold" (VInt (2 ^ 53))] (joined bank) in
  _wallet w = [("gold", VInt (2 ^ 53))]
  /\ _wallet (serve_all [ChangeCurrency "gold" (VInt 1);
                         ChangeCurrency "gold" (VInt 1)] w)
     = [("gold", VInt (2 ^ 53))]
  /\ _wallet (serve_all [ChangeCurrency "gold" (VInt 2)] w)
     = [("gold", VInt (2 ^ 53 + 2))].
Proof. cbv zeta. repeat split; vm_compute; reflexivity. Qed.

(** X24.  For a registered currency other than [__proto__] and
    [hasOwnProperty] that the wallet does not hold, in a wallet that holds no
    [hasOwnProperty], and integers [d1], [d2] whose sum is a finite Number
    [s]: changing by [d1] and then by [d2] leaves the world that setting the
    balance to [d1 + d2] leaves, with balance [s]. *)
Theorem two_changes_equal_one_set w k d1 d2 s :
  JsMap.has k (currencies w) = true ->
  JsObject.hasOwnProperty k (_wallet w) = false ->
  k <> "__proto__" -> k <> "hasOwnProperty" ->
  shadowed (_wallet w) = false ->
  js_add (VInt d1) (VInt d2) = VInt s ->
  let w1 := world_after (Player.changeCurrency k (VInt d1) w) in
  let w2 := world_after (Player.changeCurrency k (VInt d2) w1) in
  let w' := world_after (Player.setCurrency k (js_add (VInt d1) (VInt d2)) w) in
  result (Player.getCurrency k w2) = result (Player.getCurrency k w')
  /\ result (Player.getCurrency k w2) = Return (VInt s)
  /\ w2 = w'
  /\ result (Player.changeCurrency k (VInt d1) w) = Return true
  /\ result (Player.changeCurrency k (VInt d2) w1) = Return true
  /\ result (Player.setCurrency k (js_add (VInt d1) (VInt d2)) w) = Return true.
Proof.
  intros Hreg Hnew Hproto Hhas Hshadow Hsum.
  apply map_has_get in Hreg. destruct Hreg as [c Hc].
  pose proof (stores_other (_wallet w) Hproto) as Hs.
  cbv zeta. rewrite Hsum.
  rewrite setCurrency_run, (changeCurrency_run k (VInt d1) w), Hc, Hshadow, Hnew.
  cbn [world_after result fst snd].
  rewrite changeCurrency_run. cbn [currencies _wallet]. rewrite Hc.
  rewrite shadowed_set, Hshadow by exact Hhas.
  assert (Hown : JsObject.hasOwnProperty k (JsObject.set k (VInt d1) (_wallet w)) = true).
  { unfold JsObject.hasOwnProperty. now rewrite obj_get_set_eq. }
  rewrite Hown, prop_set, Hsum by exact Hs.
  cbn [world_after result fst snd].
  assert (Hset : JsObject.set k (VInt s) (JsObject.set k (VInt d1) (_wallet w))
                 = JsObject.set k (VInt s) (_wallet w)).
  { apply obj_set_set. }
  rewrite Hset, !getCurrency_run. cbn [_wallet].
  rewrite shadowed_set, Hshadow by exact Hhas.
  cbn [result fst]. rewrite balance_set by exact Hs. repeat split.
Qed.

Lemma two_changes_equal_one_set_witness :
  result (Player.getCurrency "cash"
            (world_after (Player.changeCurrency "cash" (VInt (-3))
               (world_after (Player.changeCurrency "cash" (VInt 10)
                  (mkWorld bank [("gold", VInt 1)]))))))
  = Return (VInt 7).
Proof.
  exact (proj1 (proj2
    (@two_changes_equal_one_set (mkWorld bank [("gold", VInt 1)])
       "cash" 10 (-3) 7 eq_refl eq_refl ltac:(discriminate) ltac:(discriminate)
       eq_refl eq_refl))).
Defined.


(** * The first revision *)

#[local] Arguments Legacy.assign : simpl never.
#[local] Arguments Legacy.lookup : simpl never.

Section LegacyRegistryFacts.

Implicit Types (l : list (string * Legacy.Currency)) (r : Legacy.Registry)
  (k : string) (c : Legacy.Currency).

Lemma own_update l k k' c :
  Legacy.own k' (Legacy.update k c l)
  = if String.eqb k' k
    then match Legacy.own k l with Some _ => Some c | None => None end
    else Legacy.own k' l.
Proof.
  induction l as [|[k0 c0] l IH]; cbn.
  - now destruct (String.eqb k' k).
  - destruct (String.eqb_spec k k0) as [->|Hne]; cbn.
    + destruct (String.eqb_spec k' k0); reflexivity.
    + rewrite IH. destruct (String.eqb_spec k' k) as [->|Hne'].
      * destruct (String.eqb_spec k k0); [contradiction|reflexivity].
      * reflexivity.
Qed.

Lemma own_insert_index l i k k' c :
  Legacy.own k l = None ->
  Legacy.own k' (Legacy.insert_index i k c l)
  = if String.eqb k' k then Some c else Legacy.own k' l.
Proof.
  induction l as [|[k0 c0] l IH]; cbn; [reflexivity|].
  destruct (String.eqb_spec k k0) as [->|Hne]; [discriminate|]. intros Hk.
  destruct (JsObject.array_index k0) as [j|]; [destruct (j <? i)%N|]; cbn;
    try reflexivity.
  rewrite IH by exact Hk.
  destruct (String.eqb_spec k' k) as [->|Hne'];
    [destruct (String.eqb_spec k k0); [contradiction|reflexivity]|reflexivity].
Qed.

Lemma own_app l k k' c :
  Legacy.own k l = None ->
  Legacy.own k' (l ++ [(k, c)])
  = if String.eqb k' k then Some c else Legacy.own k' l.
Proof.
  induction l as [|[k0 c0] l IH]; cbn; [reflexivity|].
  destruct (String.eqb_spec k k0) as [->|Hne]; [discriminate|]. intros Hk.
  rewrite IH by exact Hk.
  destruct (String.eqb_spec k' k) as [->|Hne'];
    [destruct (String.eqb_spec k k0); [contradiction|reflexivity]|reflexivity].
Qed.

(** What the registry holds after an assignment. *)
Lemma own_assign r k k' c :
  Legacy.own k' (Legacy.records (Legacy.assign k c r))
  = if String.eqb k' k
       && (Legacy.is_own k (Legacy.records r) || negb (String.eqb k "__proto__"))
    then Some c
    else Legacy.own k' (Legacy.records r).
Proof.
  unfold Legacy.assign, Legacy.is_own.
  destruct (Legacy.own k (Legacy.records r)) as [c0|] eqn:Hk; cbn [orb].
  - cbn [Legacy.records]. rewrite own_update, Hk, andb_true_r. reflexivity.
  - destruct (String.eqb k "__proto__"); cbn [negb Legacy.records].
    + now rewrite andb_false_r.
    + rewrite andb_true_r.
      destruct (JsObject.array_index k); cbn [Legacy.records].
      * now apply own_insert_index.
      * now apply own_app.
Qed.

Lemma prototype_assign r k c :
  Legacy.prototype (Legacy.assign k c r)
  = if negb (Legacy.is_own k (Legacy.records r)) && String.eqb k "__proto__"
    then Some c
    else Legacy.prototype r.
Proof.
  unfold Legacy.assign.
  destruct (Legacy.is_own k (Legacy.records r)); [reflexivity|].
  destruct (String.eqb k "__proto__"); [reflexivity|].
  now destruct (JsObject.array_index k).
Qed.

End LegacyRegistryFacts.

Section LegacyRuns.

Implicit Types (w : Legacy.World) (k : string) (v : value).

Lemma legacy_hasCurrency_run k w :
  Legacy.CurrencyScript.hasCurrency k w
  = if Legacy.shadowed (Legacy._currencies w)
    then (Throw Legacy.not_a_function, w, [])
    else (Return (Legacy.is_own k (Legacy.records (Legacy._currencies w))), w, []).
Proof.
  unfold Legacy.CurrencyScript.hasCurrency, Legacy.bind, Legacy.read,
    Legacy.call_hasOwnProperty, Legacy.shadowed, Legacy.is_own.
  destruct (Legacy.own "hasOwnProperty" (Legacy.records (Legacy._currencies w)));
    reflexivity.
Qed.

Lemma legacy_addCurrency_run key nm sh w :
  Legacy.CurrencyScript.addCurrency key nm sh w
  = let k := string_of key in
    let reg := Legacy._currencies w in
    if negb (nonempty_string key) then
      (Return VNull, w,
       [Legacy.console_error
          "addCurrency: key was not a string/was an empty string."])
    else if negb (nonempty_string nm) then
      (Return VNull, w,
       [Legacy.console_error
          ("addCurrency: name was not a string/was an empty string. ("
           ++ k ++ ")")%string])
    else if negb (String.eqb (typeof sh) "boolean") then
      (Return VNull, w,
       [Legacy.console_error
          ("addCurrency: isShared was not a boolean. (" ++ k ++ ")")%string])
    else if Legacy.shadowed reg then (Throw Legacy.not_a_function, w, [])
    else if Legacy.is_own k (Legacy.records reg) then
      (Return VNull, w,
       [Legacy.console_error
          ("addCurrency: Currency (" ++ k ++ ") already exists.")%string])
    else
      let c := Legacy.mkCurrency (string_of nm) (Legacy.bool_of sh)
                 ("currency_" ++ k)%string in
      (Return (Legacy.lookup k (Legacy.assign k c reg)),
       Legacy.mkWorld (Legacy.assign k c reg) (Legacy._wallet w)
         (Legacy.player_name w),
       [Legacy.emit_currencyDefined k (string_of nm) (Legacy.bool_of sh)
          ("currency_" ++ k)%string]).
Proof.
  unfold Legacy.CurrencyScript.addCurrency. rewrite !nonempty_string_check.
  cbv zeta.
  destruct (negb (nonempty_string key)); [reflexivity|].
  destruct (negb (nonempty_string nm)); [reflexivity|].
  destruct (negb (String.eqb (typeof sh) "boolean")); [reflexivity|].
  unfold Legacy.bind at 1. rewrite legacy_hasCurrency_run.
  destruct (Legacy.shadowed (Legacy._currencies w)); [reflexivity|].
  destruct (Legacy.is_own (string_of key) (Legacy.records (Legacy._currencies w)));
    reflexivity.
Qed.

Lemma legacy_held_run k w c :
  Legacy.own k (Legacy.records (Legacy._currencies w)) = Some c ->
  Legacy.CurrencyScript.held k w = (Return c, w, []).
Proof.
  intros Hc. unfold Legacy.CurrencyScript.held, Legacy.bind, Legacy.read.
  now rewrite Hc.
Qed.

Lemma legacy_getSyncKeyInternal_run k w :
  Legacy.CurrencyScript._getSyncKeyInternal k w
  = if Legacy.shadowed (Legacy._currencies w)
    then (Throw Legacy.not_a_function, w, [])
    else
      (Return
         match Legacy.own k (Legacy.records (Legacy._currencies w)) with
         | Some c => if Legacy.isShared c then Some (Legacy.syncKey c) else None
         | None => None
         end, w, []).
Proof.
  unfold Legacy.CurrencyScript._getSyncKeyInternal, Legacy.bind at 1.
  rewrite legacy_hasCurrency_run.
  destruct (Legacy.shadowed (Legacy._currencies w)); [reflexivity|].
  unfold Legacy.is_own.
  destruct (Legacy.own k (Legacy.records (Legacy._currencies w))) as [c|] eqn:Hc;
    [|reflexivity].
  unfold Legacy.bind. rewrite (legacy_held_run _ _ Hc).
  destruct (Legacy.isShared c); [|reflexivity].
  now rewrite (legacy_held_run _ _ Hc).
Qed.

Lemma legacy_replicate_run c v w :
  Legacy.Player.replicate
    (if Legacy.isShared c then Some (Legacy.syncKey c) else None) v w
  = (Return tt, w, Legacy.replication_of c v).
Proof.
  unfold Legacy.Player.replicate, Legacy.replication_of, Legacy.truthy.
  destruct (Legacy.isShared c); [|reflexivity]. cbn [andb].
  destruct (negb (String.eqb (Legacy.syncKey c) "")); reflexivity.
Qed.

Lemma legacy_getCurrency_run k w :
  Legacy.Player.getCurrency k w
  = if shadowed (Legacy._wallet w) then (Throw not_a_function, w, [])
    else (Return (balance k (Legacy._wallet w)), w, []).
Proof.
  unfold Legacy.Player.getCurrency, Legacy.Player.wallet_hasOwnProperty,
    Legacy.bind, Legacy.read, shadowed, JsObject.call_hasOwnProperty, balance,
    JsObject.hasOwnProperty.
  destruct (JsObject.get "hasOwnProperty" (Legacy._wallet w)); [reflexivity|].
  destruct (JsObject.get k (Legacy._wallet w)); reflexivity.
Qed.

Lemma legacy_wallet_hasOwnProperty_run k w :
  Legacy.Player.wallet_hasOwnProperty k w
  = if shadowed (Legacy._wallet w) then (Throw not_a_function, w, [])
    else (Return (JsObject.hasOwnProperty k (Legacy._wallet w)), w, []).
Proof.
  unfold Legacy.Player.wallet_hasOwnProperty, Legacy.bind, Legacy.read, shadowed,
    JsObject.call_hasOwnProperty, JsObject.hasOwnProperty.
  destruct (JsObject.get "hasOwnProperty" (Legacy._wallet w)); reflexivity.
Qed.

Lemma legacy_setCurrency_run k v w :
  Legacy.Player.setCurrency k v w
  = if Legacy.shadowed (Legacy._currencies w)
    then (Throw Legacy.not_a_function, w, [])
    else
      match Legacy.own k (Legacy.records (Legacy._currencies w)), v with
      | Some c, VInt z =>
          if shadowed (Legacy._wallet w) then (Throw not_a_function, w, [])
          else
            (Return true,
             Legacy.mkWorld (Legacy._currencies w)
               (JsObject.set k (VInt z) (Legacy._wallet w)) (Legacy.player_name w),
             Legacy.replication_of c (VInt z)
             ++ [Legacy.emit_currencyUpdated k (balance k (Legacy._wallet w))
                   (VInt z) "setCurrency"])
      | _, _ => (Return false, w, [])
      end.
Proof.
  unfold Legacy.Player.setCurrency, Legacy.bind at 1.
  rewrite legacy_hasCurrency_run.
  destruct (Legacy.shadowed (Legacy._currencies w)) eqn:Hsh; [reflexivity|].
  unfold Legacy.is_own.
  destruct (Legacy.own k (Legacy.records (Legacy._currencies w))) as [c|] eqn:Hc;
    [|reflexivity].
  destruct v; try reflexivity. cbn [andb Number_isInteger].
  unfold Legacy.bind at 1. rewrite legacy_getSyncKeyInternal_run, Hsh, Hc.
  unfold Legacy.bind at 1. rewrite legacy_getCurrency_run.
  destruct (shadowed (Legacy._wallet w)); [reflexivity|].
  cbn. unfold Legacy.bind. rewrite legacy_replicate_run. reflexivity.
Qed.

Lemma legacy_changeCurrency_run k v w :
  Legacy.Player.changeCurrency k v w
  = if Legacy.shadowed (Legacy._currencies w)
    then (Throw Legacy.not_a_function, w, [])
    else
      match Legacy.own k (Legacy.records (Legacy._currencies w)), v with
      | Some c, VInt z =>
          if shadowed (Legacy._wallet w) then (Throw not_a_function, w, [])
          else
            let wallet' :=
              if JsObject.hasOwnProperty k (Legacy._wallet w)
              then JsObject.set k
                     (js_add (JsObject.prop k (Legacy._wallet w)) (VInt z))
                     (Legacy._wallet w)
              else JsObject.set k (VInt z) (Legacy._wallet w) in
            (Return true,
             Legacy.mkWorld (Legacy._currencies w) wallet' (Legacy.player_name w),
             Legacy.replication_of c (JsObject.prop k wallet')
             ++ [Legacy.emit_currencyUpdated k (balance k (Legacy._wallet w))
                   (JsObject.prop k wallet') "changeCurrency"])
      | _, _ => (Return false, w, [])
      end.
Proof.
  unfold Legacy.Player.changeCurrency, Legacy.bind at 1.
  rewrite legacy_hasCurrency_run.
  destruct (Legacy.shadowed (Legacy._currencies w)) eqn:Hsh; [reflexivity|].
  unfold Legacy.is_own.
  destruct (Legacy.own k (Legacy.records (Legacy._currencies w))) as [c|] eqn:Hc;
    [|reflexivity].
  destruct v; try reflexivity. cbn [andb Number_isInteger].
  unfold Legacy.bind at 1. rewrite legacy_getSyncKeyInternal_run, Hsh, Hc.
  unfold Legacy.bind at 1. rewrite legacy_getCurrency_run.
  destruct (shadowed (Legacy._wallet w)) eqn:Hs; [reflexivity|].
  unfold Legacy.bind at 1. rewrite legacy_wallet_hasOwnProperty_run, Hs.
  destruct (JsObject.hasOwnProperty k (Legacy._wallet w)); cbn;
    unfold Legacy.bind; rewrite legacy_replicate_run; reflexivity.
Qed.

End LegacyRuns.

Section LegacyWallet.

Implicit Types (w : Legacy.World) (k : string) (v : value).

Lemma skip_lines_cons reg who (newWallet : JsObject.t) key todo :
  Legacy.skip_lines reg who newWallet (key :: todo)
  = (if Legacy.skipped reg newWallet key
     then [Legacy.console_log (Legacy.skip_message reg who key)] else [])
    ++ Legacy.skip_lines reg who newWallet todo.
Proof.
  unfold Legacy.skip_lines. cbn [filter].
  destruct (Legacy.skipped reg newWallet key); reflexivity.
Qed.

Lemma legacy_verify_run newWallet todo : forall replacement w,
  Legacy.shadowed (Legacy._currencies w) = false ->
  Legacy.Player.verify newWallet todo replacement w
  = (Return (Legacy.kept (Legacy._currencies w) newWallet todo replacement), w,
     Legacy.skip_lines (Legacy._currencies w) (Legacy.player_name w) newWallet todo).
Proof.
  induction todo as [|key todo IH]; intros replacement w Hsh; [reflexivity|].
  cbn [Legacy.Player.verify Legacy.kept]. rewrite skip_lines_cons.
  unfold Legacy.skipped, Legacy.skip_message.
  unfold Legacy.bind at 1. rewrite legacy_hasCurrency_run, Hsh.
  destruct (Legacy.is_own key (Legacy.records (Legacy._currencies w))); cbn [andb].
  - destruct (Number_isInteger (JsObject.prop key newWallet)); cbn [negb].
    + now rewrite IH.
    + unfold Legacy.bind, Legacy.read, Legacy.perform. rewrite IH by exact Hsh.
      reflexivity.
  - cbn [negb]. unfold Legacy.bind, Legacy.read, Legacy.perform.
    rewrite IH by exact Hsh. reflexivity.
Qed.

Lemma legacy_sync_loop_run (o : JsObject.t) (names : list string) w :
  Legacy.shadowed (Legacy._currencies w) = false ->
  Legacy.for_each names (fun key =>
    Legacy.bind (Legacy.CurrencyScript._getSyncKeyInternal key)
      (fun syncKey => Legacy.Player.replicate syncKey (JsObject.prop key o))) w
  = (Return tt, w, Legacy.replication_of_wallet (Legacy._currencies w) o names).
Proof.
  intros Hsh. induction names as [|key names IH]; [reflexivity|].
  cbn [Legacy.for_each]. unfold Legacy.bind at 1. unfold Legacy.bind at 1.
  rewrite legacy_getSyncKeyInternal_run, Hsh.
  unfold Legacy.replication_of_wallet. cbn [flat_map].
  fold (Legacy.replication_of_wallet (Legacy._currencies w) o names).
  destruct (Legacy.own key (Legacy.records (Legacy._currencies w))) as [c|].
  - rewrite legacy_replicate_run, IH. reflexivity.
  - cbn. rewrite IH. reflexivity.
Qed.

Lemma legacy_setWallet_run props w :
  Legacy.shadowed (Legacy._currencies w) = false ->
  let replacement :=
    Legacy.kept (Legacy._currencies w) props (JsObject.keys props) JsObject.empty in
  Legacy.Player.setWallet (VObject props) w
  = (Return true,
     Legacy.mkWorld (Legacy._currencies w) replacement (Legacy.player_name w),
     Legacy.skip_lines (Legacy._currencies w) (Legacy.player_name w) props
       (JsObject.keys props)
     ++ Legacy.replication_of_wallet (Legacy._currencies w) replacement
          (JsObject.keys replacement)
     ++ [Legacy.emit_walletReplaced (Legacy._wallet w) replacement]).
Proof.
  intros Hsh. cbv zeta. unfold Legacy.Player.setWallet.
  cbn [Object_prototype_toString String.eqb Ascii.eqb Bool.eqb Legacy.props_of
       Player.props_of].
  unfold Legacy.bind at 1, Legacy.read at 1.
  unfold Legacy.bind at 1. rewrite legacy_verify_run by exact Hsh.
  unfold Legacy.bind at 1, Legacy.write_wallet at 1.
  unfold Legacy.bind at 1.
  rewrite legacy_sync_loop_run by exact Hsh.
  reflexivity.
Qed.

Lemma legacy_setWallet_shadowed k v props w :
  Legacy.shadowed (Legacy._currencies w) = true ->
  Legacy.Player.setWallet (VObject ((k, v) :: props)) w
  = (Throw Legacy.not_a_function, w, []).
Proof.
  intros Hsh. unfold Legacy.Player.setWallet.
  cbn [Object_prototype_toString String.eqb Ascii.eqb Bool.eqb Legacy.props_of
       Player.props_of JsObject.keys map fst Legacy.Player.verify].
  unfold Legacy.bind at 1, Legacy.read at 1.
  unfold Legacy.bind at 1. unfold Legacy.bind at 1.
  now rewrite legacy_hasCurrency_run, Hsh.
Qed.

Lemma legacy_setWallet_not_object v w :
  Object_prototype_toString v <> "[object Object]" ->
  Legacy.Player.setWallet v w = (Return false, w, []).
Proof.
  intros Hv. unfold Legacy.Player.setWallet.
  destruct (String.eqb_spec (Object_prototype_toString v) "[object Object]");
    [contradiction|reflexivity].
Qed.

End LegacyWallet.

(** X13.  [addCurrency] of the first revision.  When the key or the name is
    not a non-empty string or [isShared] is not a boolean, it returns [null],
    writes one line to the error console and changes nothing.  Otherwise:
    when the registry holds a currency under [hasOwnProperty] it throws; when
    it holds the key it returns [null], writes that the currency already
    exists and changes nothing; and when it does not hold the key it returns
    the currency object, whose sync key is [currency_] followed by the key,
    and emits one [currencyDefined].  The object is then held under the key,
    every other key being as before, unless the key is [__proto__]: that
    assignment leaves the properties of the registry as they were and makes
    the object its prototype. *)
Theorem legacy_addCurrency_outcome w key nm sh :
  let r := Legacy.CurrencyScript.addCurrency key nm sh w in
  let k := string_of key in
  let reg := Legacy._currencies w in
  let reg' := Legacy._currencies (Legacy.world_after r) in
  let c := Legacy.mkCurrency (string_of nm) (Legacy.bool_of sh)
             ("currency_" ++ k)%string in
  (nonempty_string key = false \/ nonempty_string nm = false
   \/ typeof sh <> "boolean" ->
   Legacy.result r = Return VNull
   /\ Legacy.world_after r = w
   /\ exists message, Legacy.calls r = [Legacy.console_error message])
  /\ (nonempty_string key = true -> nonempty_string nm = true ->
      typeof sh = "boolean" ->
      (Legacy.shadowed reg = true -> r = (Throw Legacy.not_a_function, w, []))
      /\ (Legacy.shadowed reg = false ->
          Legacy.is_own k (Legacy.records reg) = true ->
          r = (Return VNull, w,
               [Legacy.console_error
                  ("addCurrency: Currency (" ++ k ++ ") already exists.")%string]))
      /\ (Legacy.shadowed reg = false ->
          Legacy.is_own k (Legacy.records reg) = false ->
          Legacy.result r = Return (Legacy.object_of c)
          /\ sh = VBool (Legacy.isShared c)
          /\ Legacy.calls r
             = [Legacy.emit_currencyDefined k (string_of nm) (Legacy.isShared c)
                  (Legacy.syncKey c)]
          /\ Legacy._wallet (Legacy.world_after r) = Legacy._wallet w
          /\ (k <> "__proto__" ->
              Legacy.own k (Legacy.records reg') = Some c
              /\ Legacy.prototype reg' = Legacy.prototype reg
              /\ forall k', k' <> k ->
                   Legacy.own k' (Legacy.records reg')
                   = Legacy.own k' (Legacy.records reg))
          /\ (k = "__proto__" ->
              Legacy.records reg' = Legacy.records reg
              /\ Legacy.prototype reg' = Some c))).
Proof.
  cbv zeta. rewrite legacy_addCurrency_run. cbv zeta. split.
  - intros Hbad.
    destruct (nonempty_string key); cbn [negb];
      [|split; [reflexivity|split; [reflexivity|eexists; reflexivity]]].
    destruct (nonempty_string nm); cbn [negb];
      [|split; [reflexivity|split; [reflexivity|eexists; reflexivity]]].
    destruct (String.eqb_spec (typeof sh) "boolean") as [Hsh|Hsh]; cbn [negb];
      [|split; [reflexivity|split; [reflexivity|eexists; reflexivity]]].
    destruct Hbad as [Hbad|[Hbad|Hbad]]; try discriminate. now elim Hbad.
  - intros -> -> Hsh. rewrite Hsh. cbn [negb String.eqb Ascii.eqb Bool.eqb].
    split; [intros ->; reflexivity|].
    split; [intros -> ->; reflexivity|].
    intros -> Hown. rewrite Hown.
    cbn [Legacy.result Legacy.world_after Legacy.calls fst snd
         Legacy._currencies Legacy._wallet Legacy.isShared Legacy.syncKey].
    assert (Hbool : sh = VBool (Legacy.bool_of sh)) by (now destruct sh).
    split.
    { unfold Legacy.lookup. rewrite own_assign, prototype_assign, Hown.
      rewrite String.eqb_refl. cbn [andb orb negb].
      destruct (String.eqb_spec (string_of key) "__proto__") as [E|E];
        cbn [negb]; [|reflexivity].
      rewrite E in *. unfold Legacy.is_own in Hown.
      destruct (Legacy.own "__proto__" (Legacy.records (Legacy._currencies w)));
        [discriminate|reflexivity]. }
    split; [exact Hbool|]. split; [reflexivity|]. split; [reflexivity|].
    split.
    + intros Hne. apply String.eqb_neq in Hne as Hb.
      rewrite prototype_assign, Hown, Hb. cbn [negb andb].
      split; [|split; [reflexivity|]].
      * rewrite own_assign, String.eqb_refl, Hown, Hb. reflexivity.
      * intros k' Hk'. rewrite own_assign.
        destruct (String.eqb_spec k' (string_of key)); [contradiction|reflexivity].
    + intros E. unfold Legacy.assign. rewrite Hown, E. cbn. split; reflexivity.
Qed.

Lemma legacy_addCurrency_outcome_witness :
  Legacy.result (Legacy.CurrencyScript.addCurrency (VString "gold") (VString "")
                   (VBool true) (Legacy.start "Ann"))
  = Return VNull.
Proof.
  apply (proj1 (@legacy_addCurrency_outcome (Legacy.start "Ann") (VString "gold")
                  (VString "") (VBool true))).
  right. left. reflexivity.
Defined.

(** X14.  [setWallet] of the first revision, on a registry that holds no
    currency under [hasOwnProperty], writes to the console exactly one line
    for each name of its argument that it skips, in the order of the names,
    and none for the names it keeps: the line says that the amount is invalid
    when the name is a registered currency and that the currency is invalid
    when it is not.  All these lines come before any other call. *)
Theorem legacy_setWallet_reports_each_skip w props :
  Legacy.shadowed (Legacy._currencies w) = false ->
  let r := Legacy.Player.setWallet (VObject props) w in
  let reg := Legacy._currencies w in
  let lines :=
    map (fun key => Legacy.console_log
                      (Legacy.skip_message reg (Legacy.player_name w) key))
      (filter (fun key =>
                 negb (Legacy.is_own key (Legacy.records reg)
                       && Number_isInteger (JsObject.prop key props)))
         (JsObject.keys props)) in
  filter Legacy.is_console_log (Legacy.calls r) = lines
  /\ exists rest,
       Legacy.calls r = lines ++ rest
       /\ filter Legacy.is_console_log rest = [].
Proof.
  intros Hsh. cbv zeta. rewrite (legacy_setWallet_run props w Hsh).
  cbn [Legacy.calls snd].
  fold (Legacy.skipped (Legacy._currencies w) props).
  fold (Legacy.skip_lines (Legacy._currencies w) (Legacy.player_name w) props
          (JsObject.keys props)).
  assert (Hlogs : forall names,
            filter Legacy.is_console_log
              (Legacy.skip_lines (Legacy._currencies w) (Legacy.player_name w)
                 props names)
            = Legacy.skip_lines (Legacy._currencies w) (Legacy.player_name w)
                props names).
  { intros names. apply filter_all. unfold Legacy.skip_lines.
    apply Forall_forall. intros c Hin. apply in_map_iff in Hin.
    now destruct Hin as (key & <- & _). }
  assert (Hrest : forall o names,
            filter Legacy.is_console_log
              (Legacy.replication_of_wallet (Legacy._currencies w) o names
               ++ [Legacy.emit_walletReplaced (Legacy._wallet w) o])
            = []).
  { intros o names. apply filter_none. apply Forall_app. split; [|repeat constructor].
    apply Forall_flat_map, Forall_forall. intros key _.
    destruct (Legacy.own key (Legacy.records (Legacy._currencies w))) as [c|];
      [|constructor].
    unfold Legacy.replication_of.
    destruct (Legacy.isShared c && negb (String.eqb (Legacy.syncKey c) ""));
      repeat constructor. }
  split.
  - rewrite filter_app, Hlogs, Hrest. apply app_nil_r.
  - eexists. split; [reflexivity|]. apply Hrest.
Qed.

Lemma legacy_setWallet_reports_each_skip_witness :
  filter Legacy.is_console_log
    (Legacy.calls
       (Legacy.Player.setWallet
          (VObject [("gold", VString "many"); ("silver", VInt 2)])
          (Legacy.serve_all
             [Legacy.AddCurrency (VString "gold") (VString "Gold") (VBool true)]
             (Legacy.start "Ann"))))
  = [Legacy.console_log
       ("Found invalid amount for " ++ Legacy.dquote ++ "gold" ++ Legacy.dquote
        ++ " while replacing Ann's wallet, skipping it.")%string;
     Legacy.console_log
       ("Found invalid currency " ++ Legacy.dquote ++ "silver" ++ Legacy.dquote
        ++ " while replacing Ann's wallet, skipping it.")%string].
Proof.
  exact (proj1 (@legacy_setWallet_reports_each_skip
                  (Legacy.serve_all
                     [Legacy.AddCurrency (VString "gold") (VString "Gold")
                        (VBool true)]
                     (Legacy.start "Ann"))
                  [("gold", VString "many"); ("silver", VInt 2)] eq_refl)).
Defined.

(** X17.  The getters of the first revision give back what [addCurrency]
    stored: after it has returned a currency object for a key other than
    [__proto__] and [hasOwnProperty], the key is registered, [getCurrency]
    returns that object, and the name, shared flag and sync key are those
    passed; on a registry that holds no currency under [hasOwnProperty], for
    a key that is not registered the name is [Invalid Currency], the flag
    [false] and the sync key [null]. *)
Theorem legacy_getters lw key nm sh k' :
  let r := Legacy.CurrencyScript.addCurrency key nm sh lw in
  let lw' := Legacy.world_after r in
  let k := string_of key in
  (forall v, Legacy.result r = Return v -> v <> VNull ->
   k <> "__proto__" -> k <> "hasOwnProperty" ->
   Legacy.CurrencyScript.hasCurrency k lw' = (Return true, lw', [])
   /\ Legacy.CurrencyScript.getCurrency k lw' = (Return v, lw', [])
   /\ Legacy.CurrencyScript.getCurrencyName k lw' = (Return (string_of nm), lw', [])
   /\ Legacy.CurrencyScript.getCurrencyIsShared k lw'
      = (Return (Legacy.bool_of sh), lw', [])
   /\ Legacy.CurrencyScript.getCurrencySyncKey k lw'
      = (Return (Some ("currency_" ++ k)%string), lw', []))
  /\ (Legacy.shadowed (Legacy._currencies lw) = false ->
      Legacy.is_own k' (Legacy.records (Legacy._currencies lw)) = false ->
      Legacy.CurrencyScript.getCurrencyName k' lw = (Return "Invalid Currency", lw, [])
      /\ Legacy.CurrencyScript.getCurrencyIsShared k' lw = (Return false, lw, [])
      /\ Legacy.CurrencyScript.getCurrencySyncKey k' lw = (Return None, lw, [])
      /\ Legacy.CurrencyScript._getSyncKeyInternal k' lw = (Return None, lw, [])).
Proof.
  cbv zeta. split.
  - rewrite legacy_addCurrency_run. cbv zeta.
    destruct (negb (nonempty_string key));
      [intros v [= <-] Hv; now elim Hv|].
    destruct (negb (nonempty_string nm));
      [intros v [= <-] Hv; now elim Hv|].
    destruct (negb (String.eqb (typeof sh) "boolean"));
      [intros v [= <-] Hv; now elim Hv|].
    destruct (Legacy.shadowed (Legacy._currencies lw)) eqn:Hsh; [discriminate|].
    destruct (Legacy.is_own (string_of key) (Legacy.records (Legacy._currencies lw)))
      eqn:Hown; [intros v [= <-] Hv; now elim Hv|].
    cbn [Legacy.result Legacy.world_after fst snd].
    intros v [= <-] _ Hproto Hhas.
    set (c := Legacy.mkCurrency (string_of nm) (Legacy.bool_of sh)
                ("currency_" ++ string_of key)%string).
    set (reg' := Legacy.assign (string_of key) c (Legacy._currencies lw)).
    assert (Hc : Legacy.own (string_of key) (Legacy.records reg') = Some c).
    { unfold reg'. rewrite own_assign, String.eqb_refl, Hown.
      destruct (String.eqb_spec (string_of key) "__proto__");
        [contradiction|reflexivity]. }
    assert (Hsh' : Legacy.shadowed reg' = false).
    { unfold Legacy.shadowed, Legacy.is_own, reg'. rewrite own_assign.
      destruct (String.eqb_spec "hasOwnProperty" (string_of key)) as [E|E];
        [now elim Hhas|].
      cbn [andb]. exact Hsh. }
    unfold Legacy.CurrencyScript.getCurrencyName,
      Legacy.CurrencyScript.getCurrencyIsShared,
      Legacy.CurrencyScript.getCurrencySyncKey,
      Legacy.CurrencyScript.getCurrency, Legacy.bind.
    rewrite !legacy_hasCurrency_run. cbn [Legacy._currencies]. rewrite Hsh'.
    unfold Legacy.is_own. rewrite Hc.
    rewrite !(@legacy_held_run (string_of key) _ c) by exact Hc.
    repeat split.
  - intros Hsh Hown.
    unfold Legacy.CurrencyScript.getCurrencyName,
      Legacy.CurrencyScript.getCurrencyIsShared,
      Legacy.CurrencyScript.getCurrencySyncKey, Legacy.bind.
    rewrite legacy_getSyncKeyInternal_run, !legacy_hasCurrency_run, Hsh, Hown.
    unfold Legacy.is_own in Hown.
    destruct (Legacy.own k' (Legacy.records (Legacy._currencies lw)));
      [discriminate|]. repeat split.
Qed.

Lemma legacy_getters_witness :
  Legacy.CurrencyScript.getCurrencyName "silver" (Legacy.start "Ann")
  = (Return "Invalid Currency", Legacy.start "Ann", []).
Proof.
  exact (proj1 (proj2 (@legacy_getters (Legacy.start "Ann") (VString "gold")
                         (VString "Gold") (VBool true) "silver")
                  eq_refl eq_refl)).
Defined.

(** X25.  In the first revision [__proto__] is never registered: on a
    registry that holds no currency under [hasOwnProperty] or [__proto__],
    [addCurrency] with that key, a non-empty name and a boolean returns the
    currency object and emits [currencyDefined], but afterwards
    [hasCurrency] is still [false] for the key, its name is
    [Invalid Currency], [getAllCurrencies] lists what it listed, and the same
    [addCurrency] returns a currency object again. *)
Theorem legacy_proto_is_never_registered w nm sh :
  nonempty_string nm = true -> typeof sh = "boolean" ->
  Legacy.shadowed (Legacy._currencies w) = false ->
  Legacy.is_own "__proto__" (Legacy.records (Legacy._currencies w)) = false ->
  let c := Legacy.mkCurrency (string_of nm) (Legacy.bool_of sh)
             "currency___proto__" in
  let r := Legacy.CurrencyScript.addCurrency (VString "__proto__") nm sh w in
  let w' := Legacy.world_after r in
  Legacy.result r = Return (Legacy.object_of c)
  /\ Legacy.calls r
     = [Legacy.emit_currencyDefined "__proto__" (string_of nm) (Legacy.bool_of sh)
          "currency___proto__"]
  /\ Legacy.CurrencyScript.hasCurrency "__proto__" w' = (Return false, w', [])
  /\ Legacy.CurrencyScript.getCurrencyName "__proto__" w'
     = (Return "Invalid Currency", w', [])
  /\ Legacy.result (Legacy.CurrencyScript.getAllCurrencies w')
     = Legacy.result (Legacy.CurrencyScript.getAllCurrencies w)
  /\ Legacy.result (Legacy.CurrencyScript.addCurrency (VString "__proto__") nm sh w')
     = Return (Legacy.object_of c).
Proof.
  intros Hnm Hsh Hshadow Hown. cbv zeta.
  assert (Hrun : forall w0,
    Legacy.shadowed (Legacy._currencies w0) = false ->
    Legacy.is_own "__proto__" (Legacy.records (Legacy._currencies w0)) = false ->
    Legacy.CurrencyScript.addCurrency (VString "__proto__") nm sh w0
    = (Return (Legacy.object_of
                 (Legacy.mkCurrency (string_of nm) (Legacy.bool_of sh)
                    "currency___proto__")),
       Legacy.mkWorld
         (Legacy.mkRegistry (Legacy.records (Legacy._currencies w0))
            (Some (Legacy.mkCurrency (string_of nm) (Legacy.bool_of sh)
                     "currency___proto__")))
         (Legacy._wallet w0) (Legacy.player_name w0),
       [Legacy.emit_currencyDefined "__proto__" (string_of nm) (Legacy.bool_of sh)
          "currency___proto__"])).
  { intros w0 Hs0 Ho0. rewrite legacy_addCurrency_run. cbv zeta.
    rewrite Hnm, Hsh. cbn [nonempty_string string_of negb].
    change (nonempty_string (VString "__proto__")) with true.
    cbn [negb String.eqb Ascii.eqb Bool.eqb]. rewrite Hs0, Ho0.
    unfold Legacy.assign, Legacy.lookup. rewrite Ho0.
    cbn [String.eqb Ascii.eqb Bool.eqb Legacy.records Legacy.prototype].
    unfold Legacy.is_own in Ho0.
    destruct (Legacy.own "__proto__" (Legacy.records (Legacy._currencies w0)));
      [discriminate|reflexivity]. }
  rewrite (Hrun w Hshadow Hown).
  cbn [Legacy.result Legacy.calls Legacy.world_after fst snd].
  split; [reflexivity|]. split; [reflexivity|].
  unfold Legacy.CurrencyScript.getCurrencyName, Legacy.bind.
  rewrite legacy_hasCurrency_run. cbn [Legacy._currencies Legacy.records].
  unfold Legacy.shadowed in *. cbn [Legacy.records]. rewrite Hshadow, Hown.
  split; [reflexivity|]. split; [reflexivity|]. split; [reflexivity|].
  rewrite Hrun; [reflexivity| |]; cbn [Legacy._currencies Legacy.records];
    assumption.
Qed.

Lemma legacy_proto_is_never_registered_witness :
  Legacy.CurrencyScript.hasCurrency "__proto__"
    (Legacy.world_after
       (Legacy.CurrencyScript.addCurrency (VString "__proto__") (VString "Proto")
          (VBool true) (Legacy.start "Ann")))
  = (Return false,
     Legacy.world_after
       (Legacy.CurrencyScript.addCurrency (VString "__proto__") (VString "Proto")
          (VBool true) (Legacy.start "Ann")),
     []).
Proof.
  exact (proj1 (proj2 (proj2
    (@legacy_proto_is_never_registered (Legacy.start "Ann") (VString "Proto")
       (VBool true) eq_refl eq_refl eq_refl eq_refl)))).
Defined.

(** X26.  In the first revision a currency registered under
    [hasOwnProperty] disables the script: [addCurrency] accepts that key, and
    once the registry holds it, [hasCurrency], the three getters,
    [setCurrency] and [changeCurrency] throw for every key, [addCurrency]
    throws for every non-empty key and name and boolean flag, and
    [setWallet] throws for every object that has a property; each leaves the
    world as it was and makes no call. *)
Theorem legacy_registry_shadowed w k a key nm sh k0 v0 props :
  Legacy.shadowed (Legacy._currencies w) = true ->
  Legacy.CurrencyScript.hasCurrency k w = (Throw Legacy.not_a_function, w, [])
  /\ Legacy.CurrencyScript.getCurrencyName k w = (Throw Legacy.not_a_function, w, [])
  /\ Legacy.CurrencyScript.getCurrencyIsShared k w
     = (Throw Legacy.not_a_function, w, [])
  /\ Legacy.CurrencyScript.getCurrencySyncKey k w
     = (Throw Legacy.not_a_function, w, [])
  /\ Legacy.Player.setCurrency k a w = (Throw Legacy.not_a_function, w, [])
  /\ Legacy.Player.changeCurrency k a w = (Throw Legacy.not_a_function, w, [])
  /\ Legacy.Player.setWallet (VObject ((k0, v0) :: props)) w
     = (Throw Legacy.not_a_function, w, [])
  /\ (nonempty_string key = true -> nonempty_string nm = true ->
      typeof sh = "boolean" ->
      Legacy.CurrencyScript.addCurrency key nm sh w
      = (Throw Legacy.not_a_function, w, []))
  /\ Legacy.shadowed
       (Legacy._currencies
          (Legacy.serve_all
             [Legacy.AddCurrency (VString "hasOwnProperty") (VString "H")
                (VBool false)] (Legacy.start "Ann")))
     = true.
Proof.
  intros Hsh.
  rewrite legacy_setCurrency_run, legacy_changeCurrency_run,
    (legacy_setWallet_shadowed k0 v0 props w Hsh), legacy_addCurrency_run.
  unfold Legacy.CurrencyScript.getCurrencyName,
    Legacy.CurrencyScript.getCurrencyIsShared,
    Legacy.CurrencyScript.getCurrencySyncKey, Legacy.bind.
  rewrite !legacy_hasCurrency_run, Hsh. cbv zeta.
  repeat split. intros -> -> ->. reflexivity.
Qed.

Lemma legacy_registry_shadowed_witness :
  Legacy.Player.setCurrency "gold" (VInt 5)
    (Legacy.serve_all
       [Legacy.AddCurrency (VString "gold") (VString "Gold") (VBool true);
        Legacy.AddCurrency (VString "hasOwnProperty") (VString "H") (VBool false)]
       (Legacy.start "Ann"))
  = (Throw Legacy.not_a_function,
     Legacy.serve_all
       [Legacy.AddCurrency (VString "gold") (VString "Gold") (VBool true);
        Legacy.AddCurrency (VString "hasOwnProperty") (VString "H") (VBool false)]
       (Legacy.start "Ann"),
     []).
Proof.
  exact (proj1 (proj2 (proj2 (proj2 (proj2
    (@legacy_registry_shadowed
       (Legacy.serve_all
          [Legacy.AddCurrency (VString "gold") (VString "Gold") (VBool true);
           Legacy.AddCurrency (VString "hasOwnProperty") (VString "H")
             (VBool false)]
          (Legacy.start "Ann"))
       "gold" (VInt 5) VNull VNull VNull "" VNull [] eq_refl)))))).
Defined.

(** * The two revisions side by side *)

Section Revisions.

Implicit Types (lw : Legacy.World) (w : World) (k : string).

Lemma upgrade_calls_app cs cs' :
  upgrade_calls (cs ++ cs') = upgrade_calls cs ++ upgrade_calls cs'.
Proof. unfold upgrade_calls. apply flat_map_app. Qed.

Lemma upgrade_skip_lines reg who (newWallet : JsObject.t) names :
  upgrade_calls (Legacy.skip_lines reg who newWallet names) = [].
Proof.
  unfold Legacy.skip_lines.
  induction (filter (Legacy.skipped reg newWallet) names) as [|key l IH];
    [reflexivity|exact IH].
Qed.

Lemma upgrade_replication_of c v :
  Legacy.syncKey c <> "" ->
  upgrade_calls (Legacy.replication_of c v) = replication_of (upgrade_currency c) v.
Proof.
  intros Hkey. unfold Legacy.replication_of, replication_of, upgrade_currency.
  cbn [syncType syncKey]. apply String.eqb_neq in Hkey. rewrite Hkey.
  destruct (Legacy.isShared c); reflexivity.
Qed.

Lemma corresponds_has lw w k :
  corresponds lw w ->
  JsMap.has k (currencies w)
  = Legacy.is_own k (Legacy.records (Legacy._currencies lw)).
Proof.
  intros (_ & _ & _ & Hget & _). unfold JsMap.has, Legacy.is_own. rewrite Hget.
  now destruct (Legacy.own k (Legacy.records (Legacy._currencies lw))).
Qed.

Lemma upgrade_replication_of_wallet lw w (o : JsObject.t) names :
  corresponds lw w ->
  upgrade_calls (Legacy.replication_of_wallet (Legacy._currencies lw) o names)
  = replication_of_wallet (currencies w) o names.
Proof.
  intros Hcorr. pose proof Hcorr as (_ & _ & _ & Hget & Hkeys).
  induction names as [|key names IH]; [reflexivity|].
  unfold Legacy.replication_of_wallet, replication_of_wallet. cbn [flat_map].
  fold (Legacy.replication_of_wallet (Legacy._currencies lw) o names).
  fold (replication_of_wallet (currencies w) o names).
  rewrite upgrade_calls_app, IH, Hget.
  destruct (Legacy.own key (Legacy.records (Legacy._currencies lw))) as [c|] eqn:Hc;
    cbn [option_map]; [|reflexivity].
  now rewrite (@upgrade_replication_of c _ (Hkeys _ _ Hc)).
Qed.

Lemma kept_corresponds lw w (newWallet : JsObject.t) todo :
  corresponds lw w ->
  forall replacement,
    kept (currencies w) newWallet todo replacement
    = Legacy.kept (Legacy._currencies lw) newWallet todo replacement.
Proof.
  intros Hcorr. induction todo as [|key todo IH]; intros replacement;
    [reflexivity|].
  cbn [kept Legacy.kept]. unfold Legacy.skipped.
  rewrite (@corresponds_has lw w key Hcorr), negb_andb. now rewrite !IH.
Qed.

(** A wallet method leaves the registries alone; the worlds correspond when
    the wallets left are the same. *)
Lemma corresponds_wallet lw w (o : JsObject.t) :
  corresponds lw w ->
  corresponds (Legacy.mkWorld (Legacy._currencies lw) o (Legacy.player_name lw))
    (mkWorld (currencies w) o).
Proof. intros (_ & Hp & Hs & Hget & Hkeys). repeat split; assumption. Qed.

Lemma setCurrency_corresponds lw w k a :
  corresponds lw w ->
  result (Player.setCurrency k a w)
  = Legacy.result (Legacy.Player.setCurrency k a lw)
  /\ calls (Player.setCurrency k a w)
     = upgrade_calls (Legacy.calls (Legacy.Player.setCurrency k a lw))
  /\ corresponds (Legacy.world_after (Legacy.Player.setCurrency k a lw))
       (world_after (Player.setCurrency k a w)).
Proof.
  intros Hcorr. pose proof Hcorr as (Hw & _ & Hs & Hget & Hkeys).
  rewrite setCurrency_run, legacy_setCurrency_run, Hs, Hget, <- Hw.
  destruct (Legacy.own k (Legacy.records (Legacy._currencies lw))) as [c|] eqn:Hc;
    cbn [option_map]; [|split; [reflexivity|split; [reflexivity|exact Hcorr]]].
  destruct a; try (split; [reflexivity|split; [reflexivity|exact Hcorr]]).
  destruct (shadowed (Legacy._wallet lw));
    [split; [reflexivity|split; [reflexivity|exact Hcorr]]|].
  cbn [result calls world_after Legacy.result Legacy.calls Legacy.world_after
       fst snd].
  split; [reflexivity|]. split.
  - rewrite upgrade_calls_app, (@upgrade_replication_of c _ (Hkeys _ _ Hc)).
    reflexivity.
  - now apply corresponds_wallet.
Qed.

Lemma changeCurrency_corresponds lw w k a :
  corresponds lw w ->
  result (Player.changeCurrency k a w)
  = Legacy.result (Legacy.Player.changeCurrency k a lw)
  /\ calls (Player.changeCurrency k a w)
     = upgrade_calls (Legacy.calls (Legacy.Player.changeCurrency k a lw))
  /\ corresponds (Legacy.world_after (Legacy.Player.changeCurrency k a lw))
       (world_after (Player.changeCurrency k a w)).
Proof.
  intros Hcorr. pose proof Hcorr as (Hw & _ & Hs & Hget & Hkeys).
  rewrite changeCurrency_run, legacy_changeCurrency_run, Hs, Hget, <- Hw.
  destruct (Legacy.own k (Legacy.records (Legacy._currencies lw))) as [c|] eqn:Hc;
    cbn [option_map]; [|split; [reflexivity|split; [reflexivity|exact Hcorr]]].
  destruct a; try (split; [reflexivity|split; [reflexivity|exact Hcorr]]).
  destruct (shadowed (Legacy._wallet lw));
    [split; [reflexivity|split; [reflexivity|exact Hcorr]]|].
  cbv zeta.
  cbn [result calls world_after Legacy.result Legacy.calls Legacy.world_after
       fst snd].
  split; [reflexivity|]. split.
  - rewrite upgrade_calls_app, (@upgrade_replication_of c _ (Hkeys _ _ Hc)).
    reflexivity.
  - now apply corresponds_wallet.
Qed.

Lemma setWallet_corresponds lw w v :
  corresponds lw w ->
  result (Player.setWallet v w) = Legacy.result (Legacy.Player.setWallet v lw)
  /\ calls (Player.setWallet v w)
     = upgrade_calls (Legacy.calls (Legacy.Player.setWallet v lw))
  /\ corresponds (Legacy.world_after (Legacy.Player.setWallet v lw))
       (world_after (Player.setWallet v w)).
Proof.
  intros Hcorr. pose proof Hcorr as (Hw & _ & Hs & Hget & Hkeys).
  destruct (String.eqb_spec (Object_prototype_toString v) "[object Object]")
    as [Hv|Hv].
  - destruct v; try discriminate.
    rewrite setWallet_run, (legacy_setWallet_run props lw Hs). cbv zeta.
    rewrite (@kept_corresponds lw w props (JsObject.keys props) Hcorr).
    cbn [result calls world_after Legacy.result Legacy.calls Legacy.world_after
         fst snd].
    split; [reflexivity|]. split.
    + rewrite !upgrade_calls_app, upgrade_skip_lines.
      rewrite (@upgrade_replication_of_wallet lw w _ _ Hcorr), Hw. reflexivity.
    + now apply corresponds_wallet.
  - rewrite (@setWallet_not_object v w Hv), (@legacy_setWallet_not_object v lw Hv).
    split; [reflexivity|split; [reflexivity|exact Hcorr]].
Qed.

Lemma assign_corresponds lw w k c :
  corresponds lw w ->
  k <> "__proto__" -> k <> "hasOwnProperty" ->
  Legacy.is_own k (Legacy.records (Legacy._currencies lw)) = false ->
  Legacy.syncKey c <> "" ->
  corresponds
    (Legacy.mkWorld (Legacy.assign k c (Legacy._currencies lw)) (Legacy._wallet lw)
       (Legacy.player_name lw))
    (mkWorld (JsMap.set k (upgrade_currency c) (currencies w)) (_wallet w)).
Proof.
  intros (Hw & Hp & Hs & Hget & Hkeys) Hproto Hhas Hown Hkey.
  apply String.eqb_neq in Hproto as Hb.
  assert (Hassign : forall k',
    Legacy.own k' (Legacy.records (Legacy.assign k c (Legacy._currencies lw)))
    = if String.eqb k' k then Some c
      else Legacy.own k' (Legacy.records (Legacy._currencies lw))).
  { intros k'. rewrite own_assign, Hown, Hb. cbn [orb negb].
    now rewrite andb_true_r. }
  split; [exact Hw|]. cbn [Legacy._currencies currencies].
  split; [rewrite prototype_assign, Hown, Hb; exact Hp|].
  split.
  { unfold Legacy.shadowed, Legacy.is_own. rewrite Hassign.
    destruct (String.eqb_spec "hasOwnProperty" k) as [E|E];
      [now elim Hhas|exact Hs]. }
  split.
  - intros k'. rewrite Hassign.
    destruct (String.eqb_spec k' k) as [->|Hne].
    + now rewrite map_get_set_eq.
    + rewrite map_get_set_ne by congruence. apply Hget.
  - intros k' c'. rewrite Hassign.
    destruct (String.eqb k' k); [now intros [= <-]|apply Hkeys].
Qed.

Ltac refused H :=
  split; [reflexivity|];
  split; [exact H|left; split; [reflexivity|eexists; reflexivity]].

Lemma addCurrency_corresponds lw w key nm sh :
  corresponds lw w ->
  string_of key <> "__proto__" -> string_of key <> "hasOwnProperty" ->
  let old_add := Legacy.CurrencyScript.addCurrency key nm sh lw in
  let new_add := CurrencyScript.addCurrency key nm (upgrade_flag sh) w in
  calls new_add = upgrade_calls (Legacy.calls old_add)
  /\ corresponds (Legacy.world_after old_add) (world_after new_add)
  /\ ((Legacy.result old_add = Return VNull
       /\ exists message, result new_add = Throw message)
      \/ exists c, Legacy.result old_add = Return (Legacy.object_of c)
                   /\ result new_add = Return (upgrade_currency c)).
Proof.
  intros Hcorr Hproto Hhas. pose proof Hcorr as (Hw & Hp & Hs & Hget & Hkeys).
  assert (Hstored : forall b,
    Legacy.is_own (string_of key) (Legacy.records (Legacy._currencies lw)) = false ->
    let c := Legacy.mkCurrency (string_of nm) b ("currency_" ++ string_of key)%string in
    Legacy.lookup (string_of key) (Legacy.assign (string_of key) c (Legacy._currencies lw))
    = Legacy.object_of c
    /\ corresponds
         (Legacy.mkWorld (Legacy.assign (string_of key) c (Legacy._currencies lw))
            (Legacy._wallet lw) (Legacy.player_name lw))
         (mkWorld (JsMap.set (string_of key) (upgrade_currency c) (currencies w))
            (_wallet w))).
  { intros b Hown c. split.
    - apply String.eqb_neq in Hproto as Hb.
      unfold Legacy.lookup. rewrite own_assign, String.eqb_refl, Hown, Hb.
      reflexivity.
    - now apply assign_corresponds. }
  cbv zeta. rewrite addCurrency_run, legacy_addCurrency_run. cbv zeta.
  rewrite (@corresponds_has lw w (string_of key) Hcorr), Hs.
  destruct (negb (nonempty_string key)); [refused Hcorr|].
  destruct (negb (nonempty_string nm)); [refused Hcorr|].
  destruct sh as [| |[|]| | | | | | |];
    cbn [typeof upgrade_flag Number_isInteger negb String.eqb Ascii.eqb Bool.eqb];
    try refused Hcorr.
  - destruct (Legacy.is_own (string_of key)
                (Legacy.records (Legacy._currencies lw))) eqn:Hown;
      [refused Hcorr|].
    destruct (Hstored true eq_refl) as [Hlook Hcorr1].
    change (negb (recognized_syncType (VInt SYNC_TYPE_EVERYONE))) with false.
    cbv zeta.
    cbn [result calls world_after Legacy.result Legacy.calls Legacy.world_after
         fst snd int_of Legacy.bool_of].
    split; [reflexivity|]. split; [exact Hcorr1|].
    right. eexists. split; [now rewrite Hlook|reflexivity].
  - destruct (Legacy.is_own (string_of key)
                (Legacy.records (Legacy._currencies lw))) eqn:Hown;
      [refused Hcorr|].
    destruct (Hstored false eq_refl) as [Hlook Hcorr1].
    change (negb (recognized_syncType (VInt SYNC_TYPE_NONE))) with false.
    cbv zeta.
    cbn [result calls world_after Legacy.result Legacy.calls Legacy.world_after
         fst snd int_of Legacy.bool_of].
    split; [reflexivity|]. split; [exact Hcorr1|].
    right. eexists. split; [now rewrite Hlook|reflexivity].
Qed.

Lemma serve_corresponds r lw w :
  corresponds lw w -> Legacy.plain_key r = true ->
  corresponds (Legacy.serve r lw) (serve (upgrade_request r) w).
Proof.
  intros Hcorr Hplain. destruct r as [key nm sh| |v|k a|k a];
    cbn [Legacy.serve serve upgrade_request].
  - cbn [Legacy.plain_key] in Hplain. apply andb_true_iff in Hplain.
    destruct Hplain as [H1 H2].
    apply negb_true_iff, String.eqb_neq in H1, H2.
    now apply (@addCurrency_corresponds lw w key nm sh Hcorr H1 H2).
  - now apply corresponds_wallet.
  - now apply setWallet_corresponds.
  - now apply setCurrency_corresponds.
  - now apply changeCurrency_corresponds.
Qed.

Lemma serve_all_corresponds rs : forall lw w,
  corresponds lw w -> forallb Legacy.plain_key rs = true ->
  corresponds (Legacy.serve_all rs lw) (serve_all (map upgrade_request rs) w).
Proof.
  induction rs as [|r rs IH]; intros lw w Hcorr Hplain; [exact Hcorr|].
  cbn [forallb] in Hplain. apply andb_true_iff in Hplain.
  destruct Hplain as [Hr Hrs].
  cbn [Legacy.serve_all serve_all map fold_left].
  apply IH; [|exact Hrs]. now apply serve_corresponds.
Qed.

Lemma start_corresponds who : corresponds (Legacy.start who) (joined JsMap.empty).
Proof. repeat split; try reflexivity. intros k c. discriminate. Qed.

End Revisions.

(** X15.  The second revision goes through the states of the first: after
    the requests of a run of the first revision that registers neither
    [__proto__] nor [hasOwnProperty], served to the second revision with
    [true] and [false] for [isShared] replaced by the sync types 1 and 0, the
    two revisions hold the same wallet and, under each key, the same
    currency, a shared one with sync type 1 and another with sync type 0. *)
Theorem revisions_reach_the_same_worlds rs who :
  forallb Legacy.plain_key rs = true ->
  let lw := Legacy.serve_all rs (Legacy.start who) in
  let w := serve_all (map upgrade_request rs) (joined JsMap.empty) in
  corresponds lw w
  /\ Legacy._wallet lw = _wallet w
  /\ forall k,
       JsMap.get k (currencies w)
       = option_map upgrade_currency
           (Legacy.own k (Legacy.records (Legacy._currencies lw))).
Proof.
  intros Hplain. cbv zeta.
  pose proof (@serve_all_corresponds rs _ _ (start_corresponds who) Hplain)
    as Hcorr.
  split; [exact Hcorr|]. destruct Hcorr as (Hw & _ & _ & Hget & _). now split.
Qed.

Lemma revisions_reach_the_same_worlds_witness :
  Legacy._wallet
    (Legacy.serve_all
       [Legacy.AddCurrency (VString "gold") (VString "Gold") (VBool true);
        Legacy.SetCurrency "gold" (VInt 5)] (Legacy.start "Ann"))
  = _wallet
      (serve_all
         (map upgrade_request
            [Legacy.AddCurrency (VString "gold") (VString "Gold") (VBool true);
             Legacy.SetCurrency "gold" (VInt 5)])
         (joined JsMap.empty)).
Proof.
  exact (proj1 (proj2
    (@revisions_reach_the_same_worlds
       [Legacy.AddCurrency (VString "gold") (VString "Gold") (VBool true);
        Legacy.SetCurrency "gold" (VInt 5)] "Ann" eq_refl))).
Defined.

(** X16.  In a run of the first revision that registers neither
    [__proto__] nor [hasOwnProperty], each wallet method returns or throws as
    the second revision does in the corresponding world, makes the calls it
    makes, console messages apart, and leaves the corresponding world;
    [addCurrency] with another key does the same, except that it returns
    [null] where the second revision throws. *)
Theorem revisions_make_the_same_calls rs who k a v key nm sh :
  forallb Legacy.plain_key rs = true ->
  let lw := Legacy.serve_all rs (Legacy.start who) in
  let w := serve_all (map upgrade_request rs) (joined JsMap.empty) in
  let old_add := Legacy.CurrencyScript.addCurrency key nm sh lw in
  let new_add := CurrencyScript.addCurrency key nm (upgrade_flag sh) w in
  (result (Player.setCurrency k a w)
   = Legacy.result (Legacy.Player.setCurrency k a lw)
   /\ calls (Player.setCurrency k a w)
      = upgrade_calls (Legacy.calls (Legacy.Player.setCurrency k a lw))
   /\ corresponds (Legacy.world_after (Legacy.Player.setCurrency k a lw))
        (world_after (Player.setCurrency k a w)))
  /\ (result (Player.changeCurrency k a w)
      = Legacy.result (Legacy.Player.changeCurrency k a lw)
      /\ calls (Player.changeCurrency k a w)
         = upgrade_calls (Legacy.calls (Legacy.Player.changeCurrency k a lw))
      /\ corresponds (Legacy.world_after (Legacy.Player.changeCurrency k a lw))
           (world_after (Player.changeCurrency k a w)))
  /\ (result (Player.setWallet v w) = Legacy.result (Legacy.Player.setWallet v lw)
      /\ calls (Player.setWallet v w)
         = upgrade_calls (Legacy.calls (Legacy.Player.setWallet v lw))
      /\ corresponds (Legacy.world_after (Legacy.Player.setWallet v lw))
           (world_after (Player.setWallet v w)))
  /\ (string_of key <> "__proto__" -> string_of key <> "hasOwnProperty" ->
      calls new_add = upgrade_calls (Legacy.calls old_add)
      /\ corresponds (Legacy.world_after old_add) (world_after new_add)
      /\ ((Legacy.result old_add = Return VNull
           /\ exists message, result new_add = Throw message)
          \/ exists c, Legacy.result old_add = Return (Legacy.object_of c)
                       /\ result new_add = Return (upgrade_currency c))).
Proof.
  intros Hplain. cbv zeta.
  pose proof (@serve_all_corresponds rs _ _ (start_corresponds who) Hplain)
    as Hcorr.
  split; [now apply setCurrency_corresponds|].
  split; [now apply changeCurrency_corresponds|].
  split; [now apply setWallet_corresponds|].
  intros Hproto Hhas. now apply addCurrency_corresponds.
Qed.

Lemma revisions_make_the_same_calls_witness :
  calls (Player.setCurrency "gold" (VInt 5)
           (serve_all
              (map upgrade_request
                 [Legacy.AddCurrency (VString "gold") (VString "Gold") (VBool true)])
              (joined JsMap.empty)))
  = upgrade_calls
      (Legacy.calls
         (Legacy.Player.setCurrency "gold" (VInt 5)
            (Legacy.serve_all
               [Legacy.AddCurrency (VString "gold") (VString "Gold") (VBool true)]
               (Legacy.start "Ann")))).
Proof.
  exact (proj1 (proj2 (proj1
    (@revisions_make_the_same_calls
       [Legacy.AddCurrency (VString "gold") (VString "Gold") (VBool true)]
       "Ann" "gold" (VInt 5) VNull VNull VNull VNull eq_refl)))).
Defined.
